(** * Document intelligence platform: analysis pipeline and knowledge graph

    A shallow embedding of
      - [backend/models/knowledge_graph.py]  ([KnowledgeGraphBuilder]),
      - [backend/services/analysis_engine.py] ([AnalysisEngine]),
      - [backend/routes/analysis.py]          (the [/analyze] route),
      - [backend/database/redis_cache.py] and [backend/database/mongodb.py]
        (the helper methods the engine calls),
    followed by the properties of the specification that concern them.

    Conventions.  Python [int] is [Z]; a Python [float] is modelled by an
    exact rational [Q] (rounding is not modelled); a dict with a fixed set of
    keys is a record, a key that may be missing (or hold [None]) is an
    [option] field; a dict or list whose order is observable is an association
    list or a list.  Entity texts, labels and document ids are opaque keys and
    are modelled by [string]; the document text, whose characters matter for
    the text statistics, is a list of Unicode code points. *)

From Stdlib Require Import String Ascii List Bool Arith ZArith NArith QArith Lia.
From Stdlib Require Import Permutation Sorted DecimalString FinFun.
Import ListNotations.

Local Open Scope string_scope.
Local Open Scope list_scope.

(* ================================================================== *)
(** * Data model *)
(* ================================================================== *)

(** An entity dict as produced by [NERModel.extract_entities]. *)
Record Entity := mkEntity {
  e_text : string;                 (* 'text'  *)
  e_label : string;                (* 'label' *)
  e_start : Z;                     (* 'start' *)
  e_end : Z;                       (* 'end'   *)
  e_description : option string    (* 'description' *)
}.

(** A relationship dict as produced by [NERModel.extract_relationships]. *)
Record Relationship := mkRelationship {
  r_subject : string;              (* 'subject' *)
  r_relation : option string;      (* 'relation', read with [.get] *)
  r_object : string;               (* 'object' *)
  r_sentence : option string       (* 'sentence' *)
}.

(* ================================================================== *)
(** * [networkx.DiGraph], as far as the builder uses it *)
(* ================================================================== *)

Module nx.

(** Node attribute dict; [add_node(n, type=.., label=..)] sets both keys,
    a node created on the fly by [add_edge] has none. *)
Record NodeAttr := mkNodeAttr {
  a_type : option string;
  a_label : option string
}.

Definition no_attr : NodeAttr := mkNodeAttr None None.

(** [dict.update]: keys of the new dict win. *)
Definition attr_update (old new : NodeAttr) : NodeAttr :=
  mkNodeAttr
    (match a_type new with Some t => Some t | None => a_type old end)
    (match a_label new with Some l => Some l | None => a_label old end).

(** One entry of the graph: the node's attributes ([G._node[n]]) and its
    successor dict ([G._succ[n]], successor id to the edge's 'relation').
    Both Python dicts have the same keys in the same insertion order, so
    one association list carries them. *)
Record NodeData := mkNodeData {
  attrs : NodeAttr;
  succ : list (string * string)
}.

Definition DiGraph := list (string * NodeData).

Definition DiGraph_empty : DiGraph := [].

(** [n in G.nodes] *)
Fixpoint has_node (G : DiGraph) (n : string) : bool :=
  match G with
  | [] => false
  | (k, _) :: G' => if String.eqb k n then true else has_node G' n
  end.

(** [G.add_node(n, **attr)]: a new node goes last, an existing one has its
    attribute dict updated in place. *)
Fixpoint add_node (G : DiGraph) (n : string) (a : NodeAttr) : DiGraph :=
  match G with
  | [] => [(n, mkNodeData (attr_update no_attr a) [])]
  | (k, d) :: G' =>
      if String.eqb k n
      then (k, mkNodeData (attr_update (attrs d) a) (succ d)) :: G'
      else (k, d) :: add_node G' n a
  end.

(** [d[v] = rel] on a successor dict: overwrite in place or append. *)
Fixpoint succ_set (s : list (string * string)) (v rel : string)
  : list (string * string) :=
  match s with
  | [] => [(v, rel)]
  | (k, r) :: s' =>
      if String.eqb k v then (k, rel) :: s' else (k, r) :: succ_set s' v rel
  end.

Fixpoint set_edge (G : DiGraph) (u v rel : string) : DiGraph :=
  match G with
  | [] => []
  | (k, d) :: G' =>
      if String.eqb k u
      then (k, mkNodeData (attrs d) (succ_set (succ d) v rel)) :: G'
      else (k, d) :: set_edge G' u v rel
  end.

(** [G.add_edge(u, v, relation=rel)]: missing endpoints are created without
    attributes, then the edge's data dict is created or updated. *)
Definition add_edge (G : DiGraph) (u v rel : string) : DiGraph :=
  let G1 := if has_node G u then G else add_node G u no_attr in
  let G2 := if has_node G1 v then G1 else add_node G1 v no_attr in
  set_edge G2 u v rel.

Definition number_of_nodes (G : DiGraph) : nat := length G.

(** [G.edges(data=True)]: for every node in node order, its successors in
    insertion order. *)
Definition edges (G : DiGraph) : list (string * string * string) :=
  flat_map (fun kd => map (fun vr => (fst kd, fst vr, snd vr)) (succ (snd kd))) G.

Definition number_of_edges (G : DiGraph) : nat := length (edges G).

Definition out_degree (G : DiGraph) (n : string) : nat :=
  length (filter (fun e => String.eqb (fst (fst e)) n) (edges G)).

Definition in_degree (G : DiGraph) (n : string) : nat :=
  length (filter (fun e => String.eqb (snd (fst e)) n) (edges G)).

(** [G.degree(n)] of a directed graph: in-degree plus out-degree. *)
Definition degree (G : DiGraph) (n : string) : nat :=
  (in_degree G n + out_degree G n)%nat.

(** [nx.density(G)] for a directed graph:
    [0] if [m == 0 or n <= 1], else [m / (n * (n - 1))]. *)
Definition density (G : DiGraph) : Q :=
  let n := number_of_nodes G in
  let m := number_of_edges G in
  if (Nat.eqb m 0 || Nat.leb n 1)%bool then 0%Q
  else (inject_Z (Z.of_nat m) / inject_Z (Z.of_nat n * (Z.of_nat n - 1)))%Q.

(** Neighbours of [n] when directions are ignored. *)
Definition und_neighbours (G : DiGraph) (n : string) : list string :=
  flat_map (fun e =>
              let '(u, v, _) := e in
              (if String.eqb u n then [v] else []) ++
              (if String.eqb v n then [u] else []))
           (edges G).

Fixpoint mem (x : string) (l : list string) : bool :=
  match l with
  | [] => false
  | y :: l' => if String.eqb y x then true else mem x l'
  end.

Definition add_new (seen : list string) (l : list string) : list string :=
  fold_left (fun acc x => if mem x acc then acc else acc ++ [x]) l seen.

(** One round of the search: every node seen so far contributes its
    neighbours. *)
Definition expand (G : DiGraph) (seen : list string) : list string :=
  add_new seen (flat_map (und_neighbours G) seen).

Fixpoint expand_n (G : DiGraph) (k : nat) (seen : list string) : list string :=
  match k with
  | O => seen
  | S k' => expand_n G k' (expand G seen)
  end.

(** [nx.is_weakly_connected(G)] on a non-empty graph: the search from the
    first node, ignoring directions, reaches every node.  A path between two
    nodes has fewer edges than there are nodes, so [number_of_nodes] rounds
    reach everything reachable. *)
Definition is_weakly_connected (G : DiGraph) : bool :=
  match G with
  | [] => false
  | (n0, _) :: _ =>
      let seen := expand_n G (number_of_nodes G) [n0] in
      forallb (fun kd => mem (fst kd) seen) G
  end.

End nx.

(* ================================================================== *)
(** * [KnowledgeGraphBuilder] *)
(* ================================================================== *)

(** A node of the visualisation dict. *)
Record GraphNode := mkGraphNode {
  gn_id : string;
  gn_label : string;
  gn_type : string;
  gn_size : nat
}.

(** An edge of the visualisation dict. *)
Record GraphEdge := mkGraphEdge {
  ge_source : string;
  ge_target : string;
  ge_relation : string;
  ge_label : string
}.

Record GraphStatistics := mkGraphStatistics {
  total_nodes : nat;
  total_edges : nat;
  entity_types : list (string * nat);
  density : Q;
  is_connected : bool
}.

Record GraphData := mkGraphData {
  gd_nodes : list GraphNode;
  gd_edges : list GraphEdge;
  gd_statistics : GraphStatistics
}.

(** [_graph_to_dict] *)
Definition _graph_to_dict (G : nx.DiGraph) : list GraphNode * list GraphEdge :=
  let nodes :=
    map (fun kd =>
           let node_id := fst kd in
           let data := nx.attrs (snd kd) in
           mkGraphNode node_id
             (match nx.a_label data with Some l => l | None => node_id end)
             (match nx.a_type data with Some t => t | None => "unknown" end)
             (nx.degree G node_id + 5))
        G in
  let edges :=
    map (fun e => let '(source, target, rel) := e in
                  mkGraphEdge source target rel rel)
        (nx.edges G) in
  (nodes, edges).

(** The slice [l[:n]]. *)
Definition slice_to {A} (n : nat) (l : list A) : list A := firstn n l.

Definition texts_with_label (lbl : string) (entities : list Entity) : list string :=
  map e_text (filter (fun e => String.eqb (e_label e) lbl) entities).

(** The guarded [G.add_edge] of both loops of [_create_implicit_connections]. *)
Definition connect (rel : string) (G : nx.DiGraph) (u v : string) : nx.DiGraph :=
  if (nx.has_node G u && nx.has_node G v)%bool then nx.add_edge G u v rel else G.

Definition connect_all (rel : string) (us vs : list string) (G : nx.DiGraph)
  : nx.DiGraph :=
  fold_left (fun G u => fold_left (fun G v => connect rel G u v) vs G) us G.

(** [_create_implicit_connections] *)
Definition _create_implicit_connections (G : nx.DiGraph) (entities : list Entity)
  : nx.DiGraph :=
  let persons := texts_with_label "PERSON" entities in
  let orgs := texts_with_label "ORG" entities in
  let locations := texts_with_label "GPE" entities in
  let G1 := connect_all "associated_with" (slice_to 5 persons) (slice_to 3 orgs) G in
  connect_all "located_in" (slice_to 5 orgs) (slice_to 3 locations) G1.

(** The first loop of [build_graph]: one node per entity mention. *)
Definition add_entity_nodes (entities : list Entity) : nx.DiGraph :=
  fold_left
    (fun G entity =>
       nx.add_node G (e_text entity)
         (nx.mkNodeAttr (Some (e_label entity)) (Some (e_text entity))))
    entities nx.DiGraph_empty.

(** [entity_types[node_type].append(node_id)], kept as the per-type count
    that the statistics report. *)
Fixpoint bump (counts : list (string * nat)) (lbl : string) : list (string * nat) :=
  match counts with
  | [] => [(lbl, 1%nat)]
  | (k, c) :: counts' =>
      if String.eqb k lbl then (k, S c) :: counts' else (k, c) :: bump counts' lbl
  end.

Definition count_entity_types (entities : list Entity) : list (string * nat) :=
  fold_left (fun counts entity => bump counts (e_label entity)) entities [].

(** The body of the relationship loop. *)
Definition add_relationship (G : nx.DiGraph) (rel : Relationship) : nx.DiGraph :=
  if (nx.has_node G (r_subject rel) && nx.has_node G (r_object rel))%bool
  then nx.add_edge G (r_subject rel) (r_object rel)
         (match r_relation rel with Some r => r | None => "related_to" end)
  else G.

(** Truth value of the optional relationship list: [None] and [[]] are
    false. *)
Definition truthy_list {A} (l : option (list A)) : bool :=
  match l with
  | Some (_ :: _) => true
  | _ => false
  end.

(** The graph after the explicit pass ([if relationships: ...]). *)
Definition explicit_graph (entities : list Entity)
  (relationships : option (list Relationship)) : nx.DiGraph :=
  let G := add_entity_nodes entities in
  match relationships with
  | Some (r :: rs) => fold_left add_relationship (r :: rs) G
  | _ => G
  end.

(** [if not relationships or len(G.edges) == 0] *)
Definition fallback_fires (entities : list Entity)
  (relationships : option (list Relationship)) : bool :=
  (negb (truthy_list relationships)
   || Nat.eqb (nx.number_of_edges (explicit_graph entities relationships)) 0)%bool.

(** The graph [G] at the end of [build_graph]. *)
Definition final_graph (entities : list Entity)
  (relationships : option (list Relationship)) : nx.DiGraph :=
  let G := explicit_graph entities relationships in
  if fallback_fires entities relationships
  then _create_implicit_connections G entities
  else G.

(** [build_graph].  With entities and relationships of the types above no
    statement of the [try] block raises, so the [except] branch (empty
    graph plus 'error') is not part of the model. *)
Definition build_graph (entities : list Entity)
  (relationships : option (list Relationship)) : GraphData :=
  let G := final_graph entities relationships in
  let '(nodes, edges) := _graph_to_dict G in
  mkGraphData nodes edges
    (mkGraphStatistics
       (nx.number_of_nodes G)
       (nx.number_of_edges G)
       (count_entity_types entities)
       (nx.density G)
       (if Nat.ltb 0 (nx.number_of_nodes G) then nx.is_weakly_connected G else false)).


(* ================================================================== *)
(** * Notions used to state the graph properties *)
(* ================================================================== *)

Module nx_spec.
Import nx.

Definition node_ids (G : DiGraph) : list string := map fst G.

(** Look-up of an edge's relation, following the two dict look-ups
    [G._succ[u][v]]. *)
Fixpoint succ_get (s : list (string * string)) (v : string) : option string :=
  match s with
  | [] => None
  | (k, r) :: s' => if String.eqb k v then Some r else succ_get s' v
  end.

Fixpoint edge_rel (G : DiGraph) (u v : string) : option string :=
  match G with
  | [] => None
  | (k, d) :: G' => if String.eqb k u then succ_get (succ d) v else edge_rel G' u v
  end.

(** Dict keys are unique: node ids, and successor ids of every node. *)
Definition keys_unique (G : DiGraph) : Prop :=
  NoDup (node_ids G) /\ Forall (fun kd => NoDup (map fst (succ (snd kd)))) G.

(** Every edge joins two nodes of the graph. *)
Definition closed (G : DiGraph) : Prop :=
  forall u v r, In (u, v, r) (edges G) ->
                has_node G u = true /\ has_node G v = true.

End nx_spec.

Module kg_spec.
Import nx nx_spec.

(** What the loops of [build_graph] keep true of the graph, relative to the
    graph [G0] after the node pass. *)
Definition inv (G0 G : DiGraph) : Prop :=
  keys_unique G /\ closed G /\ node_ids G = node_ids G0.

(** The edge dict [_graph_to_dict] makes of an edge of the graph. *)
Definition to_edge (e : string * string * string) : GraphEdge :=
  let '(source, target, rel) := e in mkGraphEdge source target rel rel.

(** [u] is one of the ids of [l] that are nodes of [G]. *)
Definition among (G : DiGraph) (l : list string) (u : string) : bool :=
  existsb (fun x => has_node G x && String.eqb x u)%bool l.

End kg_spec.

(* ================================================================== *)
(** * Exceptions *)
(* ================================================================== *)

(** The exceptions the modelled code tells apart: FastAPI's
    [HTTPException], which the route re-raises, and every other
    [Exception], of which only [str(e)] is ever used. *)
Inductive exn :=
| Exception (msg : string)
| HTTPException (status_code : nat) (detail : string).

(** A computation that returns or raises. *)
Inductive Result (A : Type) :=
| Ok (a : A)
| Raise (e : exn).

Arguments Ok {A} a.
Arguments Raise {A} e.

Definition result_bind {A B} (r : Result A) (k : A -> Result B) : Result B :=
  match r with
  | Ok a => k a
  | Raise e => Raise e
  end.

(* ================================================================== *)
(** * [AnalysisEngine._build_timeline] *)
(* ================================================================== *)

(** A date dict as produced by [NERModel.extract_dates]. *)
Record DateItem := mkDateItem {
  d_text : string;                 (* 'text'  *)
  d_start : Z;                     (* 'start' *)
  d_end : Z                        (* 'end'   *)
}.

Record TimelineEntry := mkTimelineEntry {
  tl_date : string;                (* 'date' *)
  position : Z;                    (* 'position' *)
  related_entities : list string;  (* 'related_entities' *)
  context : string                 (* 'context' *)
}.

(** [abs(e['start'] - date_start) < 100] *)
Definition nearby (date_start : Z) (e : Entity) : bool :=
  (Z.abs (e_start e - date_start) <? 100)%Z.

(** The body of the loop over [dates]. *)
Definition timeline_entry (entities : list Entity) (date_item : DateItem)
  : TimelineEntry :=
  let date_start := d_start date_item in
  let nearby_entities := filter (nearby date_start) entities in
  mkTimelineEntry (d_text date_item) date_start
    (map e_text (slice_to 5 nearby_entities)) "event".

(** [list.sort(key=...)] is a stable sort; the stable sorted arrangement of
    a list is unique, so insertion sort computes it. *)
Fixpoint insert_by {A} (key : A -> Z) (x : A) (l : list A) : list A :=
  match l with
  | [] => [x]
  | y :: l' => if (key x <=? key y)%Z then x :: y :: l' else y :: insert_by key x l'
  end.

Definition sort_by {A} (key : A -> Z) (l : list A) : list A :=
  fold_right (insert_by key) [] l.

Definition _build_timeline (dates : list DateItem) (entities : list Entity)
  : list TimelineEntry :=
  let timeline := map (timeline_entry entities) dates in
  sort_by position timeline.

(* ================================================================== *)
(** * [AnalysisEngine._calculate_text_statistics] *)
(* ================================================================== *)

(** A Python [str]: the sequence of its code points. *)
Definition text := list N.

(** [str.isspace] of one character, the separators of [str.split()]. *)
Definition isspace (c : N) : bool :=
  ((9 <=? c) && (c <=? 13) || (28 <=? c) && (c <=? 32)
   || (c =? 133) || (c =? 160) || (c =? 5760)
   || (8192 <=? c) && (c <=? 8202)
   || (c =? 8232) || (c =? 8233) || (c =? 8239) || (c =? 8287)
   || (c =? 12288))%N%bool.

Definition flush (cur : list N) : list text :=
  match cur with
  | [] => []
  | _ :: _ => [rev cur]
  end.

(** [text.split()]: maximal runs of non-whitespace characters; [cur] is the
    current run, last character first. *)
Fixpoint split_from (cur : list N) (s : text) : list text :=
  match s with
  | [] => flush cur
  | c :: s' =>
      if isspace c then flush cur ++ split_from [] s'
      else split_from (c :: cur) s'
  end.

Definition split (s : text) : list text := split_from [] s.

(** [text.split(sep)] for a one-character separator. *)
Fixpoint split_on (sep : N) (s : text) : list text :=
  match s with
  | [] => [[]]
  | c :: s' =>
      if (c =? sep)%N then [] :: split_on sep s'
      else match split_on sep s' with
           | [] => [[c]]
           | piece :: pieces => (c :: piece) :: pieces
           end
  end.

Definition full_stop : N := 46.

(** [len(set(words))] *)
Definition count_unique (words : list text) : nat :=
  length (nodup (list_eq_dec N.eq_dec) words).

(** [a / b] on two lengths. *)
Definition truediv (a b : nat) : Result Q :=
  if Nat.eqb b 0 then Raise (Exception "division by zero")
  else Ok (inject_Z (Z.of_nat a) / inject_Z (Z.of_nat b))%Q.

(** [sum(len(word) for word in words)] *)
Definition sum_lengths (words : list text) : nat :=
  fold_left (fun acc word => (acc + length word)%nat) words 0%nat.

Record TextStatistics := mkTextStatistics {
  total_characters : nat;
  total_words : nat;
  total_sentences : nat;
  avg_word_length : Q;
  avg_sentence_length : Q;
  unique_words : nat;
  vocabulary_richness : Q
}.

(** Truth value of a list. *)
Definition nonempty {A} (l : list A) : bool :=
  match l with
  | [] => false
  | _ :: _ => true
  end.

Definition _calculate_text_statistics (t : text) : Result TextStatistics :=
  let words := split t in
  let sentences := split_on full_stop t in
  result_bind
    (if nonempty words then truediv (sum_lengths words) (length words) else Ok 0%Q)
    (fun avg_word =>
  result_bind
    (if nonempty sentences then truediv (length words) (length sentences) else Ok 0%Q)
    (fun avg_sentence =>
  result_bind
    (if nonempty words then truediv (count_unique words) (length words) else Ok 0%Q)
    (fun richness =>
  Ok (mkTextStatistics (length t) (length words) (length sentences)
        avg_word avg_sentence (count_unique words) richness)))).

(* ================================================================== *)
(** * Analysis records *)
(* ================================================================== *)

(** A JSON value; stands for the parts of an analyzer's output that the
    engine passes on without looking inside. *)
#[local] Set Warnings "-register-all".
Inductive PyValue :=
| PyNone
| PyBool (b : bool)
| PyInt (z : Z)
| PyFloat (q : Q)
| PyStr (s : string)
| PyList (l : list PyValue)
| PyDict (d : list (string * PyValue)).

(** Output of [NERModel.extract_entities]. *)
Record NerResult := mkNerResult {
  ner_entities : option (list Entity);     (* 'entities' *)
  ner_rest : PyValue                       (* counts, types, ... *)
}.

(** Output of [SentimentModel.analyze_text_chunks]. *)
Record Sentiment := mkSentiment {
  overall_sentiment : option string;       (* 'overall_sentiment' *)
  average_score : option Q;                (* 'average_score' *)
  sentiment_rest : PyValue
}.

(** Output of [DocumentClassifier.classify_document]. *)
Record Classification := mkClassification {
  category : option string;                (* 'category' *)
  confidence : option Q;                   (* 'confidence' *)
  classification_rest : PyValue
}.

(** The analysis dict: what [analyze_document] returns and caches, and what
    it stores in the [analysis] collection.  Every key but 'document_id' may
    be missing. *)
Record Analysis := mkAnalysis {
  document_id : string;
  analysis_type : option string;
  analyzed_at : option N;
  status : option string;
  error : option string;
  entities : option NerResult;
  sentiment : option Sentiment;
  classification : option Classification;
  relationships : option (list Relationship);
  knowledge_graph : option GraphData;
  dates : option (list DateItem);
  timeline : option (list TimelineEntry);
  key_phrases : option PyValue;
  structure : option PyValue;
  extracted_metadata : option PyValue;
  statistics : option TextStatistics;
  ocr_confidence : option Q
}.

(** A row of the [entities] collection. *)
Record EntityRow := mkEntityRow {
  er_document_id : string;
  entity_text : string;
  entity_type : string;
  start_pos : Z;
  end_pos : Z;
  description : string;
  created_at : N
}.

(** The fields of a row of the [documents] collection that the analysis
    reads or writes. *)
Record Document := mkDocument {
  text_content : option text;
  analysis_status : option string;
  doc_error : option string;
  doc_analyzed_at : option N
}.

(** The [$set] argument of [update_document]. *)
Record DocumentUpdate := mkDocumentUpdate {
  set_analysis_status : option string;
  set_error : option string;
  set_analyzed_at : option N
}.

(** The stages of the pipeline, as they appear in a run's trace. *)
Inductive Stage :=
| StageEntities            (* ner_model.extract_entities *)
| StageSentiment           (* sentiment_model.analyze_text_chunks *)
| StageClassification      (* doc_classifier.classify_document *)
| StageRelationships       (* ner_model.extract_relationships *)
| StageKnowledgeGraph      (* kg_builder.build_graph *)
| StageDates               (* ner_model.extract_dates *)
| StageTimeline            (* self._build_timeline *)
| StageKeyPhrases          (* ner_model.extract_key_phrases *)
| StageStructure           (* doc_classifier.get_document_structure *)
| StageMetadata            (* doc_classifier.extract_document_metadata *)
| StageStatistics.         (* self._calculate_text_statistics *)

(** A task handed to [BackgroundTasks.add_task]. *)
Inductive Task :=
| run_analysis (document_id : string) (t : text) (force : bool).

(* ================================================================== *)
(** * The world the engine runs in *)
(* ================================================================== *)

(** The Redis keyspace (JSON values with their expiry), the three MongoDB
    collections, and the environment's part in a run: which client calls
    fail, what the clock reads.  [redis_faults] and [db_faults] are
    consumed one entry per call that reaches the client ([true], resp.
    [Some e]: something in this call raises, be it the connection, the
    server or the (de)serialisation of the value); an exhausted list means
    no more faults.  A value that is stored and read back goes through
    [json.dumps] and [json.loads]; on the records below, which hold only
    strings, numbers, lists and string-keyed dicts, that round trip is the
    identity.  [trace] records the analyzer stages invoked so far. *)
Record World := mkWorld {
  redis_is_connected : bool;
  redis_keys : list (string * (Analysis * N));
  redis_faults : list bool;
  db_documents : list (string * Document);
  db_entities : list EntityRow;
  db_analysis : list Analysis;
  db_faults : list (option exn);
  clock : list N;
  trace : list Stage;
  background_tasks : list Task
}.

Definition with_redis_keys (ks : list (string * (Analysis * N))) (w : World) :=
  mkWorld (redis_is_connected w) ks (redis_faults w) (db_documents w)
    (db_entities w) (db_analysis w) (db_faults w) (clock w) (trace w)
    (background_tasks w).

Definition with_redis_faults (fs : list bool) (w : World) :=
  mkWorld (redis_is_connected w) (redis_keys w) fs (db_documents w)
    (db_entities w) (db_analysis w) (db_faults w) (clock w) (trace w)
    (background_tasks w).

Definition with_db_documents (ds : list (string * Document)) (w : World) :=
  mkWorld (redis_is_connected w) (redis_keys w) (redis_faults w) ds
    (db_entities w) (db_analysis w) (db_faults w) (clock w) (trace w)
    (background_tasks w).

Definition with_db_entities (es : list EntityRow) (w : World) :=
  mkWorld (redis_is_connected w) (redis_keys w) (redis_faults w)
    (db_documents w) es (db_analysis w) (db_faults w) (clock w) (trace w)
    (background_tasks w).

Definition with_db_analysis (rs : list Analysis) (w : World) :=
  mkWorld (redis_is_connected w) (redis_keys w) (redis_faults w)
    (db_documents w) (db_entities w) rs (db_faults w) (clock w) (trace w)
    (background_tasks w).

Definition with_db_faults (fs : list (option exn)) (w : World) :=
  mkWorld (redis_is_connected w) (redis_keys w) (redis_faults w)
    (db_documents w) (db_entities w) (db_analysis w) fs (clock w) (trace w)
    (background_tasks w).

Definition with_clock (c : list N) (w : World) :=
  mkWorld (redis_is_connected w) (redis_keys w) (redis_faults w)
    (db_documents w) (db_entities w) (db_analysis w) (db_faults w) c (trace w)
    (background_tasks w).

Definition with_trace (tr : list Stage) (w : World) :=
  mkWorld (redis_is_connected w) (redis_keys w) (redis_faults w)
    (db_documents w) (db_entities w) (db_analysis w) (db_faults w) (clock w) tr
    (background_tasks w).

Definition with_background_tasks (ts : list Task) (w : World) :=
  mkWorld (redis_is_connected w) (redis_keys w) (redis_faults w)
    (db_documents w) (db_entities w) (db_analysis w) (db_faults w) (clock w)
    (trace w) ts.

(** ** The monad of the coroutines: state and exceptions.  A raised
    exception keeps the state reached so far. *)
Definition M (A : Type) : Type := World -> Result A * World.

Definition ret {A} (a : A) : M A := fun w => (Ok a, w).

Definition raise {A} (e : exn) : M A := fun w => (Raise e, w).

Definition bind {A B} (m : M A) (k : A -> M B) : M B :=
  fun w =>
    match m w with
    | (Ok a, w') => k a w'
    | (Raise e, w') => (Raise e, w')
    end.

(** [try: m  except Exception as e: handler e] *)
Definition try_except {A} (m : M A) (handler : exn -> M A) : M A :=
  fun w =>
    match m w with
    | (Ok a, w') => (Ok a, w')
    | (Raise e, w') => handler e w'
    end.

Notation "x <- m ;; k" := (bind m (fun x => k))
  (at level 61, m at next level, right associativity).
Notation "m ;;; k" := (bind m (fun _ => k))
  (at level 61, right associativity).

Fixpoint for_each {A B} (f : A -> M B) (l : list A) : M (list B) :=
  match l with
  | [] => ret []
  | a :: l' => b <- f a ;; bs <- for_each f l' ;; ret (b :: bs)
  end.

(** [str(e)]; Starlette prints an [HTTPException] as "code: detail". *)
Definition str (e : exn) : string :=
  match e with
  | Exception msg => msg
  | HTTPException code detail =>
      (DecimalString.NilEmpty.string_of_uint (Nat.to_uint code) ++ ": " ++ detail)%string
  end.

(** [datetime.utcnow()]: the next reading of the clock. *)
Definition utcnow : M N :=
  fun w =>
    match clock w with
    | [] => (Ok 0%N, w)
    | now :: later => (Ok now, with_clock later w)
    end.

(** An analyzer stage: the call is recorded, then returns or raises. *)
Definition invoke {A} (s : Stage) (r : Result A) : M A :=
  fun w => (r, with_trace (trace w ++ [s]) w).

(* ------------------------------------------------------------------ *)
(** ** [database/redis_cache.py] *)

Module redis_client.

Fixpoint lookup {V} (key : string) (l : list (string * V)) : option V :=
  match l with
  | [] => None
  | (k, v) :: l' => if String.eqb k key then Some v else lookup key l'
  end.

Fixpoint store {V} (key : string) (v : V) (l : list (string * V))
  : list (string * V) :=
  match l with
  | [] => [(key, v)]
  | (k, v0) :: l' =>
      if String.eqb k key then (k, v) :: l' else (k, v0) :: store key v l'
  end.

(** One command sent to the server: does it raise? *)
Definition command_fails : World -> bool * World :=
  fun w =>
    match redis_faults w with
    | [] => (false, w)
    | f :: fs => (f, with_redis_faults fs w)
    end.

(** [get]: [None] when disconnected, on any error, and on a missing key.
    The value read back is [json.loads] of what [set] wrote. *)
Definition get (key : string) : M (option Analysis) :=
  fun w =>
    if negb (redis_is_connected w) then (Ok None, w)
    else
      let '(failed, w') := command_fails w in
      if failed then (Ok None, w')
      else (Ok (option_map fst (lookup key (redis_keys w'))), w').

(** [set]: [False] when disconnected and on any error. *)
Definition set (key : string) (value : Analysis) (expire : N) : M bool :=
  fun w =>
    if negb (redis_is_connected w) then (Ok false, w)
    else
      let '(failed, w') := command_fails w in
      if failed then (Ok false, w')
      else (Ok true, with_redis_keys (store key (value, expire) (redis_keys w')) w').

Definition analysis_key (doc_id analysis_type : string) : string :=
  ("analysis:" ++ doc_id ++ ":" ++ analysis_type)%string.

Definition cache_analysis (doc_id analysis_type : string) (data : Analysis)
  : M bool :=
  set (analysis_key doc_id analysis_type) data 7200%N.

Definition get_cached_analysis (doc_id analysis_type : string)
  : M (option Analysis) :=
  get (analysis_key doc_id analysis_type).

End redis_client.

(* ------------------------------------------------------------------ *)
(** ** [database/mongodb.py] *)

Module mongodb.

(** One operation sent to the server (an [ObjectId] that does not parse
    counts as a failure of the operation). *)
Definition operation : M unit :=
  fun w =>
    match db_faults w with
    | [] => (Ok tt, w)
    | None :: fs => (Ok tt, with_db_faults fs w)
    | Some e :: fs => (Raise e, with_db_faults fs w)
    end.

Definition get_document (id : string) : M (option Document) :=
  operation ;;;
  fun w => (Ok (redis_client.lookup id (db_documents w)), w).

Definition apply_update (u : DocumentUpdate) (d : Document) : Document :=
  mkDocument (text_content d)
    (match set_analysis_status u with Some s => Some s | None => analysis_status d end)
    (match set_error u with Some s => Some s | None => doc_error d end)
    (match set_analyzed_at u with Some t => Some t | None => doc_analyzed_at d end).

Fixpoint update_one (id : string) (u : DocumentUpdate)
  (docs : list (string * Document)) : list (string * Document) :=
  match docs with
  | [] => []
  | (k, d) :: docs' =>
      if String.eqb k id then (k, apply_update u d) :: docs'
      else (k, d) :: update_one id u docs'
  end.

(** [update_document]; no modelled caller uses the boolean it returns. *)
Definition update_document (id : string) (u : DocumentUpdate) : M unit :=
  operation ;;;
  fun w => (Ok tt, with_db_documents (update_one id u (db_documents w)) w).

Definition insert_entities (rows : list EntityRow) : M unit :=
  if nonempty rows then
    operation ;;;
    fun w => (Ok tt, with_db_entities (db_entities w ++ rows) w)
  else ret tt.

Definition insert_analysis (a : Analysis) : M unit :=
  operation ;;;
  fun w => (Ok tt, with_db_analysis (db_analysis w ++ [a]) w).

End mongodb.

(* ================================================================== *)
(** * [AnalysisEngine] and the [/analyze] route *)
(* ================================================================== *)

(** The model singletons of [models/__init__.py], as the engine sees them:
    each analyzer, given the text, returns its result or raises. *)
Record Models := mkModels {
  extract_entities : text -> Result NerResult;
  analyze_text_chunks : text -> Result Sentiment;
  classify_document : text -> Result Classification;
  extract_relationships : text -> Result (list Relationship);
  extract_dates : text -> Result (list DateItem);
  extract_key_phrases : text -> Result PyValue;
  get_document_structure : text -> Result PyValue;
  extract_document_metadata : text -> string -> Result PyValue
}.

(** [ner_results.get('entities', [])] *)
Definition entities_of (ner : NerResult) : list Entity :=
  match ner_entities ner with
  | Some l => l
  | None => []
  end.

(** Truth value of [classification_results.get('category')]. *)
Definition truthy_str (s : option string) : bool :=
  match s with
  | Some (String _ _) => true
  | _ => false
  end.

(** The dict returned by the [except] branch of [analyze_document]. *)
Definition failed_analysis (id msg : string) (now : N) : Analysis :=
  mkAnalysis id None (Some now) (Some "failed") (Some msg)
    None None None None None None None None None None None None.

Section Engine.

Variable models : Models.

(** Steps 1 to 10 of [analyze_document]: the [results] dict is filled
    stage by stage. *)
Definition analysis_stages (id : string) (t : text) : M Analysis :=
  now <- utcnow ;;
  ner_results <- invoke StageEntities (extract_entities models t) ;;
  sentiment_results <- invoke StageSentiment (analyze_text_chunks models t) ;;
  classification_results <-
    invoke StageClassification (classify_document models t) ;;
  rels <- invoke StageRelationships (extract_relationships models t) ;;
  kg_data <- invoke StageKnowledgeGraph
               (Ok (build_graph (entities_of ner_results) (Some rels))) ;;
  date_items <- invoke StageDates (extract_dates models t) ;;
  tl <- invoke StageTimeline
          (Ok (_build_timeline date_items (entities_of ner_results))) ;;
  phrases <- invoke StageKeyPhrases (extract_key_phrases models t) ;;
  struct <- invoke StageStructure (get_document_structure models t) ;;
  metadata <-
    (if truthy_str (category classification_results)
     then match category classification_results with
          | Some c =>
              md <- invoke StageMetadata (extract_document_metadata models t c) ;;
              ret (Some md)
          | None => ret None
          end
     else ret None) ;;
  stats <- invoke StageStatistics (_calculate_text_statistics t) ;;
  ret (mkAnalysis id None (Some now) (Some "completed") None
         (Some ner_results) (Some sentiment_results)
         (Some classification_results) (Some rels) (Some kg_data)
         (Some date_items) (Some tl) (Some phrases) (Some struct)
         metadata (Some stats) None).

Definition entity_row (id : string) (entity : Entity) : M EntityRow :=
  now <- utcnow ;;
  ret (mkEntityRow id (e_text entity) (e_label entity) (e_start entity)
         (e_end entity)
         (match e_description entity with Some d => d | None => "" end)
         now).

(** [_save_analysis_results]; the analysis document keeps the sentiment,
    classification, statistics and structure of [results]. *)
Definition _save_analysis_results (id : string) (results : Analysis) : M unit :=
  try_except
    ((match entities results with
      | Some ner =>
          match ner_entities ner with
          | Some (e :: es) =>
              entities_to_save <- for_each (entity_row id) (e :: es) ;;
              mongodb.insert_entities entities_to_save
          | _ => ret tt
          end
      | None => ret tt
      end) ;;;
     now <- utcnow ;;
     mongodb.insert_analysis
       (mkAnalysis id (Some "complete") (Some now) None None
          None (sentiment results) (classification results) None None
          None None None (structure results) None (statistics results) None) ;;;
     now' <- utcnow ;;
     mongodb.update_document id
       (mkDocumentUpdate (Some "completed") None (Some now')))
    (fun e => ret tt).

(** [analyze_document].  A cached analysis is a dict with at least the key
    'document_id', so [if cached:] holds whenever the cache returns one. *)
Definition analyze_document (id : string) (t : text) (force : bool) : M Analysis :=
  try_except
    (cached <- (if negb force
                then redis_client.get_cached_analysis id "complete"
                else ret None) ;;
     match cached with
     | Some c => ret c
     | None =>
         results <- analysis_stages id t ;;
         _save_analysis_results id results ;;;
         redis_client.cache_analysis id "complete" results ;;;
         ret results
     end)
    (fun e =>
       now <- utcnow ;;
       ret (failed_analysis id (str e) now)).

(** [run_analysis_task] of [routes/analysis.py]. *)
Definition run_analysis_task (id : string) (t : text) (force : bool) : M unit :=
  try_except
    (analyze_document id t force ;;; ret tt)
    (fun e =>
       mongodb.update_document id
         (mkDocumentUpdate (Some "failed") (Some (str e)) None)).

Record AnalysisRequest := mkAnalysisRequest {
  req_document_id : string;
  req_force : bool
}.

Record AnalyzeResponse := mkAnalyzeResponse {
  resp_success : bool;
  resp_message : string;
  resp_document_id : string;
  resp_status : string
}.

Definition add_task (task : Task) : M unit :=
  fun w => (Ok tt, with_background_tasks (background_tasks w ++ [task]) w).

(** The [POST /analyze] handler: an [HTTPException] passes through, any other
    exception becomes a 500. *)
Definition analyze_route (request : AnalysisRequest) : M AnalyzeResponse :=
  try_except
    (document <- mongodb.get_document (req_document_id request) ;;
     match document with
     | None => raise (HTTPException 404 "Document not found")
     | Some doc =>
         match text_content doc with
         | None | Some [] =>
             raise (HTTPException 400 "Document has no text content")
         | Some t =>
             mongodb.update_document (req_document_id request)
               (mkDocumentUpdate (Some "processing") None None) ;;;
             add_task (run_analysis (req_document_id request) t
                         (req_force request)) ;;;
             ret (mkAnalyzeResponse true "Analysis started"
                    (req_document_id request) "processing")
         end
     end)
    (fun e =>
       match e with
       | HTTPException _ _ => raise e
       | Exception _ =>
           raise (HTTPException 500 ("Analysis failed: " ++ str e)%string)
       end).

Definition run_task (task : Task) : M unit :=
  match task with
  | run_analysis id t force => run_analysis_task id t force
  end.

(** The scheduled tasks run one after the other once the response is sent;
    an exception that escapes a task does not stop the following ones. *)
Fixpoint run_tasks (tasks : list Task) : World -> World :=
  fun w =>
    match tasks with
    | [] => w
    | task :: tasks' => run_tasks tasks' (snd (run_task task w))
    end.

(** One request to [POST /analyze], from the handler, which is given a
    fresh [BackgroundTasks], to the end of the background work it
    scheduled. *)
Definition serve_analyze (request : AnalysisRequest)
  : World -> Result AnalyzeResponse * World :=
  fun w =>
    let '(response, w') := analyze_route request (with_background_tasks [] w) in
    (response, run_tasks (background_tasks w') (with_background_tasks [] w')).

End Engine.

(* ------------------------------------------------------------------ *)
(** ** [_calculate_confidence] *)

(** Truth value of a number. *)
Definition truthy_num (x : option Q) : bool :=
  match x with
  | Some q => negb (Qeq_bool q 0)
  | None => false
  end.

(** The value appended when the test held. *)
Definition the {A} (d : A) (x : option A) : A :=
  match x with
  | Some a => a
  | None => d
  end.

(** [analysis.get('classification', {}).get('confidence')] *)
Definition classification_confidence (analysis : Analysis) : option Q :=
  match classification analysis with
  | Some c => confidence c
  | None => None
  end.

(** [analysis.get('sentiment', {}).get('average_score')] *)
Definition sentiment_average_score (analysis : Analysis) : option Q :=
  match sentiment analysis with
  | Some s => average_score s
  | None => None
  end.

(** [sum(scores)] *)
Definition sum (scores : list Q) : Q := fold_left Qplus scores 0%Q.

Definition _calculate_confidence (analysis : Analysis) : Q :=
  let scores := [] in
  let scores :=
    if truthy_num (classification_confidence analysis)
    then scores ++ [the 0%Q (classification_confidence analysis)] else scores in
  let scores :=
    if truthy_num (sentiment_average_score analysis)
    then scores ++ [the 0%Q (sentiment_average_score analysis)] else scores in
  let scores :=
    if truthy_num (ocr_confidence analysis)
    then scores ++ [the 0%Q (ocr_confidence analysis)] else scores in
  if nonempty scores
  then (sum scores / inject_Z (Z.of_nat (length scores)))%Q
  else (1 # 2)%Q.

(* ================================================================== *)
(** * Sample inputs *)
(* ================================================================== *)

Module samples.

Definition acme : Entity := mkEntity "Acme Corp" "ORG" 0 9 None.
Definition john : Entity := mkEntity "John Smith" "PERSON" 20 30 None.

(** A relationship whose object is not an entity of the document. *)
Definition dangling : Relationship :=
  mkRelationship "John Smith" (Some "founded") "Initech" None.

Definition works_at : Relationship :=
  mkRelationship "John Smith" (Some "joined") "Acme Corp" None.

(** Two surface strings, each tagged twice by the recogniser: "Ford" as a
    person and as an organisation, "Vatican" as an organisation and as a
    place. *)
Definition twice_tagged : list Entity :=
  [ mkEntity "Ford" "PERSON" 0 4 None;
    mkEntity "Vatican" "ORG" 12 19 None;
    mkEntity "Ford" "ORG" 40 44 None;
    mkEntity "Vatican" "GPE" 60 67 None ].

End samples.

(* ================================================================== *)
(** * Notions used to state the timeline and statistics properties *)
(* ================================================================== *)

Module timeline_spec.

(** Order of two entries by 'position'. *)
Definition by_position (a b : TimelineEntry) : Prop :=
  (position a <= position b)%Z.

(** Number of entities of [pre] that are near the date. *)
Definition near_before (d : DateItem) (pre : list Entity) : nat :=
  length (filter (nearby (d_start d)) pre).

End timeline_spec.

Module samples_timeline.

Definition new_year : DateItem := mkDateItem "2024-01-01" 500 510.
Definition at_550 : Entity := mkEntity "Acme Corp" "ORG" 550 559 None.
Definition at_600 : Entity := mkEntity "Globex" "ORG" 600 606 None.
Definition at_700 : Entity := mkEntity "John Smith" "PERSON" 700 710 None.

(** "Hi." *)
Definition hi : text := [72; 105; 46]%N.

(** A blank, a tab and a no-break space. *)
Definition blanks : text := [32; 9; 160]%N.

End samples_timeline.

(* ================================================================== *)
(** * Notions used to state the engine properties *)
(* ================================================================== *)

Module engine_spec.

(** The computation [m] leaves the component [f] of the world as it was. *)
Definition keeps {X A} (f : World -> X) (m : M A) : Prop :=
  forall w, f (snd (m w)) = f w.

(** The cache look-up that opens [analyze_document]. *)
Definition cache_check (id : string) (force : bool) : M (option Analysis) :=
  if negb force then redis_client.get_cached_analysis id "complete" else ret None.

(** The [except] branch of [analyze_document]. *)
Definition on_error (id : string) (e : exn) : M Analysis :=
  now <- utcnow ;; ret (failed_analysis id (str e) now).

(** The scores of an analysis that are present, in the order the engine
    reads them: classification confidence, sentiment average score, OCR
    confidence. *)
Definition present {A} (x : option A) : list A :=
  match x with
  | Some a => [a]
  | None => []
  end.

Definition present_scores (analysis : Analysis) : list Q :=
  present (classification_confidence analysis) ++
  present (sentiment_average_score analysis) ++
  present (ocr_confidence analysis).

Definition nonzero (q : Q) : bool := negb (Qeq_bool q 0).

(** Arithmetic mean. *)
Definition mean (scores : list Q) : Q :=
  (sum scores / inject_Z (Z.of_nat (length scores)))%Q.

End engine_spec.

Module samples_engine.

Definition no_entities : NerResult := mkNerResult (Some []) PyNone.

Definition neutral : Sentiment := mkSentiment (Some "neutral") (Some (1 # 2)) PyNone.

Definition other : Classification := mkClassification (Some "other") (Some (0 # 1)) PyNone.

(** Analyzers that all return. *)
Definition working : Models :=
  mkModels (fun _ => Ok no_entities) (fun _ => Ok neutral) (fun _ => Ok other)
    (fun _ => Ok []) (fun _ => Ok []) (fun _ => Ok (PyList []))
    (fun _ => Ok (PyDict [])) (fun _ _ => Ok (PyDict [])).

(** The same, but the sentiment analyzer raises. *)
Definition sentiment_down : Models :=
  mkModels (fun _ => Ok no_entities)
    (fun _ => Raise (Exception "sentiment pipeline unavailable"))
    (fun _ => Ok other)
    (fun _ => Ok []) (fun _ => Ok []) (fun _ => Ok (PyList []))
    (fun _ => Ok (PyDict [])) (fun _ _ => Ok (PyDict [])).

Definition doc_id : string := "65f0c0ffee0123456789abcd".

(** A stored document with text "Hi." whose analysis has been requested. *)
Definition stored : Document :=
  mkDocument (Some samples_timeline.hi) (Some "processing") None None.

(** A stored document without text. *)
Definition stored_empty : Document :=
  mkDocument (Some []) None None None.

Definition world_with (doc : Document) (faults : list (option exn)) : World :=
  mkWorld true [] [] [(doc_id, doc)] [] [] faults [] [] [].

(** An analysis whose classifier scored 0 and whose sentiment averaged
    4/5. *)
Definition zero_confidence : Analysis :=
  mkAnalysis doc_id None None (Some "completed") None None
    (Some (mkSentiment (Some "positive") (Some (4 # 5)) PyNone))
    (Some other) None None None None None None None None None.

End samples_engine.

(* ================================================================== *)
(** * [KnowledgeGraphBuilder]: queries on the last graph built *)
(* ================================================================== *)

Module kg_queries.

(** [G.nodes[n]]: the attribute dict, [None] for the [KeyError]. *)
Fixpoint node_attrs (G : nx.DiGraph) (n : string) : option nx.NodeAttr :=
  match G with
  | [] => None
  | (k, d) :: G' => if String.eqb k n then Some (nx.attrs d) else node_attrs G' n
  end.

(** [G.neighbors(n)] of a directed graph, the successors in insertion
    order; [None] when [n] is not a node ([NetworkXError]). *)
Fixpoint neighbors (G : nx.DiGraph) (n : string) : option (list string) :=
  match G with
  | [] => None
  | (k, d) :: G' =>
      if String.eqb k n then Some (map fst (nx.succ d)) else neighbors G' n
  end.

(** [nx.degree_centrality(G)] *)
Definition degree_centrality (G : nx.DiGraph) : list (string * Q) :=
  if Nat.leb (length G) 1 then map (fun kd => (fst kd, 1%Q)) G
  else
    let s := (1 / (inject_Z (Z.of_nat (length G)) - 1))%Q in
    map (fun kd => (fst kd, (inject_Z (Z.of_nat (nx.degree G (fst kd))) * s)%Q)) G.

(** [sorted(l, key=key, reverse=True)]: stable, largest key first. *)
Fixpoint insert_desc {A} (key : A -> Q) (x : A) (l : list A) : list A :=
  match l with
  | [] => [x]
  | y :: l' =>
      if Qle_bool (key y) (key x) then x :: y :: l' else y :: insert_desc key x l'
  end.

Definition sorted_desc {A} (key : A -> Q) (l : list A) : list A :=
  fold_right (insert_desc key) [] l.

(** The slice [l[:n]] for any integer [n]. *)
Definition slice_upto {A} (n : Z) (l : list A) : list A :=
  if (0 <=? n)%Z then firstn (Z.to_nat n) l
  else firstn (length l - Z.to_nat (- n)) l.

(** Truth value of [self.graph]: [None] and a graph without nodes are
    false. *)
Definition graph_truthy (self_graph : option nx.DiGraph) : bool :=
  match self_graph with
  | Some (_ :: _) => true
  | _ => false
  end.

Record CentralEntity := mkCentralEntity {
  ce_entity : string;              (* 'entity' *)
  ce_type : string;                (* 'type' *)
  ce_centrality : Q;               (* 'centrality' *)
  ce_connections : nat             (* 'connections' *)
}.

(** The loop over [sorted_entities]; [None] when a look-up raises. *)
Fixpoint central_rows (G : nx.DiGraph) (l : list (string * Q))
  : option (list CentralEntity) :=
  match l with
  | [] => Some []
  | (entity_id, centrality) :: l' =>
      match node_attrs G entity_id with
      | None => None
      | Some node_data =>
          match central_rows G l' with
          | None => None
          | Some rows =>
              Some (mkCentralEntity entity_id
                      (match nx.a_type node_data with Some t => t | None => "unknown" end)
                      centrality (nx.degree G entity_id) :: rows)
          end
      end
  end.

(** [get_central_entities]; any exception of the [try] block gives [[]]. *)
Definition get_central_entities (self_graph : option nx.DiGraph) (top_n : Z)
  : list CentralEntity :=
  match self_graph with
  | Some G =>
      if (negb (graph_truthy self_graph) || Nat.eqb (nx.number_of_nodes G) 0)%bool
      then []
      else
        let sorted_entities :=
          slice_upto top_n (sorted_desc snd (degree_centrality G)) in
        match central_rows G sorted_entities with
        | Some central_entities => central_entities
        | None => []
        end
  | None => []
  end.

Record NeighborData := mkNeighborData {
  nb_entity : string;              (* 'entity' *)
  nb_type : string;                (* 'type' *)
  nb_label : string                (* 'label' *)
}.

Record Neighbors := mkNeighbors {
  nb_neighbors : list NeighborData;   (* 'neighbors' *)
  nb_count : nat                      (* 'count' *)
}.

Definition no_neighbors : Neighbors := mkNeighbors [] 0.

(** [next_level.update(self.graph.neighbors(node))] for every node of the
    current level.  A Python set is kept as a list without repetition; the
    order in which Python would enumerate it is not modelled. *)
Fixpoint next_level_of (G : nx.DiGraph) (current_level : list string)
  (next_level : list string) : option (list string) :=
  match current_level with
  | [] => Some next_level
  | node :: rest =>
      match neighbors G node with
      | None => None
      | Some ns => next_level_of G rest (nx.add_new next_level ns)
      end
  end.

(** The loop [for _ in range(depth)]. *)
Fixpoint levels (G : nx.DiGraph) (rounds : nat)
  (found current_level : list string) : option (list string) :=
  match rounds with
  | O => Some found
  | S rounds' =>
      match next_level_of G current_level [] with
      | None => None
      | Some next_level =>
          levels G rounds' (nx.add_new found next_level) next_level
      end
  end.

Fixpoint neighbor_rows (G : nx.DiGraph) (l : list string)
  : option (list NeighborData) :=
  match l with
  | [] => Some []
  | neighbor :: l' =>
      match node_attrs G neighbor with
      | None => None
      | Some node_data =>
          match neighbor_rows G l' with
          | None => None
          | Some rows =>
              Some (mkNeighborData neighbor
                      (match nx.a_type node_data with Some t => t | None => "unknown" end)
                      (match nx.a_label node_data with Some l => l | None => neighbor end)
                    :: rows)
          end
      end
  end.

(** The ids found by [get_entity_neighbors] before they are decorated. *)
Definition neighbor_ids (G : nx.DiGraph) (entity : string) (depth : Z)
  : option (list string) :=
  if (depth =? 1)%Z then neighbors G entity
  else
    match levels G (Z.to_nat depth) [] [entity] with
    | None => None
    | Some found => Some (filter (fun n => negb (String.eqb n entity)) found)
    end.

(** [get_entity_neighbors]; any exception of the [try] block gives the
    empty answer. *)
Definition get_entity_neighbors (self_graph : option nx.DiGraph)
  (entity : string) (depth : Z) : Neighbors :=
  match self_graph with
  | Some G =>
      if (negb (graph_truthy self_graph) || negb (nx.has_node G entity))%bool
      then no_neighbors
      else
        match neighbor_ids G entity depth with
        | None => no_neighbors
        | Some ids =>
            match neighbor_rows G ids with
            | None => no_neighbors
            | Some neighbor_data =>
                mkNeighbors neighbor_data (length neighbor_data)
            end
        end
  | None => no_neighbors
  end.

(** A walk of [k] edges from [u] to [v]. *)
Inductive walk (G : nx.DiGraph) : nat -> string -> string -> Prop :=
| walk_here u : walk G 0 u u
| walk_step k u m v r :
    In (u, m, r) (nx.edges G) -> walk G k m v -> walk G (S k) u v.

End kg_queries.

(* ================================================================== *)
(** * [AnalysisEngine.compare_documents] *)
(* ================================================================== *)

Module comparison.

Record Comparison := mkComparison {
  document_1 : string;
  document_2 : string;
  similarities : list string;
  differences : list string;
  shared_entities : list string;
  unique_entities_1 : list string;
  unique_entities_2 : list string
}.

(** The dict returned: the comparison, or the one with the key 'error'. *)
Inductive Outcome :=
| Compared (c : Comparison)
| Error (msg : string).

(** How an f-string prints a value that may be [None]. *)
Definition fmt (s : option string) : string :=
  match s with
  | Some x => x
  | None => "None"
  end.

Definition option_eqb (a b : option string) : bool :=
  match a, b with
  | Some x, Some y => String.eqb x y
  | None, None => true
  | _, _ => false
  end.

(** [analysis.get('classification', {}).get('category')] *)
Definition category_of (analysis : Analysis) : option string :=
  match classification analysis with
  | Some c => category c
  | None => None
  end.

(** [analysis.get('sentiment', {}).get('overall_sentiment')] *)
Definition sentiment_of (analysis : Analysis) : option string :=
  match sentiment analysis with
  | Some s => overall_sentiment s
  | None => None
  end.

(** [set(e['text'] for e in analysis.get('entities', {}).get('entities',
    []))]; a set is kept as a list without repetition, in an order that
    Python does not promise. *)
Definition entity_texts (analysis : Analysis) : list string :=
  nx.add_new []
    (map e_text (match entities analysis with
                 | Some ner => entities_of ner
                 | None => []
                 end)).

(** [a & b] and [a - b] *)
Definition inter (a b : list string) : list string :=
  filter (fun x => nx.mem x b) a.

Definition diff (a b : list string) : list string :=
  filter (fun x => negb (nx.mem x b)) a.

Definition compare_analyses (doc_id1 doc_id2 : string)
  (analysis1 analysis2 : Analysis) : Comparison :=
  let cat1 := category_of analysis1 in
  let cat2 := category_of analysis2 in
  let sent1 := sentiment_of analysis1 in
  let sent2 := sentiment_of analysis2 in
  let similarities :=
    (if option_eqb cat1 cat2
     then ["Both are " ++ fmt cat1 ++ " documents"]%string else []) ++
    (if option_eqb sent1 sent2
     then ["Both have " ++ fmt sent1 ++ " sentiment"]%string else []) in
  let differences :=
    (if option_eqb cat1 cat2 then []
     else ["Different types: " ++ fmt cat1 ++ " vs " ++ fmt cat2]%string) ++
    (if option_eqb sent1 sent2 then []
     else ["Different sentiment: " ++ fmt sent1 ++ " vs " ++ fmt sent2]%string) in
  let entities1 := entity_texts analysis1 in
  let entities2 := entity_texts analysis2 in
  mkComparison doc_id1 doc_id2 similarities differences
    (inter entities1 entities2) (diff entities1 entities2)
    (diff entities2 entities1).

(** [compare_documents]: both analyses are read from the cache only. *)
Definition compare_documents (doc_id1 doc_id2 : string) : M Outcome :=
  analysis1 <- redis_client.get_cached_analysis doc_id1 "complete" ;;
  analysis2 <- redis_client.get_cached_analysis doc_id2 "complete" ;;
  match analysis1, analysis2 with
  | Some a1, Some a2 => ret (Compared (compare_analyses doc_id1 doc_id2 a1 a2))
  | _, _ => ret (Error "One or both documents not analyzed")
  end.

End comparison.

(* ================================================================== *)
(** * The read routes of [routes/analysis.py] and [routes/insights.py] *)
(* ================================================================== *)

Module read_routes.

(** [if analysis_type: query["analysis_type"] = analysis_type] *)
Definition type_matches (wanted : option string) (a : Analysis) : bool :=
  match wanted with
  | Some (String c s) =>
      match analysis_type a with
      | Some t => String.eqb t (String c s)
      | None => false
      end
  | _ => true
  end.

(** [mongodb.get_analysis]: the analysis documents of the document, in the
    order of the collection. *)
Definition get_analysis (id : string) (wanted : option string)
  : M (list Analysis) :=
  mongodb.operation ;;;
  fun w =>
    (Ok (filter (fun a => String.eqb (document_id a) id && type_matches wanted a)%bool
           (db_analysis w)), w).

(** The two [except] clauses every route ends with. *)
Definition http_guard {A} (prefix : string) (m : M A) : M A :=
  try_except m
    (fun e =>
       match e with
       | HTTPException _ _ => raise e
       | Exception _ => raise (HTTPException 500 (prefix ++ str e)%string)
       end).

Record AnalysisResponse := mkAnalysisResponse {
  ar_data : Analysis;              (* 'data' *)
  ar_cached : bool                 (* 'cached' *)
}.

(** [GET /analysis/{document_id}] *)
Definition get_analysis_route (id : string) : M AnalysisResponse :=
  http_guard "Failed to get analysis: "
    (cached <- redis_client.get_cached_analysis id "complete" ;;
     match cached with
     | Some c => ret (mkAnalysisResponse c true)
     | None =>
         analysis_list <- get_analysis id None ;;
         match analysis_list with
         | [] => raise (HTTPException 404 "Analysis not found")
         | analysis :: _ => ret (mkAnalysisResponse analysis false)
         end
     end).

(** The persisted analysis the other read routes start from. *)
Definition first_complete (id : string) : M Analysis :=
  analysis_list <- get_analysis id (Some "complete") ;;
  match analysis_list with
  | [] => raise (HTTPException 404 "Analysis not found")
  | analysis :: _ => ret analysis
  end.

(** [GET /sentiment/{document_id}]; [None] stands for the default [{}]. *)
Definition get_sentiment (id : string) : M (option Sentiment) :=
  http_guard "Failed to get sentiment: "
    (analysis <- first_complete id ;; ret (sentiment analysis)).

(** [GET /knowledge-graph/{document_id}]; [None] stands for the default
    [{}]. *)
Definition get_knowledge_graph (id : string) : M (option GraphData) :=
  http_guard "Failed to get knowledge graph: "
    (analysis <- first_complete id ;; ret (knowledge_graph analysis)).

Record TimelineResponse := mkTimelineResponse {
  tr_timeline : list TimelineEntry;   (* 'timeline' *)
  tr_dates : list DateItem;           (* 'dates' *)
  tr_total_events : nat               (* 'total_events' *)
}.

Definition or_empty {A} (l : option (list A)) : list A :=
  match l with
  | Some x => x
  | None => []
  end.

(** [GET /timeline/{document_id}] *)
Definition get_timeline (id : string) : M TimelineResponse :=
  http_guard "Failed to get timeline: "
    (analysis <- first_complete id ;;
     let tl := or_empty (timeline analysis) in
     let ds := or_empty (dates analysis) in
     ret (mkTimelineResponse tl ds (length tl))).

(** [analysis[0].get('entities', {}).get('entities', [])] *)
Definition entities_data (analysis : Analysis) : list Entity :=
  match entities analysis with
  | Some ner => entities_of ner
  | None => []
  end.

Record EntityNetwork := mkEntityNetwork {
  en_entity : string;                           (* 'entity' *)
  en_depth : Z;                                 (* 'depth' *)
  en_neighbors : list kg_queries.NeighborData;  (* 'neighbors' *)
  en_total_neighbors : nat                      (* 'total_neighbors' *)
}.

(** [GET /entity-network/{document_id}]: the graph is rebuilt from the
    persisted analysis, which leaves it in [kg_builder.graph], and then
    queried. *)
Definition get_entity_network (id entity : string) (depth : Z)
  : M EntityNetwork :=
  http_guard "Failed to get entity network: "
    (analysis <- first_complete id ;;
     match knowledge_graph analysis with
     | None => raise (HTTPException 404 "Knowledge graph not found")
     | Some _ =>
         invoke StageKnowledgeGraph
           (Ok (build_graph (entities_data analysis)
                  (Some (or_empty (relationships analysis))))) ;;;
         let self_graph :=
           Some (final_graph (entities_data analysis)
                   (Some (or_empty (relationships analysis)))) in
         let neighbors :=
           kg_queries.get_entity_neighbors self_graph entity depth in
         ret (mkEntityNetwork entity depth
                (kg_queries.nb_neighbors neighbors)
                (kg_queries.nb_count neighbors))
     end).

Record CentralEntities := mkCentralEntities {
  cs_central_entities : list kg_queries.CentralEntity;  (* 'central_entities' *)
  cs_total : nat                                        (* 'total' *)
}.

(** [GET /central-entities/{document_id}] *)
Definition get_central_entities (id : string) (top_n : Z) : M CentralEntities :=
  http_guard "Failed to get central entities: "
    (analysis <- first_complete id ;;
     invoke StageKnowledgeGraph
       (Ok (build_graph (entities_data analysis)
              (Some (or_empty (relationships analysis))))) ;;;
     let self_graph :=
       Some (final_graph (entities_data analysis)
               (Some (or_empty (relationships analysis)))) in
     let central := kg_queries.get_central_entities self_graph top_n in
     ret (mkCentralEntities central (length central))).

End read_routes.

(* ================================================================== *)
(** * Notions used to state further properties *)
(* ================================================================== *)

Module extra_spec.

(** Number of entities carrying the label. *)
Definition mentions (lbl : string) (entities : list Entity) : nat :=
  length (filter (fun e => String.eqb (e_label e) lbl) entities).

(** The count recorded for a label, 0 when the label has no entry. *)
Fixpoint count_of (lbl : string) (counts : list (string * nat)) : nat :=
  match counts with
  | [] => 0
  | (k, c) :: counts' => if String.eqb k lbl then c else count_of lbl counts'
  end.

Definition total (l : list nat) : nat := fold_right Nat.add 0%nat l.

(** The relation a relationship dict puts on its edge. *)
Definition relation_of (r : Relationship) : string :=
  match r_relation r with
  | Some rel => rel
  | None => "related_to"
  end.

(** The relationship joins [u] to [v]. *)
Definition joins (u v : string) (r : Relationship) : Prop :=
  r_subject r = u /\ r_object r = v.

(** Every node is labelled with its id. *)
Definition self_labelled (G : nx.DiGraph) : Prop :=
  forall k, match kg_queries.node_attrs G k with
            | Some a => nx.a_label a = Some k
            | None => True
            end.

(** The targets of the edges that leave [n], in edge order. *)
Definition targets_from (G : nx.DiGraph) (n : string) : list string :=
  map (fun e => snd (fst e))
      (filter (fun e => String.eqb (fst (fst e)) n) (nx.edges G)).


(** Every analyzer returns on the text. *)
Definition analyzers_return (models : Models) (t : text) : Prop :=
  (exists r, extract_entities models t = Ok r) /\
  (exists r, analyze_text_chunks models t = Ok r) /\
  (exists r, classify_document models t = Ok r) /\
  (exists r, extract_relationships models t = Ok r) /\
  (exists r, extract_dates models t = Ok r) /\
  (exists r, extract_key_phrases models t = Ok r) /\
  (exists r, get_document_structure models t = Ok r) /\
  (forall c, exists r, extract_document_metadata models t c = Ok r).

(** An analysis document as the engine persists it: without entities,
    relationships, knowledge graph, dates and timeline. *)
Definition engine_written (a : Analysis) : Prop :=
  entities a = None /\ relationships a = None /\ knowledge_graph a = None /\
  dates a = None /\ timeline a = None.

(** [sep.join(pieces)] for a one-character separator. *)
Fixpoint join (sep : N) (pieces : list text) : text :=
  match pieces with
  | [] => []
  | [piece] => piece
  | piece :: rest => piece ++ sep :: join sep rest
  end.

(** From [w] to [w'] the store gained the entity rows [rows] and the
    analysis documents [docs], the documents went through [upd], and nothing
    else changed but the clock. *)
Definition stored (w w' : World) (rows : list EntityRow) (docs : list Analysis)
  (upd : list (string * Document) -> list (string * Document)) : Prop :=
  redis_is_connected w' = redis_is_connected w /\
  redis_keys w' = redis_keys w /\
  redis_faults w' = redis_faults w /\
  db_documents w' = upd (db_documents w) /\
  db_entities w' = db_entities w ++ rows /\
  db_analysis w' = db_analysis w ++ docs /\
  db_faults w' = db_faults w /\
  trace w' = trace w /\
  background_tasks w' = background_tasks w.

(** The analysis document [_save_analysis_results] writes for [results]. *)
Definition analysis_doc (id : string) (results : Analysis) (now : N) : Analysis :=
  mkAnalysis id (Some "complete") (Some now) None None
    None (sentiment results) (classification results) None None
    None None None (structure results) None (statistics results) None.

(** Every analysis document of the store is as the engine writes them. *)
Definition engine_store (w : World) : Prop :=
  Forall engine_written (db_analysis w).

(** The computation keeps the property of the world. *)
Definition preserves {A} (P : World -> Prop) (m : M A) : Prop :=
  forall w, P w -> P (snd (m w)).

End extra_spec.

Module samples_more.

(** The sample store with the cache switched off. *)
Definition offline : World :=
  mkWorld false [] [] [(samples_engine.doc_id, samples_engine.stored)]
    [] [] [] [] [] [].

(** The sample store with an analysis of the document in the cache. *)
Definition warm : World :=
  mkWorld true
    [(redis_client.analysis_key samples_engine.doc_id "complete",
      (samples_engine.zero_confidence, 7200%N))]
    [] [(samples_engine.doc_id, samples_engine.stored)] [] [] [] [] [] [].

(** A result with one entity. *)
Definition with_entity : Analysis :=
  mkAnalysis samples_engine.doc_id None None (Some "completed") None
    (Some (mkNerResult (Some [samples.acme]) PyNone))
    None None None None None None None None None None None.

(** As [with_entity], with a second document's id and one more entity. *)
Definition with_entities : Analysis :=
  mkAnalysis "65f0c0ffee0123456789abce" None None (Some "completed") None
    (Some (mkNerResult (Some [samples.john; samples.acme; samples.john]) PyNone))
    None None None None None None None None None None None.

End samples_more.

(* ================================================================== *)
(** * Facts about the graph operations *)
(* ================================================================== *)

Ltac eqb_cases :=
  repeat match goal with
         | |- context [String.eqb ?a ?b] => destruct (String.eqb_spec a b)
         | H : context [String.eqb ?a ?b] |- _ => destruct (String.eqb_spec a b)
         end;
  subst; simpl in *; try congruence; try tauto.

Module nx_facts.
Import nx nx_spec.

Lemma has_node_In G n : has_node G n = true <-> In n (node_ids G).
Proof.
  induction G as [|[k d] G IH]; simpl.
  - split; [discriminate | tauto].
  - destruct (String.eqb_spec k n) as [->|Hne].
    + split; auto.
    + rewrite IH. split; [auto | intros [H|H]; [contradiction | exact H]].
Qed.

Lemma has_node_false G n : has_node G n = false <-> ~ In n (node_ids G).
Proof.
  rewrite <- has_node_In. destruct (has_node G n); split; congruence.
Qed.

Lemma has_node_add_node G n a m :
  has_node (add_node G n a) m = (has_node G m || String.eqb n m)%bool.
Proof.
  induction G as [|[k d] G IH]; simpl.
  - destruct (String.eqb n m); reflexivity.
  - destruct (String.eqb_spec k n) as [->|Hne]; simpl.
    + clear IH. destruct (String.eqb n m); simpl;
        rewrite ?orb_false_r, ?orb_true_r; reflexivity.
    + rewrite IH. destruct (String.eqb k m); reflexivity.
Qed.

Lemma node_ids_add_node G n a :
  node_ids (add_node G n a) =
  if has_node G n then node_ids G else node_ids G ++ [n].
Proof.
  unfold node_ids.
  induction G as [|[k d] G IH]; simpl; [reflexivity|].
  destruct (String.eqb k n); simpl; [reflexivity|].
  rewrite IH. destruct (has_node G n); reflexivity.
Qed.

Lemma edges_add_node G n a : edges (add_node G n a) = edges G.
Proof.
  unfold edges.
  induction G as [|[k d] G IH]; simpl; [reflexivity|].
  destruct (String.eqb k n); simpl; [reflexivity|].
  rewrite IH. reflexivity.
Qed.

Lemma node_ids_set_edge G u v r : node_ids (set_edge G u v r) = node_ids G.
Proof.
  unfold node_ids.
  induction G as [|[k d] G IH]; simpl; [reflexivity|].
  destruct (String.eqb k u); simpl; [reflexivity|].
  rewrite IH. reflexivity.
Qed.

Lemma has_node_set_edge G u v r n :
  has_node (set_edge G u v r) n = has_node G n.
Proof.
  induction G as [|[k d] G IH]; simpl; [reflexivity|].
  destruct (String.eqb k u); simpl; [reflexivity|].
  rewrite IH. reflexivity.
Qed.

(** With both endpoints present, [add_edge] only touches the edge. *)
Lemma add_edge_present G u v r :
  has_node G u = true -> has_node G v = true ->
  add_edge G u v r = set_edge G u v r.
Proof.
  intros Hu Hv. unfold add_edge. rewrite Hu, Hv. reflexivity.
Qed.

Lemma succ_get_set s v r v' :
  succ_get (succ_set s v r) v' =
  if String.eqb v v' then Some r else succ_get s v'.
Proof.
  induction s as [|[k r0] s IH]; simpl; [reflexivity|].
  destruct (String.eqb_spec k v) as [->|Hne]; simpl.
  - destruct (String.eqb v v'); reflexivity.
  - rewrite IH. eqb_cases.
Qed.

Lemma edge_rel_set_edge G u v r u' v' :
  edge_rel (set_edge G u v r) u' v' =
  if (has_node G u && String.eqb u u' && String.eqb v v')%bool
  then Some r else edge_rel G u' v'.
Proof.
  induction G as [|[k d] G IH]; simpl; [reflexivity|].
  destruct (String.eqb_spec k u) as [->|Hne]; simpl.
  - destruct (String.eqb_spec u u') as [->|Hne']; simpl.
    + rewrite succ_get_set. reflexivity.
    + reflexivity.
  - rewrite IH. destruct (String.eqb_spec k u') as [->|Hk]; [|reflexivity].
    destruct (String.eqb_spec u u') as [->|Hu]; [contradiction|].
    rewrite andb_false_r. reflexivity.
Qed.

Lemma succ_get_In s v r : succ_get s v = Some r -> In (v, r) s.
Proof.
  induction s as [|[k r0] s IH]; simpl; [discriminate|].
  destruct (String.eqb_spec k v) as [->|Hne].
  - intros [= ->]. auto.
  - auto.
Qed.

Lemma In_succ_get s v r :
  NoDup (map fst s) -> In (v, r) s -> succ_get s v = Some r.
Proof.
  induction s as [|[k r0] s IH]; simpl; [tauto|].
  intros Hnd [H|H].
  - injection H as -> ->. rewrite String.eqb_refl. reflexivity.
  - inversion Hnd as [|? ? Hnotin Hnd']; subst.
    destruct (String.eqb_spec k v) as [->|Hne].
    + exfalso. apply Hnotin. apply (in_map fst) in H. exact H.
    + auto.
Qed.

Lemma In_edges G u v r :
  In (u, v, r) (edges G) <-> exists d, In (u, d) G /\ In (v, r) (succ d).
Proof.
  unfold edges. rewrite in_flat_map. split.
  - intros [[k d] [Hin Hm]]. simpl in Hm. apply in_map_iff in Hm.
    destruct Hm as [[v0 r0] [Heq Hs]]. simpl in Heq.
    injection Heq as -> -> ->. exists d. auto.
  - intros [d [Hin Hs]]. exists (u, d). split; [exact Hin|].
    simpl. apply in_map_iff. exists (v, r). auto.
Qed.

Lemma edge_rel_In G u v r : edge_rel G u v = Some r -> In (u, v, r) (edges G).
Proof.
  induction G as [|[k d] G IH]; simpl; [discriminate|].
  unfold edges; simpl. intros H. apply in_or_app.
  destruct (String.eqb_spec k u) as [->|Hne].
  - left. apply in_map_iff. exists (v, r). split; [reflexivity|].
    apply succ_get_In; exact H.
  - right. apply IH; exact H.
Qed.

Lemma In_edge_rel G u v r :
  keys_unique G -> In (u, v, r) (edges G) -> edge_rel G u v = Some r.
Proof.
  intros [Hk Hs]. induction G as [|[k d] G IH]; simpl; [tauto|].
  unfold edges; simpl. intros H. apply in_app_or in H.
  inversion Hk as [|? ? Hnotin Hk']; subst.
  inversion Hs as [|? ? Hd Hs']; subst. simpl in Hd.
  destruct H as [H|H].
  - apply in_map_iff in H. destruct H as [[v0 r0] [Heq Hin]].
    simpl in Heq. injection Heq as -> -> ->.
    rewrite String.eqb_refl. apply In_succ_get; assumption.
  - destruct (String.eqb_spec k u) as [->|Hne].
    + exfalso. apply Hnotin. apply In_edges in H. destruct H as [d' [Hin _]].
      apply (in_map fst) in Hin. exact Hin.
    + apply IH; assumption.
Qed.

Lemma keys_unique_add_node G n a : keys_unique G -> keys_unique (add_node G n a).
Proof.
  intros [Hk Hs]. split.
  - rewrite node_ids_add_node. destruct (has_node G n) eqn:Hn; [exact Hk|].
    apply has_node_false in Hn.
    apply NoDup_rev in Hk. rewrite <- (rev_involutive (node_ids G ++ [n])).
    apply NoDup_rev. rewrite rev_app_distr. simpl. constructor; [|exact Hk].
    rewrite <- in_rev. exact Hn.
  - clear Hk. induction G as [|[k d] G IH]; simpl.
    + repeat constructor.
    + inversion Hs as [|? ? Hd Hs']; subst.
      destruct (String.eqb k n); constructor; simpl; auto.
Qed.

Lemma succ_set_keys s v r :
  NoDup (map fst s) -> NoDup (map fst (succ_set s v r)).
Proof.
  induction s as [|[k r0] s IH]; simpl; intros Hnd.
  - repeat constructor. simpl. tauto.
  - inversion Hnd as [|? ? Hnotin Hnd']; subst.
    destruct (String.eqb_spec k v) as [->|Hne]; simpl.
    + constructor; assumption.
    + constructor; [|auto]. intros Hin. apply Hnotin.
      clear - Hin Hne. induction s as [|[k1 r1] s IH]; simpl in *.
      * destruct Hin as [H|[]]. congruence.
      * destruct (String.eqb_spec k1 v) as [->|Hne1]; simpl in *; tauto.
Qed.

Lemma keys_unique_set_edge G u v r :
  keys_unique G -> keys_unique (set_edge G u v r).
Proof.
  intros [Hk Hs]. split.
  - rewrite node_ids_set_edge. exact Hk.
  - clear Hk. induction G as [|[k d] G IH]; simpl; [constructor|].
    inversion Hs as [|? ? Hd Hs']; subst. simpl in Hd.
    destruct (String.eqb k u); constructor; simpl; auto.
    apply succ_set_keys; exact Hd.
Qed.

(** A pair (source, target) carries at most one edge. *)
Lemma edge_pairs_unique G : keys_unique G -> NoDup (map fst (edges G)).
Proof.
  induction G as [|[k d] G IH]; intros [Hk Hs].
  - constructor.
  - inversion Hk as [|? ? Hnotin Hk']; subst.
    inversion Hs as [|? ? Hd Hs']; subst. simpl in Hd.
    unfold edges. simpl. rewrite map_app. apply NoDup_app.
    + rewrite map_map. simpl.
      rewrite <- (map_map fst (pair k)).
      apply Injective_map_NoDup; [|exact Hd].
      intros a b H. injection H as ->. reflexivity.
    + apply IH. split; assumption.
    + intros [u v] Hin1 Hin2. rewrite map_map in Hin1. simpl in Hin1.
      apply in_map_iff in Hin1. destruct Hin1 as [[v0 r0] [Heq _]].
      injection Heq as <- <-.
      apply in_map_iff in Hin2. destruct Hin2 as [[[u1 v1] r1] [Heq Hin]].
      simpl in Heq. injection Heq as -> ->.
      apply In_edges in Hin. destruct Hin as [d' [Hin _]].
      apply Hnotin. apply (in_map fst) in Hin. exact Hin.
Qed.

End nx_facts.

(* ================================================================== *)
(** * Facts about the builder *)
(* ================================================================== *)

Module kg_facts.
Import nx nx_spec nx_facts.

Lemma In_succ_set s v r b c :
  In (b, c) (succ_set s v r) -> In (b, c) s \/ (b = v /\ c = r).
Proof.
  induction s as [|[k r0] s IH]; simpl.
  - intros [H|[]]. injection H as <- <-. auto.
  - destruct (String.eqb_spec k v) as [->|Hne]; simpl.
    + intros [H|H]; [injection H as <- <-; auto | auto].
    + intros [H|H]; [auto | destruct (IH H); auto].
Qed.

Lemma In_edges_set_edge G u v r a b c :
  In (a, b, c) (edges (set_edge G u v r)) ->
  In (a, b, c) (edges G) \/ (a = u /\ b = v /\ c = r).
Proof.
  rewrite !In_edges. intros [d [Hin Hs]].
  induction G as [|[k d0] G IH]; simpl in *; [tauto|].
  destruct (String.eqb_spec k u) as [->|Hne]; simpl in Hin.
  - destruct Hin as [H|H].
    + injection H as <- <-. simpl in Hs. apply In_succ_set in Hs.
      destruct Hs as [Hs|[-> ->]]; [left; exists d0; auto | right; auto].
    + left. exists d. auto.
  - destruct Hin as [H|H].
    + left. exists d. auto.
    + destruct (IH H) as [[d' [H1 H2]]|H']; [left; exists d'; auto | auto].
Qed.

Lemma length_succ_set s v r : (length (succ_set s v r) <= S (length s))%nat.
Proof.
  induction s as [|[k r0] s IH]; simpl; [lia|].
  destruct (String.eqb k v); simpl; lia.
Qed.

Lemma number_of_edges_set_edge G u v r :
  (number_of_edges (set_edge G u v r) <= S (number_of_edges G))%nat.
Proof.
  unfold number_of_edges, edges.
  induction G as [|[k d] G IH]; simpl; [lia|].
  destruct (String.eqb k u); simpl; rewrite !length_app, !length_map; simpl.
  - pose proof (length_succ_set (succ d) v r). lia.
  - lia.
Qed.

(** ** The guarded edge insertion *)

Lemma connect_eq rel G u v :
  connect rel G u v =
  if (has_node G u && has_node G v)%bool then set_edge G u v rel else G.
Proof.
  unfold connect.
  destruct (has_node G u) eqn:Hu; destruct (has_node G v) eqn:Hv; simpl;
    try reflexivity.
  apply add_edge_present; assumption.
Qed.

Lemma add_relationship_connect G rel :
  add_relationship G rel =
  connect (match r_relation rel with Some r => r | None => "related_to" end)
          G (r_subject rel) (r_object rel).
Proof. reflexivity. Qed.

Lemma has_node_connect rel G u v n :
  has_node (connect rel G u v) n = has_node G n.
Proof.
  rewrite connect_eq. destruct (has_node G u && has_node G v)%bool;
    [apply has_node_set_edge | reflexivity].
Qed.

Lemma node_ids_connect rel G u v : node_ids (connect rel G u v) = node_ids G.
Proof.
  rewrite connect_eq. destruct (has_node G u && has_node G v)%bool;
    [apply node_ids_set_edge | reflexivity].
Qed.

Lemma attrs_set_edge G u v r :
  map (fun kd => (fst kd, attrs (snd kd))) (set_edge G u v r) =
  map (fun kd => (fst kd, attrs (snd kd))) G.
Proof.
  induction G as [|[k d] G IH]; simpl; [reflexivity|].
  destruct (String.eqb k u); simpl; [reflexivity | rewrite IH; reflexivity].
Qed.

Lemma keys_unique_connect rel G u v :
  keys_unique G -> keys_unique (connect rel G u v).
Proof.
  intros H. rewrite connect_eq. destruct (has_node G u && has_node G v)%bool;
    [apply keys_unique_set_edge; exact H | exact H].
Qed.

Lemma closed_connect rel G u v : closed G -> closed (connect rel G u v).
Proof.
  intros Hc a b c Hin. rewrite !has_node_connect.
  rewrite connect_eq in Hin.
  destruct (has_node G u) eqn:Hu; destruct (has_node G v) eqn:Hv;
    simpl in Hin; try (apply Hc in Hin; exact Hin).
  apply In_edges_set_edge in Hin. destruct Hin as [Hin|[-> [-> _]]].
  - apply Hc in Hin; exact Hin.
  - auto.
Qed.

Lemma number_of_edges_connect rel G u v :
  (number_of_edges (connect rel G u v) <= S (number_of_edges G))%nat.
Proof.
  rewrite connect_eq. destruct (has_node G u && has_node G v)%bool;
    [apply number_of_edges_set_edge | lia].
Qed.

Lemma edge_rel_connect rel G u v u' v' :
  edge_rel (connect rel G u v) u' v' =
  if (has_node G u && has_node G v && String.eqb u u' && String.eqb v v')%bool
  then Some rel else edge_rel G u' v'.
Proof.
  rewrite connect_eq.
  destruct (has_node G u) eqn:Hu; destruct (has_node G v) eqn:Hv; simpl;
    try reflexivity.
  rewrite edge_rel_set_edge, Hu. reflexivity.
Qed.

(** A guarded insertion whose endpoints are not both nodes does nothing. *)
Lemma connect_unknown rel G u v :
  has_node G u = false \/ has_node G v = false -> connect rel G u v = G.
Proof.
  intros [H|H]; unfold connect; rewrite H; rewrite ?andb_false_r; reflexivity.
Qed.

(** ** Loops *)

(** Whatever every guarded insertion preserves, the relationship loop
    preserves. *)
Lemma relationships_ind (P : DiGraph -> Prop) :
  (forall rel G u v, P G -> P (connect rel G u v)) ->
  forall rels G, P G -> P (fold_left add_relationship rels G).
Proof.
  intros Hstep rels. induction rels as [|r rels IH]; simpl; intros G HG.
  - exact HG.
  - apply IH. rewrite add_relationship_connect. apply Hstep; exact HG.
Qed.

Lemma connect_row_ind (P : DiGraph -> Prop) rel u :
  (forall G v, P G -> P (connect rel G u v)) ->
  forall vs G, P G -> P (fold_left (fun G v => connect rel G u v) vs G).
Proof.
  intros Hstep vs. induction vs as [|v vs IH]; simpl; intros G HG.
  - exact HG.
  - apply IH. apply Hstep; exact HG.
Qed.

Lemma connect_all_ind (P : DiGraph -> Prop) rel :
  (forall G u v, P G -> P (connect rel G u v)) ->
  forall us vs G, P G -> P (connect_all rel us vs G).
Proof.
  intros Hstep us vs. unfold connect_all.
  induction us as [|u us IH]; simpl; intros G HG.
  - exact HG.
  - apply IH. apply connect_row_ind; [intros; apply Hstep; assumption | exact HG].
Qed.

Lemma implicit_ind (P : DiGraph -> Prop) :
  (forall rel G u v, P G -> P (connect rel G u v)) ->
  forall G entities, P G -> P (_create_implicit_connections G entities).
Proof.
  intros Hstep G entities HG. unfold _create_implicit_connections.
  apply connect_all_ind; [apply Hstep|].
  apply connect_all_ind; [apply Hstep | exact HG].
Qed.

(** ** The node pass *)

Lemma add_entity_nodes_from G entities n :
  In n (node_ids (fold_left
          (fun G entity =>
             add_node G (e_text entity)
               (mkNodeAttr (Some (e_label entity)) (Some (e_text entity))))
          entities G)) <->
  In n (node_ids G) \/ In n (map e_text entities).
Proof.
  revert G. induction entities as [|e entities IH]; simpl; intros G.
  - tauto.
  - rewrite IH, node_ids_add_node.
    destruct (has_node G (e_text e)) eqn:Hn.
    + apply has_node_In in Hn. split; [tauto|].
      intros [H|[H|H]]; subst; auto.
    + rewrite in_app_iff. simpl. tauto.
Qed.

Lemma node_ids_add_entity_nodes entities n :
  In n (node_ids (add_entity_nodes entities)) <-> In n (map e_text entities).
Proof.
  unfold add_entity_nodes. rewrite add_entity_nodes_from. simpl. tauto.
Qed.

Lemma after_node_pass entities :
  keys_unique (add_entity_nodes entities) /\
  edges (add_entity_nodes entities) = [].
Proof.
  unfold add_entity_nodes.
  assert (H : keys_unique DiGraph_empty /\ edges DiGraph_empty = [])
    by (split; [split; constructor | reflexivity]).
  revert H. generalize DiGraph_empty.
  induction entities as [|e entities IH]; simpl; intros G [Hk He].
  - auto.
  - apply IH. split; [apply keys_unique_add_node; exact Hk|].
    rewrite edges_add_node. exact He.
Qed.

End kg_facts.

(* ================================================================== *)
(** * Properties of the knowledge graph *)
(* ================================================================== *)

Module kg_props.
Import nx nx_spec kg_spec nx_facts kg_facts.

Lemma inv_connect G0 rel G u v : inv G0 G -> inv G0 (connect rel G u v).
Proof.
  intros (Hk & Hc & Hn). split; [|split].
  - apply keys_unique_connect; exact Hk.
  - apply closed_connect; exact Hc.
  - rewrite node_ids_connect. exact Hn.
Qed.

Lemma inv_init entities : inv (add_entity_nodes entities) (add_entity_nodes entities).
Proof.
  destruct (after_node_pass entities) as [Hk He]. split; [exact Hk|split].
  - intros u v r H. rewrite He in H. destruct H.
  - reflexivity.
Qed.

Lemma explicit_graph_Some entities rels :
  explicit_graph entities (Some rels) =
  fold_left add_relationship rels (add_entity_nodes entities).
Proof. destruct rels; reflexivity. Qed.

Lemma inv_explicit entities relationships :
  inv (add_entity_nodes entities) (explicit_graph entities relationships).
Proof.
  destruct relationships as [rels|]; [|apply inv_init].
  rewrite explicit_graph_Some.
  apply relationships_ind; [intros; apply inv_connect; assumption | apply inv_init].
Qed.

Lemma inv_final entities relationships :
  inv (add_entity_nodes entities) (final_graph entities relationships).
Proof.
  unfold final_graph. destruct (fallback_fires entities relationships).
  - apply implicit_ind; [intros; apply inv_connect; assumption | apply inv_explicit].
  - apply inv_explicit.
Qed.

Lemma build_graph_edges entities relationships :
  gd_edges (build_graph entities relationships) =
  map to_edge (edges (final_graph entities relationships)).
Proof. reflexivity. Qed.

Lemma build_graph_node_ids entities relationships :
  map gn_id (gd_nodes (build_graph entities relationships)) =
  node_ids (final_graph entities relationships).
Proof.
  unfold build_graph. simpl. rewrite map_map. reflexivity.
Qed.

Lemma In_to_edge e G :
  In e (map to_edge (edges G)) <->
  ge_label e = ge_relation e /\
  In (ge_source e, ge_target e, ge_relation e) (edges G).
Proof.
  rewrite in_map_iff. split.
  - intros [[[u v] r] [<- Hin]]. simpl. auto.
  - intros [Hl Hin]. exists (ge_source e, ge_target e, ge_relation e).
    split; [|exact Hin]. destruct e; simpl in *. subst. reflexivity.
Qed.

Lemma has_node_by_ids G G' n :
  node_ids G = node_ids G' -> has_node G n = has_node G' n.
Proof.
  intros H. destruct (has_node G' n) eqn:E.
  - apply has_node_In. rewrite H. apply has_node_In. exact E.
  - apply has_node_false. rewrite H. apply has_node_false. exact E.
Qed.

Lemma has_node_text entities G n :
  inv (add_entity_nodes entities) G ->
  (has_node G n = true <-> In n (map e_text entities)).
Proof.
  intros (_ & _ & Hn). rewrite has_node_In, Hn.
  apply node_ids_add_entity_nodes.
Qed.

(** A relationship with an unknown endpoint leaves the explicit pass as it
    would be without it. *)
Lemma explicit_graph_drop entities R1 r R2 :
  ~ In (r_subject r) (map e_text entities) \/
  ~ In (r_object r) (map e_text entities) ->
  explicit_graph entities (Some (R1 ++ r :: R2)) =
  explicit_graph entities (Some (R1 ++ R2)).
Proof.
  intros Hunk. rewrite !explicit_graph_Some, !fold_left_app. simpl.
  f_equal. rewrite add_relationship_connect. apply connect_unknown.
  assert (Hinv : inv (add_entity_nodes entities)
                     (fold_left add_relationship R1 (add_entity_nodes entities))).
  { rewrite <- explicit_graph_Some. apply inv_explicit. }
  destruct Hunk as [H|H]; [left|right];
    (destruct (has_node _ _) eqn:E; [|reflexivity]);
    apply (has_node_text _ _ _ Hinv) in E; contradiction.
Qed.

Lemma fallback_fires_drop entities R1 r R2 :
  ~ In (r_subject r) (map e_text entities) \/
  ~ In (r_object r) (map e_text entities) ->
  fallback_fires entities (Some (R1 ++ r :: R2)) =
  fallback_fires entities (Some (R1 ++ R2)).
Proof.
  intros Hunk. unfold fallback_fires.
  rewrite (explicit_graph_drop _ _ _ _ Hunk).
  destruct (R1 ++ R2) as [|r' rest] eqn:E.
  - rewrite explicit_graph_Some. simpl.
    destruct (after_node_pass entities) as [_ He].
    unfold number_of_edges. rewrite He. simpl.
    destruct (R1 ++ r :: R2); reflexivity.
  - destruct R1; simpl; reflexivity.
Qed.

(** [build_graph] is determined by the entities and the final graph. *)
Lemma build_graph_final entities R R' :
  final_graph entities R = final_graph entities R' ->
  build_graph entities R = build_graph entities R'.
Proof. intros H. unfold build_graph. rewrite H. reflexivity. Qed.

(** ** Edges after the implicit pass *)

Lemma existsb_pointwise {A} (f g : A -> bool) l :
  (forall x, f x = g x) -> existsb f l = existsb g l.
Proof.
  intros H. induction l as [|a l IH]; simpl; [reflexivity|].
  rewrite H, IH. reflexivity.
Qed.

Lemma among_connect rel G a b l u :
  among (connect rel G a b) l u = among G l u.
Proof.
  unfold among. apply existsb_pointwise. intros x.
  rewrite has_node_connect. reflexivity.
Qed.

Lemma among_row rel a vs G l u :
  among (fold_left (fun G v => connect rel G a v) vs G) l u = among G l u.
Proof.
  revert G. induction vs as [|v vs IH]; simpl; intros G; [reflexivity|].
  rewrite IH. apply among_connect.
Qed.

Lemma has_node_row rel a vs G n :
  has_node (fold_left (fun G v => connect rel G a v) vs G) n = has_node G n.
Proof.
  revert G. induction vs as [|v vs IH]; simpl; intros G; [reflexivity|].
  rewrite IH. apply has_node_connect.
Qed.

Lemma edge_rel_row rel a vs G u v :
  edge_rel (fold_left (fun G v => connect rel G a v) vs G) u v =
  if (has_node G a && String.eqb a u && among G vs v)%bool
  then Some rel else edge_rel G u v.
Proof.
  revert G. induction vs as [|b vs IH]; simpl; intros G.
  - rewrite andb_false_r. reflexivity.
  - rewrite IH, has_node_connect, among_connect, edge_rel_connect.
    unfold among.
    destruct (has_node G a), (String.eqb a u), (has_node G b),
      (String.eqb b v), (existsb _ vs); reflexivity.
Qed.

Lemma edge_rel_connect_all rel us vs G u v :
  edge_rel (connect_all rel us vs G) u v =
  if (among G us u && among G vs v)%bool then Some rel else edge_rel G u v.
Proof.
  unfold connect_all. revert G.
  induction us as [|a us IH]; simpl; intros G; [reflexivity|].
  rewrite IH, edge_rel_row.
  assert (Hus : among (fold_left (fun G v => connect rel G a v) vs G) us u
                = among G us u) by apply among_row.
  assert (Hvs : among (fold_left (fun G v => connect rel G a v) vs G) vs v
                = among G vs v) by apply among_row.
  rewrite Hus, Hvs.
  destruct (has_node G a), (String.eqb a u), (among G us u), (among G vs v);
    reflexivity.
Qed.

Lemma among_In G l u :
  (forall x, In x l -> has_node G x = true) ->
  (among G l u = true <-> In u l).
Proof.
  intros Hall. unfold among. rewrite existsb_exists. split.
  - intros [x [Hin Hx]]. apply andb_true_iff in Hx. destruct Hx as [_ Hx].
    apply String.eqb_eq in Hx. subst. exact Hin.
  - intros Hin. exists u. split; [exact Hin|].
    rewrite (Hall _ Hin), String.eqb_refl. reflexivity.
Qed.

Lemma In_slice_to {A} n (l : list A) x : In x (slice_to n l) -> In x l.
Proof.
  unfold slice_to. revert l. induction n as [|n IH]; intros [|a l]; simpl; try tauto.
  intros [H|H]; auto.
Qed.

Lemma In_texts_with_label lbl entities x :
  In x (texts_with_label lbl entities) -> In x (map e_text entities).
Proof.
  unfold texts_with_label. rewrite !in_map_iff.
  intros [e [<- Hin]]. apply filter_In in Hin. exists e. tauto.
Qed.

Lemma number_of_edges_connect_all rel us vs G :
  (number_of_edges (connect_all rel us vs G)
   <= number_of_edges G + length us * length vs)%nat.
Proof.
  unfold connect_all. revert G.
  induction us as [|a us IH]; simpl; intros G; [lia|].
  specialize (IH (fold_left (fun G v => connect rel G a v) vs G)).
  assert (Hrow : forall vs G,
             (number_of_edges (fold_left (fun G v => connect rel G a v) vs G)
              <= number_of_edges G + length vs)%nat).
  { clear. intros vs. induction vs as [|b vs IH]; simpl; intros G; [lia|].
    specialize (IH (connect rel G a b)).
    pose proof (number_of_edges_connect rel G a b). lia. }
  specialize (Hrow vs G). lia.
Qed.

Lemma length_slice_to {A} n (l : list A) : (length (slice_to n l) <= n)%nat.
Proof. apply firstn_le_length. Qed.

(** When the fall-back fires the explicit pass has left no edge. *)
Lemma fallback_no_edges entities relationships :
  fallback_fires entities relationships = true ->
  edges (explicit_graph entities relationships) = [].
Proof.
  unfold fallback_fires. intros H. apply orb_true_iff in H. destruct H as [H|H].
  - destruct (after_node_pass entities) as [_ He].
    destruct relationships as [[|r rs]|]; simpl in H; try discriminate; exact He.
  - apply Nat.eqb_eq in H. unfold number_of_edges in H.
    apply length_zero_iff_nil. exact H.
Qed.

Lemma no_edges_edge_rel G u v : edges G = [] -> edge_rel G u v = None.
Proof.
  intros He. destruct (edge_rel G u v) eqn:E; [|reflexivity].
  apply edge_rel_In in E. rewrite He in E. destruct E.
Qed.

End kg_props.

Section GraphClaims.
Import nx_spec kg_spec nx_facts kg_facts kg_props.

(** C2 -- Graph edge validity.  The nodes of the graph returned by
    [build_graph] are keyed by exactly the entity texts; every edge of the
    returned graph has its source and its target among these nodes; a
    relationship whose subject or object is not an entity text creates no
    edge (the result is the one obtained without it); and the implicit pass
    adds no node and only edges between nodes that exist. *)
Theorem graph_edge_validity
  (entities : list Entity) (relationships : option (list Relationship)) :
  let graph := build_graph entities relationships in
  (forall n, In n (map gn_id (gd_nodes graph)) <-> In n (map e_text entities)) /\
  (forall e, In e (gd_edges graph) ->
     In (ge_source e) (map gn_id (gd_nodes graph)) /\
     In (ge_target e) (map gn_id (gd_nodes graph))) /\
  (forall R1 r R2,
     relationships = Some (R1 ++ r :: R2) ->
     ~ In (r_subject r) (map e_text entities) \/
     ~ In (r_object r) (map e_text entities) ->
     graph = build_graph entities (Some (R1 ++ R2))) /\
  (forall G,
     closed G ->
     closed (_create_implicit_connections G entities) /\
     node_ids (_create_implicit_connections G entities) = node_ids G).
Proof.
  intros graph. subst graph.
  pose proof (inv_final entities relationships) as Hinv.
  split; [|split; [|split]].
  - intros n. rewrite build_graph_node_ids.
    rewrite <- has_node_In. apply (has_node_text _ _ _ Hinv).
  - intros e He. rewrite build_graph_node_ids.
    rewrite build_graph_edges in He. apply In_to_edge in He.
    destruct He as [_ He]. destruct Hinv as (_ & Hc & _).
    apply Hc in He. rewrite <- !has_node_In. exact He.
  - intros R1 r R2 -> Hunk. apply build_graph_final. unfold final_graph.
    rewrite (fallback_fires_drop _ _ _ _ Hunk).
    rewrite (explicit_graph_drop _ _ _ _ Hunk). reflexivity.
  - intros G Hc.
    apply (implicit_ind (fun G' => closed G' /\ node_ids G' = node_ids G)).
    + intros rel G' u v [Hc' Hn]. split; [apply closed_connect; exact Hc'|].
      rewrite node_ids_connect. exact Hn.
    + auto.
Qed.

Lemma graph_edge_validity_witness :
  build_graph [samples.acme; samples.john]
    (Some ([samples.works_at] ++ samples.dangling :: [])) =
  build_graph [samples.acme; samples.john] (Some ([samples.works_at] ++ [])).
Proof.
  apply (proj1 (proj2 (proj2
           (graph_edge_validity [samples.acme; samples.john]
              (Some ([samples.works_at] ++ samples.dangling :: [])))))
           [samples.works_at] samples.dangling []).
  - reflexivity.
  - right. simpl. intros [H|[H|[]]]; discriminate H.
Defined.

(** C3 (as stated) fails: with "Ford" tagged PERSON and ORG and "Vatican"
    tagged ORG and GPE, "Ford" is among the first five persons and "Vatican"
    among the first three organisations, yet the returned graph has no edge
    from "Ford" to "Vatican" with relation 'associated_with': the second loop
    wrote 'located_in' on that same pair. *)
Lemma implicit_edge_fallback_overwritten :
  In "Ford" (slice_to 5 (texts_with_label "PERSON" samples.twice_tagged)) /\
  In "Vatican" (slice_to 3 (texts_with_label "ORG" samples.twice_tagged)) /\
  ~ In (mkGraphEdge "Ford" "Vatican" "associated_with" "associated_with")
       (gd_edges (build_graph samples.twice_tagged None)) /\
  In (mkGraphEdge "Ford" "Vatican" "located_in" "located_in")
     (gd_edges (build_graph samples.twice_tagged None)).
Proof.
  split; [vm_compute; auto|]. split; [vm_compute; auto|]. split.
  - vm_compute. intros H.
    repeat match goal with
           | H : _ \/ _ |- _ => destruct H as [H|H]
           | H : _ = _ |- _ => discriminate H
           | H : False |- _ => destruct H
           end.
  - vm_compute. auto.
Qed.

(** C3 (amended) -- Implicit-edge fallback.  If the relationship list is
    absent or empty, or the explicit pass produced no edge, the edges of the
    returned graph are exactly: one edge labelled 'located_in' from each of
    the first 5 ORG texts to each of the first 3 GPE texts, and one edge
    labelled 'associated_with' from each of the first 5 PERSON texts to each
    of the first 3 ORG texts for the pairs that are not also such an ORG-GPE
    pair; there are at most 30 of them.  If the explicit pass produced an
    edge from a non-empty relationship list, the edges are those of the
    explicit pass. *)
Theorem implicit_edge_fallback
  (entities : list Entity) (relationships : option (list Relationship)) :
  let persons := texts_with_label "PERSON" entities in
  let orgs := texts_with_label "ORG" entities in
  let locations := texts_with_label "GPE" entities in
  let graph := build_graph entities relationships in
  (truthy_list relationships = false \/
   nx.number_of_edges (explicit_graph entities relationships) = 0%nat ->
   (forall e,
      In e (gd_edges graph) <->
      ge_label e = ge_relation e /\
      ((ge_relation e = "located_in" /\
        In (ge_source e) (slice_to 5 orgs) /\
        In (ge_target e) (slice_to 3 locations)) \/
       (ge_relation e = "associated_with" /\
        In (ge_source e) (slice_to 5 persons) /\
        In (ge_target e) (slice_to 3 orgs) /\
        ~ (In (ge_source e) (slice_to 5 orgs) /\
           In (ge_target e) (slice_to 3 locations))))) /\
   NoDup (map (fun e => (ge_source e, ge_target e)) (gd_edges graph)) /\
   (length (gd_edges graph) <= 30)%nat) /\
  (truthy_list relationships = true ->
   nx.number_of_edges (explicit_graph entities relationships) <> 0%nat ->
   gd_edges graph = map to_edge (nx.edges (explicit_graph entities relationships))).
Proof.
  intros persons orgs locations graph. subst graph.
  rewrite build_graph_edges. split.
  - intros Hfire.
    assert (Hf : fallback_fires entities relationships = true).
    { unfold fallback_fires. apply orb_true_iff.
      destruct Hfire as [H|H]; [left; rewrite H; reflexivity|].
      right. apply Nat.eqb_eq. exact H. }
    pose proof (inv_final entities relationships) as (Hk & _ & _).
    pose proof (inv_explicit entities relationships) as Hinv1.
    pose proof (fallback_no_edges _ _ Hf) as Hnone.
    unfold final_graph in *. rewrite Hf in *.
    unfold _create_implicit_connections in *.
    fold persons orgs locations in Hk |- *.
    set (G1 := explicit_graph entities relationships) in *.
    set (G2 := connect_all "associated_with" (slice_to 5 persons)
                 (slice_to 3 orgs) G1) in *.
    assert (Hnodes : forall lbl k x,
               In x (slice_to k (texts_with_label lbl entities)) ->
               nx.has_node G1 x = true).
    { intros lbl k x Hx. apply (has_node_text _ _ _ Hinv1).
      apply In_texts_with_label with lbl. apply In_slice_to with k. exact Hx. }
    assert (Hnodes2 : forall lbl k x,
               In x (slice_to k (texts_with_label lbl entities)) ->
               nx.has_node G2 x = true).
    { intros lbl k x Hx. unfold G2.
      apply (connect_all_ind (fun G => nx.has_node G x = true)).
      - intros G u v HG. rewrite has_node_connect. exact HG.
      - apply Hnodes with lbl k. exact Hx. }
    split.
    + intros e. rewrite In_to_edge.
      assert (Hrel : forall u v r,
                 In (u, v, r) (nx.edges (connect_all "located_in" (slice_to 5 orgs)
                                        (slice_to 3 locations) G2)) <->
                 (r = "located_in" /\ In u (slice_to 5 orgs) /\
                  In v (slice_to 3 locations)) \/
                 (r = "associated_with" /\ In u (slice_to 5 persons) /\
                  In v (slice_to 3 orgs) /\
                  ~ (In u (slice_to 5 orgs) /\ In v (slice_to 3 locations)))).
      { intros u v r.
        assert (Hiff : In (u, v, r)
                         (nx.edges (connect_all "located_in" (slice_to 5 orgs)
                                   (slice_to 3 locations) G2)) <->
                       edge_rel (connect_all "located_in" (slice_to 5 orgs)
                                   (slice_to 3 locations) G2) u v = Some r).
        { split; [apply In_edge_rel; exact Hk | apply edge_rel_In]. }
        rewrite Hiff. rewrite edge_rel_connect_all. unfold G2 at 3.
        rewrite edge_rel_connect_all, (no_edges_edge_rel G1 u v Hnone).
        pose proof (among_In G2 (slice_to 5 orgs) u
                      (Hnodes2 "ORG" 5%nat)) as Ho.
        pose proof (among_In G2 (slice_to 3 locations) v
                      (Hnodes2 "GPE" 3%nat)) as Hl.
        pose proof (among_In G1 (slice_to 5 persons) u
                      (Hnodes "PERSON" 5%nat)) as Hp.
        pose proof (among_In G1 (slice_to 3 orgs) v
                      (Hnodes "ORG" 3%nat)) as Ho3.
        rewrite <- Ho, <- Hl, <- Hp, <- Ho3. clear Ho Hl Hp Ho3.
        destruct (among G2 (slice_to 5 orgs) u);
          destruct (among G2 (slice_to 3 locations) v);
          destruct (among G1 (slice_to 5 persons) u);
          destruct (among G1 (slice_to 3 orgs) v); simpl;
          (split;
           [ intros H; try discriminate H; injection H as <-;
             intuition congruence
           | intros [(-> & Ha & Hb) | (-> & Ha & Hb & Hc)];
             try discriminate; try reflexivity; exfalso; intuition congruence ]). }
      rewrite Hrel. reflexivity.
    + split.
      { rewrite map_map.
        rewrite (map_ext _ fst) by (intros [[u v] r]; reflexivity).
        apply edge_pairs_unique. exact Hk. }
      rewrite length_map.
      pose proof (number_of_edges_connect_all "located_in" (slice_to 5 orgs)
                    (slice_to 3 locations) G2) as H2.
      pose proof (number_of_edges_connect_all "associated_with"
                    (slice_to 5 persons) (slice_to 3 orgs) G1) as H1.
      fold G2 in H1. unfold nx.number_of_edges in *.
      assert (H0 : length (nx.edges G1) = 0%nat) by (rewrite Hnone; reflexivity).
      pose proof (Nat.mul_le_mono _ _ _ _ (length_slice_to 5 orgs)
                    (length_slice_to 3 locations)) as Hb2.
      pose proof (Nat.mul_le_mono _ _ _ _ (length_slice_to 5 persons)
                    (length_slice_to 3 orgs)) as Hb1.
      lia.
  - intros Ht Hne. unfold final_graph, fallback_fires. rewrite Ht. simpl.
    apply Nat.eqb_neq in Hne. rewrite Hne. reflexivity.
Qed.

Lemma implicit_edge_fallback_witness :
  (length (gd_edges (build_graph [samples.acme; samples.john] None)) <= 30)%nat /\
  gd_edges (build_graph [samples.acme; samples.john] (Some [samples.works_at])) =
  map to_edge
    (nx.edges (explicit_graph [samples.acme; samples.john] (Some [samples.works_at]))).
Proof.
  split.
  - apply (proj1 (implicit_edge_fallback [samples.acme; samples.john] None)).
    left. reflexivity.
  - apply (proj2 (implicit_edge_fallback [samples.acme; samples.john]
                    (Some [samples.works_at]))).
    + reflexivity.
    + vm_compute. discriminate.
Defined.

(** C7 -- Density formula.  The 'density' statistic of the graph returned by
    [build_graph] is 0 when the graph has at most one node, and
    [e / (n * (n - 1))] when it has [n >= 2] nodes and [e] edges. *)
Theorem density_formula
  (entities : list Entity) (relationships : option (list Relationship)) :
  let graph := build_graph entities relationships in
  let n := length (gd_nodes graph) in
  let e := length (gd_edges graph) in
  ((n <= 1)%nat -> density (gd_statistics graph) == 0) /\
  ((2 <= n)%nat ->
   density (gd_statistics graph) ==
   inject_Z (Z.of_nat e) / inject_Z (Z.of_nat n * (Z.of_nat n - 1))).
Proof.
  intros graph n e. subst graph n e.
  unfold build_graph. simpl. rewrite !length_map.
  unfold nx.density, nx.number_of_nodes, nx.number_of_edges.
  set (m := length (nx.edges (final_graph entities relationships))).
  set (n := length (final_graph entities relationships)).
  split; intros Hn.
  - apply Nat.leb_le in Hn. rewrite Hn, orb_true_r. reflexivity.
  - destruct (Nat.eqb_spec m 0) as [->|Hm]; simpl.
    + unfold Qdiv. rewrite Qmult_0_l. reflexivity.
    + assert (Hle : Nat.leb n 1 = false) by (apply Nat.leb_gt; lia).
      rewrite Hle. reflexivity.
Qed.

Lemma density_formula_witness :
  density (gd_statistics (build_graph [samples.acme] None)) == 0 /\
  density (gd_statistics (build_graph [samples.acme; samples.john] None)) ==
  inject_Z 1 / inject_Z (2 * (2 - 1)).
Proof.
  split.
  - apply (proj1 (density_formula [samples.acme] None)). simpl. lia.
  - apply (proj2 (density_formula [samples.acme; samples.john] None)).
    simpl. lia.
Defined.

End GraphClaims.

(* ================================================================== *)
(** * Properties of the timeline *)
(* ================================================================== *)

Module timeline_facts.
Import timeline_spec.

Section Sorting.
Context {A : Type} (key : A -> Z).

Let le_key (a b : A) : Prop := (key a <= key b)%Z.

Lemma insert_by_perm x l : Permutation (x :: l) (insert_by key x l).
Proof.
  induction l as [|y l IH]; simpl; [apply Permutation_refl|].
  destruct (key x <=? key y)%Z; [apply Permutation_refl|].
  eapply perm_trans; [apply perm_swap|]. apply perm_skip. exact IH.
Qed.

Lemma sort_by_perm l : Permutation l (sort_by key l).
Proof.
  induction l as [|x l IH]; simpl; [apply perm_nil|].
  eapply perm_trans; [|apply insert_by_perm]. apply perm_skip. exact IH.
Qed.

Lemma insert_by_sorted x l :
  StronglySorted le_key l -> StronglySorted le_key (insert_by key x l).
Proof.
  induction l as [|y l IH]; simpl; intros Hs.
  - constructor; constructor.
  - inversion Hs as [|? ? Hs' Hall]; subst.
    destruct (Z.leb_spec (key x) (key y)) as [Hle|Hgt].
    + constructor; [exact Hs|]. constructor; [exact Hle|].
      eapply Forall_impl; [|exact Hall]. unfold le_key. intros; lia.
    + constructor; [apply IH; exact Hs'|].
      apply (Permutation_Forall (insert_by_perm x l)).
      constructor; [unfold le_key; lia | exact Hall].
Qed.

Lemma sort_by_sorted l : StronglySorted le_key (sort_by key l).
Proof.
  induction l as [|x l IH]; simpl; [constructor|].
  apply insert_by_sorted. exact IH.
Qed.

End Sorting.

Lemma firstn_app_short {A} n (l1 l2 : list A) :
  (n <= length l1)%nat -> firstn n (l1 ++ l2) = firstn n l1.
Proof.
  intros H. rewrite firstn_app.
  replace (n - length l1)%nat with 0%nat by lia.
  simpl. apply app_nil_r.
Qed.

Lemma nearby_iff date_start e :
  nearby date_start e = true <-> (Z.abs (e_start e - date_start) < 100)%Z.
Proof. unfold nearby. apply Z.ltb_lt. Qed.

Lemma related_split entities_before e entities_after d :
  related_entities (timeline_entry (entities_before ++ e :: entities_after) d) =
  slice_to 5
    (map e_text (filter (nearby (d_start d)) entities_before) ++
     (if nearby (d_start d) e then [e_text e] else []) ++
     map e_text (filter (nearby (d_start d)) entities_after)).
Proof.
  unfold timeline_entry, slice_to. cbn [related_entities].
  rewrite filter_app. cbn [filter].
  destruct (nearby (d_start d) e); cbn [app].
  - replace (map e_text (filter (nearby (d_start d)) entities_before) ++
             e_text e :: map e_text (filter (nearby (d_start d)) entities_after))
      with (map e_text (filter (nearby (d_start d)) entities_before ++
                        e :: filter (nearby (d_start d)) entities_after))
      by (rewrite map_app; reflexivity).
    symmetry. apply firstn_map.
  - rewrite <- map_app. symmetry. apply firstn_map.
Qed.

End timeline_facts.

Section TimelineClaims.
Import timeline_spec timeline_facts.

(** C6 -- Timeline ordering.  The list returned by [_build_timeline] is
    sorted in non-decreasing 'position'; it holds the entries of the dates,
    one per date item. *)
Theorem timeline_ordering (dates : list DateItem) (entities : list Entity) :
  StronglySorted by_position (_build_timeline dates entities) /\
  Permutation (map (timeline_entry entities) dates)
              (_build_timeline dates entities).
Proof.
  unfold _build_timeline. split.
  - apply (sort_by_sorted position).
  - apply sort_by_perm.
Qed.

(** C5 -- Timeline proximity.  Every date item has its entry in the
    timeline, at the date's start offset.  In that entry, an entity [e] of
    the entity list contributes its text to 'related_entities' iff
    [abs(e.start - d.start) < 100] and fewer than 5 entities before it in the
    list match: then its text stands in the slot given by the number of
    matching entities before it; otherwise the related entities are those
    computed without it.  In particular an entity at distance exactly 100 is
    not attached. *)
Theorem timeline_proximity (dates : list DateItem) (entities : list Entity) :
  (forall d, In d dates ->
     In (timeline_entry entities d) (_build_timeline dates entities) /\
     position (timeline_entry entities d) = d_start d) /\
  (forall d entities_before e entities_after,
     entities = entities_before ++ e :: entities_after ->
     let related := related_entities (timeline_entry entities d) in
     let without :=
       related_entities (timeline_entry (entities_before ++ entities_after) d) in
     ((Z.abs (e_start e - d_start d) < 100)%Z /\
      (near_before d entities_before < 5)%nat ->
      nth_error related (near_before d entities_before) = Some (e_text e)) /\
     (~ ((Z.abs (e_start e - d_start d) < 100)%Z /\
         (near_before d entities_before < 5)%nat) ->
      related = without) /\
     (Z.abs (e_start e - d_start d) = 100%Z -> related = without)).
Proof.
  split.
  - intros d Hd. split; [|reflexivity].
    apply (Permutation_in _ (sort_by_perm position (map (timeline_entry entities) dates))).
    apply in_map. exact Hd.
  - intros d pre e post -> related without. subst related without.
    assert (Hwithout :
              related_entities (timeline_entry (pre ++ post) d) =
              slice_to 5 (map e_text (filter (nearby (d_start d)) pre) ++
                          map e_text (filter (nearby (d_start d)) post))).
    { unfold timeline_entry, slice_to. cbn [related_entities].
      rewrite filter_app, <- map_app. symmetry. apply firstn_map. }
    assert (Hfar : ~ ((Z.abs (e_start e - d_start d) < 100)%Z /\
                      (near_before d pre < 5)%nat) ->
                   related_entities (timeline_entry (pre ++ e :: post) d) =
                   related_entities (timeline_entry (pre ++ post) d)).
    { intros Hnot. rewrite related_split, Hwithout.
      destruct (nearby (d_start d) e) eqn:Hnear; [|reflexivity].
      apply nearby_iff in Hnear.
      assert (Hk : (5 <= near_before d pre)%nat) by lia.
      unfold near_before in Hk. unfold slice_to.
      rewrite !firstn_app_short by (rewrite length_map; exact Hk).
      reflexivity. }
    split; [|split].
    + intros [Hnear Hk]. rewrite related_split.
      apply nearby_iff in Hnear. rewrite Hnear. unfold slice_to, near_before in *.
      rewrite nth_error_firstn.
      assert (Hlt : (length (filter (nearby (d_start d)) pre) <? 5)%nat = true)
        by (apply Nat.ltb_lt; exact Hk).
      rewrite Hlt.
      rewrite nth_error_app2 by (rewrite length_map; lia).
      rewrite length_map, Nat.sub_diag. reflexivity.
    + exact Hfar.
    + intros H100. apply Hfar. intros [Hlt _]. lia.
Qed.

Lemma timeline_proximity_witness :
  nth_error
    (related_entities
       (timeline_entry [samples_timeline.at_700; samples_timeline.at_550]
          samples_timeline.new_year))
    (near_before samples_timeline.new_year [samples_timeline.at_700])
  = Some "Acme Corp" /\
  related_entities
    (timeline_entry [samples_timeline.at_550; samples_timeline.at_600]
       samples_timeline.new_year) =
  related_entities
    (timeline_entry ([samples_timeline.at_550] ++ [])
       samples_timeline.new_year).
Proof.
  split.
  - apply (proj1 (proj2 (timeline_proximity [samples_timeline.new_year]
                           [samples_timeline.at_700; samples_timeline.at_550])
                    samples_timeline.new_year [samples_timeline.at_700]
                    samples_timeline.at_550 [] eq_refl)).
    split; [reflexivity | vm_compute; lia].
  - apply (proj2 (proj2 (proj2 (timeline_proximity [samples_timeline.new_year]
                           [samples_timeline.at_550; samples_timeline.at_600])
                    samples_timeline.new_year [samples_timeline.at_550]
                    samples_timeline.at_600 [] eq_refl))).
    reflexivity.
Defined.

End TimelineClaims.

(* ================================================================== *)
(** * Properties of the text statistics *)
(* ================================================================== *)

Module statistics_facts.

Lemma length_split_on sep s :
  length (split_on sep s) = S (length (filter (N.eqb sep) s)).
Proof.
  induction s as [|c s IH]; simpl; [reflexivity|].
  rewrite (N.eqb_sym sep c).
  destruct (c =? sep)%N; simpl; [rewrite IH; reflexivity|].
  destruct (split_on sep s) as [|piece pieces]; simpl in *; [discriminate|].
  exact IH.
Qed.

Lemma split_blank s : forallb isspace s = true -> split s = [].
Proof.
  unfold split. induction s as [|c s IH]; simpl; [reflexivity|].
  intros H. apply andb_true_iff in H. destruct H as [Hc Hs].
  rewrite Hc. simpl. apply IH. exact Hs.
Qed.

Lemma truediv_ok a b : b <> 0%nat ->
  truediv a b = Ok (inject_Z (Z.of_nat a) / inject_Z (Z.of_nat b)).
Proof.
  intros H. unfold truediv. apply Nat.eqb_neq in H. rewrite H. reflexivity.
Qed.

End statistics_facts.

Section StatisticsClaims.
Import statistics_facts.

(** C10 -- Text-statistics totality.  For every text
    [_calculate_text_statistics] returns (no division raises); splitting on
    '.' gives at least one piece, so [total_sentences >= 1], with
    [total_sentences = 1] for the empty text, and [avg_sentence_length] is
    the quotient of the two counts; when the text has no words (it is empty
    or all whitespace), [total_words], [avg_word_length] and
    [vocabulary_richness] are 0. *)
Theorem text_statistics_total (t : text) :
  exists st,
    _calculate_text_statistics t = Ok st /\
    total_sentences st = length (split_on full_stop t) /\
    (1 <= total_sentences st)%nat /\
    avg_sentence_length st =
      (inject_Z (Z.of_nat (total_words st)) /
       inject_Z (Z.of_nat (total_sentences st)))%Q /\
    (t = [] -> total_sentences st = 1%nat) /\
    (forallb isspace t = true ->
     total_words st = 0%nat /\ avg_word_length st = 0%Q /\
     vocabulary_richness st = 0%Q).
Proof.
  unfold _calculate_text_statistics.
  pose proof (length_split_on full_stop t) as Hlen.
  destruct (split_on full_stop t) as [|piece pieces] eqn:Hs;
    [discriminate Hlen|].
  cbn [nonempty].
  rewrite (truediv_ok (length (split t)) (length (piece :: pieces)))
    by (simpl; lia).
  destruct (split t) as [|word words] eqn:Hw.
  - cbn [nonempty result_bind]. eexists. split; [reflexivity|].
    cbn [total_sentences total_words avg_sentence_length avg_word_length
         vocabulary_richness].
    repeat split; try (simpl; lia).
    intros ->. simpl in Hs. injection Hs as <- <-. reflexivity.
  - cbn [nonempty].
    rewrite !truediv_ok by (simpl; lia).
    cbn [result_bind]. eexists. split; [reflexivity|].
    cbn [total_sentences total_words avg_sentence_length avg_word_length
         vocabulary_richness].
    split; [reflexivity|]. split; [simpl; lia|]. split; [reflexivity|].
    split.
    + intros ->. simpl in Hs. injection Hs as <- <-. reflexivity.
    + intros Hblank. apply split_blank in Hblank. congruence.
Qed.

Lemma text_statistics_total_witness :
  exists st,
    _calculate_text_statistics samples_timeline.blanks = Ok st /\
    total_words st = 0%nat /\ avg_word_length st = 0%Q /\
    vocabulary_richness st = 0%Q.
Proof.
  destruct (text_statistics_total samples_timeline.blanks)
    as (st & Hst & _ & _ & _ & _ & Hblank).
  exists st. split; [exact Hst|]. apply Hblank. reflexivity.
Defined.

End StatisticsClaims.

(* ================================================================== *)
(** * Properties of the engine *)
(* ================================================================== *)

Module engine_facts.
Import engine_spec.

Section Keeps.
Context {X : Type} (f : World -> X).

Lemma keeps_ret {A} (a : A) : keeps f (ret a).
Proof. intros w. reflexivity. Qed.

Lemma keeps_raise {A} (e : exn) : keeps f (@raise A e).
Proof. intros w. reflexivity. Qed.

Lemma keeps_bind {A B} (m : M A) (k : A -> M B) :
  keeps f m -> (forall a, keeps f (k a)) -> keeps f (bind m k).
Proof.
  intros Hm Hk w. unfold bind. specialize (Hm w).
  destruct (m w) as [[a|e] w']; simpl in *.
  - rewrite Hk. exact Hm.
  - exact Hm.
Qed.

Lemma keeps_try_except {A} (m : M A) (h : exn -> M A) :
  keeps f m -> (forall e, keeps f (h e)) -> keeps f (try_except m h).
Proof.
  intros Hm Hh w. unfold try_except. specialize (Hm w).
  destruct (m w) as [[a|e] w']; simpl in *.
  - exact Hm.
  - rewrite Hh. exact Hm.
Qed.

Lemma keeps_for_each {A B} (g : A -> M B) l :
  (forall a, keeps f (g a)) -> keeps f (for_each g l).
Proof.
  intros Hg. induction l as [|a l IH]; simpl.
  - apply keeps_ret.
  - apply keeps_bind; [apply Hg|]. intros b.
    apply keeps_bind; [exact IH|]. intros bs. apply keeps_ret.
Qed.

(** What [f] does not depend on. *)
Hypothesis f_clock : forall c w, f (with_clock c w) = f w.
Hypothesis f_trace : forall tr w, f (with_trace tr w) = f w.

Lemma keeps_utcnow : keeps f utcnow.
Proof.
  intros w. unfold utcnow. destruct (clock w); simpl; [reflexivity | apply f_clock].
Qed.

Lemma keeps_invoke {A} s (r : Result A) : keeps f (invoke s r).
Proof. intros w. unfold invoke. simpl. apply f_trace. Qed.

Lemma keeps_analysis_stages models id t : keeps f (analysis_stages models id t).
Proof.
  unfold analysis_stages.
  repeat (apply keeps_bind;
          [ first [apply keeps_utcnow | apply keeps_invoke] | intros ]).
  apply keeps_bind.
  - destruct (truthy_str _); [|apply keeps_ret].
    destruct (category _); [|apply keeps_ret].
    apply keeps_bind; [apply keeps_invoke | intros; apply keeps_ret].
  - intros. apply keeps_bind; [apply keeps_invoke | intros; apply keeps_ret].
Qed.

End Keeps.

Section KeepsDb.
Context {X : Type} (f : World -> X).
Hypothesis f_clock : forall c w, f (with_clock c w) = f w.
Hypothesis f_faults : forall fs w, f (with_db_faults fs w) = f w.
Hypothesis f_documents : forall ds w, f (with_db_documents ds w) = f w.
Hypothesis f_entities : forall es w, f (with_db_entities es w) = f w.
Hypothesis f_analysis : forall rs w, f (with_db_analysis rs w) = f w.

Lemma keeps_operation : keeps f mongodb.operation.
Proof.
  intros w. unfold mongodb.operation.
  destruct (db_faults w) as [|[e|] fs]; simpl; [reflexivity | |]; apply f_faults.
Qed.

Lemma keeps_save id results :
  keeps f (_save_analysis_results id results).
Proof.
  unfold _save_analysis_results.
  apply keeps_try_except; [|intros; apply keeps_ret].
  apply keeps_bind.
  - destruct (entities results) as [ner|]; [|apply keeps_ret].
    destruct (ner_entities ner) as [[|e es]|]; try apply keeps_ret.
    apply keeps_bind.
    + apply keeps_for_each. intros a. unfold entity_row.
      apply keeps_bind; [apply keeps_utcnow; exact f_clock|].
      intros. apply keeps_ret.
    + intros rows. unfold mongodb.insert_entities.
      destruct (nonempty rows); [|apply keeps_ret].
      apply keeps_bind; [apply keeps_operation|].
      intros _ w. simpl. apply f_entities.
  - intros _. apply keeps_bind; [apply keeps_utcnow; exact f_clock|].
    intros now. apply keeps_bind.
    + unfold mongodb.insert_analysis.
      apply keeps_bind; [apply keeps_operation|].
      intros _ w. simpl. apply f_analysis.
    + intros _. apply keeps_bind; [apply keeps_utcnow; exact f_clock|].
      intros now'. unfold mongodb.update_document.
      apply keeps_bind; [apply keeps_operation|].
      intros _ w. simpl. apply f_documents.
Qed.

End KeepsDb.

(** ** The cache *)

Lemma lookup_store {V} key (v : V) l :
  redis_client.lookup key (redis_client.store key v l) = Some v.
Proof.
  induction l as [|[k v0] l IH]; simpl.
  - rewrite String.eqb_refl. reflexivity.
  - destruct (String.eqb_spec k key) as [->|Hne]; simpl.
    + rewrite String.eqb_refl. reflexivity.
    + apply String.eqb_neq in Hne. rewrite Hne. exact IH.
Qed.

Lemma keeps_get {X} (f : World -> X) key :
  (forall fs w, f (with_redis_faults fs w) = f w) ->
  keeps f (redis_client.get key).
Proof.
  intros Hf w. unfold redis_client.get, redis_client.command_fails.
  destruct (redis_is_connected w); simpl; [|reflexivity].
  destruct (redis_faults w) as [|[|] fs]; simpl; try reflexivity; apply Hf.
Qed.

Lemma keeps_cache_check {X} (f : World -> X) id force :
  (forall fs w, f (with_redis_faults fs w) = f w) ->
  keeps f (cache_check id force).
Proof.
  intros Hf. unfold cache_check.
  destruct (negb force); [apply keeps_get; exact Hf | apply keeps_ret].
Qed.

(** A healthy cache answers from its key space and stays as it is. *)
Lemma get_healthy key w :
  redis_is_connected w = true -> redis_faults w = [] ->
  redis_client.get key w =
  (Ok (option_map fst (redis_client.lookup key (redis_keys w))), w).
Proof.
  intros Hc Hf. unfold redis_client.get, redis_client.command_fails.
  rewrite Hc, Hf. reflexivity.
Qed.

Lemma set_healthy key value expire w :
  redis_is_connected w = true -> redis_faults w = [] ->
  redis_client.set key value expire w =
  (Ok true,
   with_redis_keys (redis_client.store key (value, expire) (redis_keys w)) w).
Proof.
  intros Hc Hf. unfold redis_client.set, redis_client.command_fails.
  rewrite Hc, Hf. reflexivity.
Qed.

Lemma set_returns key value expire w :
  exists b w', redis_client.set key value expire w = (Ok b, w').
Proof.
  unfold redis_client.set, redis_client.command_fails.
  destruct (redis_is_connected w); simpl; [|eauto].
  destruct (redis_faults w) as [|[|] fs]; simpl; eauto.
Qed.

(** ** Shape of a run *)

(** [_save_analysis_results] never raises. *)
Lemma save_returns id results w :
  exists w', _save_analysis_results id results w = (Ok tt, w').
Proof.
  unfold _save_analysis_results, try_except.
  match goal with |- context [match ?m w with _ => _ end] => destruct (m w) as [[[]|e] w'] end;
    eexists; reflexivity.
Qed.

Lemma analyze_document_hit models id t force w c w0 :
  cache_check id force w = (Ok (Some c), w0) ->
  analyze_document models id t force w = (Ok c, w0).
Proof.
  intros H. unfold analyze_document, try_except, bind.
  unfold cache_check in H. rewrite H. reflexivity.
Qed.

Lemma analyze_document_failed models id t force w w0 e w1 :
  cache_check id force w = (Ok None, w0) ->
  analysis_stages models id t w0 = (Raise e, w1) ->
  analyze_document models id t force w = on_error id e w1.
Proof.
  intros H Hs. unfold analyze_document, try_except, bind.
  unfold cache_check in H. rewrite H. rewrite Hs. reflexivity.
Qed.

Lemma analyze_document_completed models id t force w w0 results w1 :
  cache_check id force w = (Ok None, w0) ->
  analysis_stages models id t w0 = (Ok results, w1) ->
  exists w2 b w3,
    _save_analysis_results id results w1 = (Ok tt, w2) /\
    redis_client.cache_analysis id "complete" results w2 = (Ok b, w3) /\
    analyze_document models id t force w = (Ok results, w3).
Proof.
  intros H Hs.
  destruct (save_returns id results w1) as [w2 Hsave].
  destruct (set_returns (redis_client.analysis_key id "complete") results
              7200%N w2) as (b & w3 & Hset).
  exists w2, b, w3. split; [exact Hsave|]. split; [exact Hset|].
  unfold analyze_document, try_except, bind.
  unfold cache_check in H. rewrite H. rewrite Hs, Hsave.
  unfold redis_client.cache_analysis. rewrite Hset. reflexivity.
Qed.

Lemma cache_check_returns id force w :
  exists c w0, cache_check id force w = (Ok c, w0).
Proof.
  unfold cache_check. destruct (negb force); [|unfold ret; eauto].
  unfold redis_client.get_cached_analysis, redis_client.get,
    redis_client.command_fails.
  destruct (redis_is_connected w); simpl; [|eauto].
  destruct (redis_faults w) as [|[|] fs]; simpl; eauto.
Qed.

Lemma on_error_returns id e w :
  exists now w', on_error id e w = (Ok (failed_analysis id (str e) now), w') /\
                 utcnow w = (Ok now, w').
Proof.
  unfold on_error, bind, utcnow, ret.
  destruct (clock w); eauto.
Qed.

(** [analyze_document] never raises: every exception of its body ends in
    the dict of the [except] branch. *)
Lemma analyze_document_returns models id t force w :
  exists r w', analyze_document models id t force w = (Ok r, w').
Proof.
  destruct (cache_check_returns id force w) as ([c|] & w0 & Hc).
  - rewrite (analyze_document_hit _ _ _ _ _ _ _ Hc). eauto.
  - destruct (analysis_stages models id t w0) as [[results|e] w1] eqn:Hs.
    + destruct (analyze_document_completed _ _ _ _ _ _ _ _ Hc Hs)
        as (w2 & b & w3 & _ & _ & ->). eauto.
    + rewrite (analyze_document_failed _ _ _ _ _ _ _ _ Hc Hs).
      destruct (on_error_returns id e w1) as (now & w' & -> & _). eauto.
Qed.

(** Hence the [except] branch of [run_analysis_task] is never entered: the
    task is the call of [analyze_document], and nothing else. *)
Lemma run_analysis_task_is_analyze models id t force w :
  run_analysis_task models id t force w =
  (Ok tt, snd (analyze_document models id t force w)).
Proof.
  unfold run_analysis_task, try_except, bind.
  destruct (analyze_document_returns models id t force w) as (r & w' & ->).
  reflexivity.
Qed.

(** The record assembled by the stages is tagged 'completed'. *)
Lemma analysis_stages_completed models id t w results w' :
  analysis_stages models id t w = (Ok results, w') ->
  status results = Some "completed" /\ document_id results = id.
Proof.
  unfold analysis_stages, bind, invoke, ret, utcnow.
  repeat match goal with
         | |- context [match ?x with _ => _ end] =>
             match x with
             | (_, _) => fail 1
             | _ => destruct x; try discriminate
             end
         end;
    intros H; injection H as <- <-; split; reflexivity.
Qed.

End engine_facts.

Section EngineClaims.
Import engine_spec engine_facts.

Variable models : Models.

(** C4 -- Cache-first short-circuit.  With [force] false, a complete
    analysis found in the cache under (document id, 'complete') is returned
    as it is: no analyzer stage is invoked and nothing is written to the
    store.  Hence, with a connected and healthy cache, after a first call
    that completed the cache holds its result, and a second call returns the
    same result and leaves the world, trace of analyzer invocations included,
    as the first call left it. *)
Theorem cache_first_short_circuit (id : string) (t : text) :
  (forall w c w0,
     redis_client.get_cached_analysis id "complete" w = (Ok (Some c), w0) ->
     analyze_document models id t false w = (Ok c, w0) /\
     trace w0 = trace w /\
     redis_keys w0 = redis_keys w /\
     db_analysis w0 = db_analysis w /\
     db_entities w0 = db_entities w /\
     db_documents w0 = db_documents w) /\
  (forall w r1 w1,
     redis_is_connected w = true ->
     redis_faults w = [] ->
     analyze_document models id t false w = (Ok r1, w1) ->
     status r1 = Some "completed" ->
     redis_client.get_cached_analysis id "complete" w1 = (Ok (Some r1), w1) /\
     analyze_document models id t false w1 = (Ok r1, w1)).
Proof.
  split.
  - intros w c w0 H. split.
    + apply analyze_document_hit. exact H.
    + assert (Hk : forall X (f : World -> X),
                 (forall fs w, f (with_redis_faults fs w) = f w) -> f w0 = f w).
      { intros X f Hf.
        pose proof (keeps_get f (redis_client.analysis_key id "complete") Hf w) as K.
        unfold redis_client.get_cached_analysis in H. rewrite H in K. exact K. }
      repeat split; apply Hk; reflexivity.
  - intros w r1 w1 Hconn Hfaults Hrun Hstatus.
    assert (Hagain : forall w',
               redis_client.get_cached_analysis id "complete" w' = (Ok (Some r1), w') ->
               redis_client.get_cached_analysis id "complete" w' = (Ok (Some r1), w') /\
               analyze_document models id t false w' = (Ok r1, w')).
    { intros w' H. split; [exact H|]. apply analyze_document_hit. exact H. }
    pose proof (get_healthy (redis_client.analysis_key id "complete") w Hconn Hfaults)
      as Hget.
    destruct (option_map fst
                (redis_client.lookup (redis_client.analysis_key id "complete")
                   (redis_keys w))) as [c|] eqn:Hlook.
    + (* the first call was already a hit *)
      rewrite (analyze_document_hit models id t false w c w Hget) in Hrun.
      injection Hrun as <- <-. apply Hagain. exact Hget.
    + destruct (analysis_stages models id t w) as [[results|e] w2] eqn:Hs.
      * destruct (analyze_document_completed models id t false w w results w2
                    Hget Hs) as (w3 & b & w4 & Hsave & Hset & Hdone).
        rewrite Hdone in Hrun. injection Hrun as <- <-.
        assert (Hconn3 : redis_is_connected w3 = true).
        { pose proof (keeps_save redis_is_connected
                        (fun _ _ => eq_refl) (fun _ _ => eq_refl)
                        (fun _ _ => eq_refl) (fun _ _ => eq_refl)
                        (fun _ _ => eq_refl) id results w2) as K1.
          pose proof (keeps_analysis_stages redis_is_connected
                        (fun _ _ => eq_refl) (fun _ _ => eq_refl)
                        models id t w) as K2.
          rewrite Hsave in K1. rewrite Hs in K2. simpl in *. congruence. }
        assert (Hfaults3 : redis_faults w3 = []).
        { pose proof (keeps_save redis_faults
                        (fun _ _ => eq_refl) (fun _ _ => eq_refl)
                        (fun _ _ => eq_refl) (fun _ _ => eq_refl)
                        (fun _ _ => eq_refl) id results w2) as K1.
          pose proof (keeps_analysis_stages redis_faults
                        (fun _ _ => eq_refl) (fun _ _ => eq_refl)
                        models id t w) as K2.
          rewrite Hsave in K1. rewrite Hs in K2. simpl in *. congruence. }
        unfold redis_client.cache_analysis in Hset.
        rewrite (set_healthy _ _ _ _ Hconn3 Hfaults3) in Hset.
        injection Hset as <- <-.
        apply Hagain. unfold redis_client.get_cached_analysis.
        rewrite get_healthy by assumption.
        cbn [redis_keys with_redis_keys]. rewrite lookup_store. reflexivity.
      * rewrite (analyze_document_failed models id t false w w e w2 Hget Hs)
          in Hrun.
        destruct (on_error_returns id e w2) as (now & w' & Herr & _).
        rewrite Herr in Hrun. injection Hrun as <- <-. discriminate Hstatus.
Qed.

(** C1 (as stated) fails.  (1) The sentiment analyzer raises during a run
    started by the route: [analyze_document] returns the failed record, yet
    at the end of the request the stored document still has status
    'processing' and no error, because the handler of [run_analysis_task]
    that would write them is never entered.  (2) The insertion of the
    analysis document raises: the exception is swallowed by
    [_save_analysis_results] and [analyze_document] returns a record tagged
    'completed', not 'failed'. *)
Lemma failure_not_propagated :
  (let w := samples_engine.world_with samples_engine.stored [] in
   fst (analyze_document samples_engine.sentiment_down samples_engine.doc_id
          samples_timeline.hi true w) =
     Ok (failed_analysis samples_engine.doc_id
           "sentiment pipeline unavailable" 0%N) /\
   exists doc,
     redis_client.lookup samples_engine.doc_id
       (db_documents
          (snd (serve_analyze samples_engine.sentiment_down
                  (mkAnalysisRequest samples_engine.doc_id true) w))) = Some doc /\
     analysis_status doc = Some "processing" /\
     analysis_status doc <> Some "failed" /\
     doc_error doc = None) /\
  (let w := samples_engine.world_with samples_engine.stored
              [Some (Exception "connection lost")] in
   exists r w',
     analyze_document samples_engine.working samples_engine.doc_id
       samples_timeline.hi true w = (Ok r, w') /\
     status r = Some "completed" /\
     status r <> Some "failed" /\
     error r = None /\
     db_analysis w' = []).
Proof.
  split.
  - split; [vm_compute; reflexivity|].
    eexists. split; [vm_compute; reflexivity|].
    repeat split; try reflexivity. discriminate.
  - eexists. eexists. split; [vm_compute; reflexivity|].
    repeat split; try reflexivity. discriminate.
Qed.

(** C1 (amended) -- Failure of a run.  In a run that reaches the analyzers
    (forced, or nothing usable in the cache): if a stage raises,
    [analyze_document] returns the record tagged 'failed' that carries the
    message of the exception, and no analysis record and no entity row is
    persisted for that run; if the stages return, [analyze_document] returns
    their record, tagged 'completed', whatever happens in the persistence
    calls, whose exceptions [_save_analysis_results] catches. *)
Theorem failed_run (id : string) (t : text) (force : bool) (w w0 : World) :
  cache_check id force w = (Ok None, w0) ->
  (forall e w1,
     analysis_stages models id t w0 = (Raise e, w1) ->
     exists now w',
       analyze_document models id t force w =
         (Ok (failed_analysis id (str e) now), w') /\
       status (failed_analysis id (str e) now) = Some "failed" /\
       error (failed_analysis id (str e) now) = Some (str e) /\
       db_analysis w' = db_analysis w /\
       db_entities w' = db_entities w) /\
  (forall results w1,
     analysis_stages models id t w0 = (Ok results, w1) ->
     exists w',
       analyze_document models id t force w = (Ok results, w') /\
       status results = Some "completed").
Proof.
  intros Hcheck. split.
  - intros e w1 Hs.
    destruct (on_error_returns id e w1) as (now & w' & Herr & Hnow).
    exists now, w'. split.
    + rewrite (analyze_document_failed models id t force w w0 e w1 Hcheck Hs).
      exact Herr.
    + split; [reflexivity|]. split; [reflexivity|].
      assert (Hk : forall X (f : World -> X),
                 (forall fs w, f (with_redis_faults fs w) = f w) ->
                 (forall c w, f (with_clock c w) = f w) ->
                 (forall tr w, f (with_trace tr w) = f w) ->
                 f w' = f w).
      { intros X f Hf Hc Ht.
        pose proof (keeps_cache_check f id force Hf w) as K0.
        pose proof (keeps_analysis_stages f Hc Ht models id t w0) as K1.
        pose proof (keeps_utcnow f Hc w1) as K2.
        rewrite Hcheck in K0. rewrite Hs in K1. rewrite Hnow in K2.
        simpl in *. congruence. }
      split; apply Hk; reflexivity.
  - intros results w1 Hs.
    destruct (analyze_document_completed models id t force w w0 results w1
                Hcheck Hs) as (w2 & b & w3 & _ & _ & Hdone).
    exists w3. split; [exact Hdone|].
    apply (analysis_stages_completed models id t w0 results w1 Hs).
Qed.

End EngineClaims.

Lemma cache_first_short_circuit_witness :
  exists r1 w1,
    analyze_document samples_engine.working samples_engine.doc_id
      samples_timeline.hi false
      (samples_engine.world_with samples_engine.stored []) = (Ok r1, w1) /\
    analyze_document samples_engine.working samples_engine.doc_id
      samples_timeline.hi false w1 = (Ok r1, w1).
Proof.
  eexists. eexists. split; [vm_compute; reflexivity|].
  refine (proj2 (proj2 (cache_first_short_circuit samples_engine.working
                          samples_engine.doc_id samples_timeline.hi)
                   (samples_engine.world_with samples_engine.stored [])
                   _ _ eq_refl eq_refl _ _)).
  - vm_compute. reflexivity.
  - reflexivity.
Defined.

Lemma failed_run_witness :
  exists now w',
    analyze_document samples_engine.sentiment_down samples_engine.doc_id
      samples_timeline.hi true
      (samples_engine.world_with samples_engine.stored []) =
      (Ok (failed_analysis samples_engine.doc_id
             "sentiment pipeline unavailable" now), w') /\
    db_analysis w' = [].
Proof.
  destruct (proj1 (failed_run samples_engine.sentiment_down
                     samples_engine.doc_id samples_timeline.hi true
                     (samples_engine.world_with samples_engine.stored [])
                     (samples_engine.world_with samples_engine.stored [])
                     eq_refl)
              (Exception "sentiment pipeline unavailable")
              (with_trace [StageEntities; StageSentiment]
                 (samples_engine.world_with samples_engine.stored []))
              eq_refl)
    as (now & w' & Hrun & _ & _ & Hdb & _).
  exists now, w'. split; [exact Hrun | exact Hdb].
Defined.

Section RouteClaims.
Import engine_spec engine_facts.

Lemma get_document_fresh id ts w :
  mongodb.get_document id (with_background_tasks ts w) =
  (fst (mongodb.get_document id w),
   with_background_tasks ts (snd (mongodb.get_document id w))).
Proof.
  unfold mongodb.get_document, mongodb.operation, bind.
  cbn [db_faults with_background_tasks].
  destruct (db_faults w) as [|[e|] fs]; reflexivity.
Qed.

Lemma analyze_route_no_text request w doc w1 :
  mongodb.get_document (req_document_id request) w = (Ok (Some doc), w1) ->
  text_content doc = None \/ text_content doc = Some [] ->
  analyze_route request w =
  (Raise (HTTPException 400 "Document has no text content"), w1).
Proof.
  intros Hget Hempty. unfold analyze_route, try_except, bind.
  rewrite Hget. destruct Hempty as [-> | ->]; reflexivity.
Qed.

(** C9 -- Empty-input short-circuit.  When the stored document has no text
    ([text_content] missing, null or empty), the [/analyze] request ends with
    the 400 condition "Document has no text content": no task is scheduled,
    so that no analyzer stage (NER, sentiment, classification, graph,
    timeline, ...) is invoked, neither by the handler nor after it, and the
    document and analysis collections are left as they were. *)
Theorem empty_text_short_circuit
  (models : Models) (request : AnalysisRequest) (w w1 : World) (doc : Document) :
  mongodb.get_document (req_document_id request) w = (Ok (Some doc), w1) ->
  text_content doc = None \/ text_content doc = Some [] ->
  analyze_route request w =
    (Raise (HTTPException 400 "Document has no text content"), w1) /\
  background_tasks w1 = background_tasks w /\
  serve_analyze models request w =
    (Raise (HTTPException 400 "Document has no text content"),
     with_background_tasks [] w1) /\
  trace (snd (serve_analyze models request w)) = trace w /\
  db_documents (snd (serve_analyze models request w)) = db_documents w /\
  db_analysis (snd (serve_analyze models request w)) = db_analysis w.
Proof.
  intros Hget Hempty.
  assert (Hk : forall X (f : World -> X),
             (forall fs w, f (with_db_faults fs w) = f w) -> f w1 = f w).
  { intros X f Hf.
    assert (K : keeps f (mongodb.get_document (req_document_id request))).
    { unfold mongodb.get_document. apply keeps_bind.
      - intros w'. unfold mongodb.operation.
        destruct (db_faults w') as [|[e|] fs]; simpl; [reflexivity | |]; apply Hf.
      - intros _ w'. reflexivity. }
    specialize (K w). rewrite Hget in K. exact K. }
  assert (Hserve : serve_analyze models request w =
                   (Raise (HTTPException 400 "Document has no text content"),
                    with_background_tasks [] w1)).
  { unfold serve_analyze.
    rewrite (analyze_route_no_text request (with_background_tasks [] w) doc
               (with_background_tasks [] w1)).
    - reflexivity.
    - rewrite get_document_fresh, Hget. reflexivity.
    - exact Hempty. }
  split; [exact (analyze_route_no_text request w doc w1 Hget Hempty)|].
  split; [apply Hk; reflexivity|].
  split; [exact Hserve|].
  rewrite Hserve. cbn [snd trace db_documents db_analysis with_background_tasks].
  repeat split; apply Hk; reflexivity.
Qed.

Lemma empty_text_short_circuit_witness :
  serve_analyze samples_engine.working
    (mkAnalysisRequest samples_engine.doc_id false)
    (samples_engine.world_with samples_engine.stored_empty []) =
  (Raise (HTTPException 400 "Document has no text content"),
   with_background_tasks []
     (samples_engine.world_with samples_engine.stored_empty [])).
Proof.
  apply (proj1 (proj2 (proj2
           (empty_text_short_circuit samples_engine.working
              (mkAnalysisRequest samples_engine.doc_id false)
              (samples_engine.world_with samples_engine.stored_empty [])
              (samples_engine.world_with samples_engine.stored_empty [])
              samples_engine.stored_empty eq_refl (or_intror eq_refl))))).
Defined.

End RouteClaims.

Section InsightClaims.
Import engine_spec.

(** C8 (as stated) fails: the classifier's confidence is present with value
    0 and the sentiment average is 4/5; the mean of the scores present is
    2/5, but [_calculate_confidence] returns 4/5, since a score of 0 does
    not pass the truth test that guards each [append]. *)
Lemma confidence_skips_zero :
  present_scores samples_engine.zero_confidence = [0 # 1; 4 # 5] /\
  _calculate_confidence samples_engine.zero_confidence == 4 # 5 /\
  mean (present_scores samples_engine.zero_confidence) == 2 # 5 /\
  ~ _calculate_confidence samples_engine.zero_confidence ==
    mean (present_scores samples_engine.zero_confidence).
Proof.
  split; [reflexivity|]. split; [reflexivity|]. split; [reflexivity|].
  vm_compute. discriminate.
Qed.

(** C8 (amended) -- Confidence score.  [_calculate_confidence], whose
    result [get_insights] reports as 'confidence_score', returns the
    arithmetic mean of those of classification confidence, sentiment average
    score and OCR confidence that are present with a non-zero value, and 0.5
    when there is none.  In particular, when no score present is zero, it is
    the mean of the scores present. *)
Theorem confidence_score (analysis : Analysis) :
  let counted := filter nonzero (present_scores analysis) in
  (counted <> [] -> _calculate_confidence analysis = mean counted) /\
  (counted = [] -> _calculate_confidence analysis = 1 # 2) /\
  (present_scores analysis <> [] ->
   (forall q, In q (present_scores analysis) -> ~ q == 0) ->
   _calculate_confidence analysis = mean (present_scores analysis)).
Proof.
  intros counted.
  assert (Hcode : _calculate_confidence analysis =
                  if nonempty counted then mean counted else 1 # 2).
  { subst counted. unfold _calculate_confidence, present_scores, truthy_num,
      nonzero, mean, present, the.
    destruct (classification_confidence analysis) as [c|];
      destruct (sentiment_average_score analysis) as [s|];
      destruct (ocr_confidence analysis) as [o|];
      cbn [app filter];
      repeat match goal with
             | |- context [Qeq_bool ?q 0] => destruct (Qeq_bool q 0)
             end;
      reflexivity. }
  assert (Hall : (forall q, In q (present_scores analysis) -> ~ q == 0) ->
                 counted = present_scores analysis).
  { subst counted. generalize (present_scores analysis).
    intros l. induction l as [|q l IH]; intros Hnz; [reflexivity|].
    simpl. unfold nonzero at 1.
    destruct (Qeq_bool q 0) eqn:Hq.
    - exfalso. apply (Hnz q); [left; reflexivity|]. apply Qeq_bool_iff. exact Hq.
    - simpl. f_equal. apply IH. intros q' Hin. apply Hnz. right. exact Hin. }
  split; [|split].
  - intros Hne. rewrite Hcode. destruct counted; [contradiction|reflexivity].
  - intros Hnil. rewrite Hcode, Hnil. reflexivity.
  - intros Hne Hnz. rewrite Hcode, (Hall Hnz).
    destruct (present_scores analysis); [contradiction|reflexivity].
Qed.

Lemma confidence_score_witness :
  _calculate_confidence samples_engine.zero_confidence = mean [4 # 5] /\
  _calculate_confidence
    (failed_analysis samples_engine.doc_id "no scores" 0%N) = 1 # 2.
Proof.
  split.
  - apply (proj1 (confidence_score samples_engine.zero_confidence)).
    discriminate.
  - apply (proj1 (proj2 (confidence_score
                           (failed_analysis samples_engine.doc_id "no scores" 0%N)))).
    reflexivity.
Defined.

End InsightClaims.

(* ================================================================== *)
(** * Further properties of the knowledge graph *)
(* ================================================================== *)

Module kg_more.
Import nx nx_spec kg_spec nx_facts kg_facts kg_props extra_spec kg_queries.

Lemma node_attrs_add_node G n a m :
  node_attrs (add_node G n a) m =
  if String.eqb n m
  then Some (attr_update (match node_attrs G n with
                          | Some old => old
                          | None => no_attr
                          end) a)
  else node_attrs G m.
Proof.
  induction G as [|[k d] G IH]; simpl.
  - destruct (String.eqb n m); reflexivity.
  - destruct (String.eqb_spec k n) as [->|Hkn]; simpl.
    + destruct (String.eqb n m); reflexivity.
    + rewrite IH. destruct (String.eqb_spec k m) as [->|Hkm].
      * destruct (String.eqb_spec n m) as [->|Hnm]; [contradiction|reflexivity].
      * reflexivity.
Qed.

Lemma node_attrs_set_edge G u v r m :
  node_attrs (set_edge G u v r) m = node_attrs G m.
Proof.
  induction G as [|[k d] G IH]; simpl; [reflexivity|].
  destruct (String.eqb k u); simpl; rewrite ?IH; reflexivity.
Qed.

Lemma node_attrs_connect rel G u v m :
  node_attrs (connect rel G u v) m = node_attrs G m.
Proof.
  rewrite connect_eq. destruct (has_node G u && has_node G v)%bool;
    [apply node_attrs_set_edge | reflexivity].
Qed.

Lemma node_attrs_final entities relationships m :
  node_attrs (final_graph entities relationships) m =
  node_attrs (add_entity_nodes entities) m.
Proof.
  assert (Hexp : node_attrs (explicit_graph entities relationships) m =
                 node_attrs (add_entity_nodes entities) m).
  { destruct relationships as [rels|]; [|reflexivity].
    rewrite explicit_graph_Some.
    apply (relationships_ind
             (fun G => node_attrs G m = node_attrs (add_entity_nodes entities) m)).
    - intros rel G u v H. rewrite node_attrs_connect. exact H.
    - reflexivity. }
  unfold final_graph. destruct (fallback_fires entities relationships).
  - apply (implicit_ind
             (fun G => node_attrs G m = node_attrs (add_entity_nodes entities) m)).
    + intros rel G u v H. rewrite node_attrs_connect. exact H.
    + exact Hexp.
  - exact Hexp.
Qed.

(** The attributes of a node after the node pass are those of the last
    mention of its text. *)
Lemma node_attrs_last G before e after :
  ~ In (e_text e) (map e_text after) ->
  node_attrs
    (fold_left
       (fun G entity =>
          add_node G (e_text entity)
            (mkNodeAttr (Some (e_label entity)) (Some (e_text entity))))
       (before ++ e :: after) G) (e_text e) =
  Some (mkNodeAttr (Some (e_label e)) (Some (e_text e))).
Proof.
  intros Hlast. rewrite fold_left_app. simpl.
  set (G1 := fold_left _ before G). clearbody G1.
  assert (H1 : node_attrs
                 (add_node G1 (e_text e)
                    (mkNodeAttr (Some (e_label e)) (Some (e_text e))))
                 (e_text e) =
               Some (mkNodeAttr (Some (e_label e)) (Some (e_text e)))).
  { rewrite node_attrs_add_node, String.eqb_refl. reflexivity. }
  revert H1. generalize (add_node G1 (e_text e)
                           (mkNodeAttr (Some (e_label e)) (Some (e_text e)))).
  induction after as [|a after IH]; simpl; intros G2 H2; [exact H2|].
  apply IH.
  - intros Hin. apply Hlast. right. exact Hin.
  - rewrite node_attrs_add_node.
    destruct (String.eqb_spec (e_text a) (e_text e)) as [Heq|Hne].
    + exfalso. apply Hlast. left. exact Heq.
    + exact H2.
Qed.

Lemma self_labelled_node_pass entities : self_labelled (add_entity_nodes entities).
Proof.
  unfold add_entity_nodes.
  assert (H0 : self_labelled DiGraph_empty) by (intros k; exact I).
  revert H0. generalize DiGraph_empty.
  induction entities as [|e entities IH]; simpl; intros G HG; [exact HG|].
  apply IH. intros k. rewrite node_attrs_add_node.
  destruct (String.eqb_spec (e_text e) k) as [<-|Hne]; [reflexivity|].
  apply HG.
Qed.

Lemma In_node_attrs G k d :
  NoDup (node_ids G) -> In (k, d) G -> node_attrs G k = Some (attrs d).
Proof.
  unfold node_ids. induction G as [|[k0 d0] G IH]; simpl; [tauto|].
  intros Hnd [H|H].
  - injection H as -> ->. rewrite String.eqb_refl. reflexivity.
  - inversion Hnd as [|? ? Hnotin Hnd']; subst.
    destruct (String.eqb_spec k0 k) as [->|Hne].
    + exfalso. apply Hnotin. apply (in_map fst) in H. exact H.
    + auto.
Qed.

Lemma length_add_node G n a :
  length (add_node G n a) = if has_node G n then length G else S (length G).
Proof.
  induction G as [|[k d] G IH]; simpl; [reflexivity|].
  destruct (String.eqb k n); simpl; [reflexivity|].
  rewrite IH. destruct (has_node G n); reflexivity.
Qed.

Lemma length_node_pass entities :
  (length (add_entity_nodes entities) <= length entities)%nat.
Proof.
  unfold add_entity_nodes.
  assert (H : forall G,
             (length (fold_left
                        (fun G entity =>
                           add_node G (e_text entity)
                             (mkNodeAttr (Some (e_label entity))
                                (Some (e_text entity))))
                        entities G)
              <= length G + length entities)%nat).
  { induction entities as [|e entities IH]; simpl; intros G; [lia|].
    specialize (IH (add_node G (e_text e)
                      (mkNodeAttr (Some (e_label e)) (Some (e_text e))))).
    rewrite length_add_node in IH. destruct (has_node G (e_text e)); lia. }
  apply (H DiGraph_empty).
Qed.

Lemma count_of_bump lbl counts l :
  count_of lbl (bump counts l) =
  (count_of lbl counts + if String.eqb l lbl then 1 else 0)%nat.
Proof.
  induction counts as [|[k c] counts IH]; simpl.
  - destruct (String.eqb l lbl); reflexivity.
  - destruct (String.eqb_spec k l) as [Hkl|Hkl]; simpl.
    + subst k. destruct (String.eqb l lbl); lia.
    + rewrite IH. destruct (String.eqb_spec k lbl) as [Hk|Hk]; [|reflexivity].
      destruct (String.eqb_spec l lbl) as [Hl|Hl]; [congruence|lia].
Qed.

Lemma bump_keys counts l :
  NoDup (map fst counts) -> NoDup (map fst (bump counts l)).
Proof.
  induction counts as [|[k c] counts IH]; simpl; intros Hnd.
  - repeat constructor. simpl. tauto.
  - inversion Hnd as [|? ? Hnotin Hnd']; subst.
    destruct (String.eqb_spec k l) as [->|Hne]; simpl.
    + constructor; assumption.
    + constructor; [|auto]. intros Hin. apply Hnotin.
      clear - Hin Hne. induction counts as [|[k1 c1] counts IH]; simpl in *.
      * destruct Hin as [H|[]]. congruence.
      * destruct (String.eqb_spec k1 l) as [->|Hne1]; simpl in *; tauto.
Qed.

Lemma bump_positive counts l :
  Forall (fun kc => (0 < snd kc)%nat) counts ->
  Forall (fun kc => (0 < snd kc)%nat) (bump counts l).
Proof.
  induction counts as [|[k c] counts IH]; simpl; intros H.
  - repeat constructor.
  - inversion H as [|? ? Hc H']; subst.
    destruct (String.eqb k l); constructor; simpl in *; auto; lia.
Qed.

Lemma total_bump counts l :
  total (map snd (bump counts l)) = S (total (map snd counts)).
Proof.
  induction counts as [|[k c] counts IH]; simpl; [reflexivity|].
  destruct (String.eqb k l); simpl; [reflexivity|]. rewrite IH. lia.
Qed.

Lemma In_count_of lbl n counts :
  NoDup (map fst counts) -> In (lbl, n) counts -> count_of lbl counts = n.
Proof.
  induction counts as [|[k c] counts IH]; simpl; [tauto|].
  intros Hnd [H|H].
  - injection H as -> ->. rewrite String.eqb_refl. reflexivity.
  - inversion Hnd as [|? ? Hnotin Hnd']; subst.
    destruct (String.eqb_spec k lbl) as [->|Hne].
    + exfalso. apply Hnotin. apply (in_map fst) in H. exact H.
    + auto.
Qed.


(** The relation on the pair [(u, v)] after the relationship loop: that of
    the last relationship joining two known nodes [u] and [v]. *)
Lemma edge_rel_relationships rels G u v :
  edge_rel (fold_left add_relationship rels G) u v =
  fold_left
    (fun acc r =>
       if (has_node G (r_subject r) && has_node G (r_object r)
           && String.eqb (r_subject r) u && String.eqb (r_object r) v)%bool
       then Some (relation_of r) else acc)
    rels (edge_rel G u v).
Proof.
  assert (H : forall G',
             (forall n, has_node G' n = has_node G n) ->
             edge_rel (fold_left add_relationship rels G') u v =
             fold_left
               (fun acc r =>
                  if (has_node G (r_subject r) && has_node G (r_object r)
                      && String.eqb (r_subject r) u
                      && String.eqb (r_object r) v)%bool
                  then Some (relation_of r) else acc)
               rels (edge_rel G' u v)).
  { induction rels as [|r rels IH]; simpl; intros G' Hn; [reflexivity|].
    rewrite IH.
    - rewrite add_relationship_connect, edge_rel_connect, !Hn. reflexivity.
    - intros n. rewrite add_relationship_connect, has_node_connect. apply Hn. }
  apply H. reflexivity.
Qed.

(** The last element of a list that passes a test decides a fold that
    remembers the last passing element. *)
Lemma last_passing {A B} (test : A -> bool) (val : A -> B) l (b : B) :
  fold_left (fun acc r => if test r then Some (val r) else acc) l None = Some b <->
  exists before r after,
    l = before ++ r :: after /\ test r = true /\ val r = b /\
    Forall (fun r' => test r' = false) after.
Proof.
  induction l as [|r l IH] using rev_ind.
  - simpl. split; [discriminate|].
    intros (before & r & after & H & _). destruct before; discriminate H.
  - rewrite fold_left_app. simpl. destruct (test r) eqn:Ht.
    + split.
      * intros [= <-]. exists l, r, []. auto.
      * intros (before & r' & after & H & Ht' & Hv & Hall).
        destruct after as [|a after] using rev_ind.
        -- apply app_inj_tail in H. destruct H as [_ ->]. rewrite Hv. reflexivity.
        -- clear IHafter. rewrite app_comm_cons, app_assoc in H.
           apply app_inj_tail in H. destruct H as [_ ->].
           apply Forall_app in Hall. destruct Hall as [_ Hall].
           inversion Hall; subst. congruence.
    + rewrite IH. split.
      * intros (before & r' & after & -> & Ht' & Hv & Hall).
        exists before, r', (after ++ [r]). rewrite <- app_assoc. simpl.
        repeat split; auto. apply Forall_app. split; [exact Hall|].
        constructor; [exact Ht | constructor].
      * intros (before & r' & after & H & Ht' & Hv & Hall).
        destruct after as [|a after] using rev_ind.
        -- apply app_inj_tail in H. destruct H as [_ ->]. congruence.
        -- clear IHafter. rewrite app_comm_cons, app_assoc in H.
           apply app_inj_tail in H. destruct H as [-> ->].
           apply Forall_app in Hall. destruct Hall as [Hall _].
           exists before, r', after. auto.
Qed.

End kg_more.

Section GraphExtras.
Import nx_spec kg_spec nx_facts kg_facts kg_props extra_spec kg_more.

(** X1 -- Duplicate mentions are merged.  The nodes of the graph returned by
    [build_graph] have pairwise distinct ids, so there are at most as many
    nodes as entities; each node is labelled with its id; and the type of
    the node of a text is the label of the last entity that has this text. *)
Theorem build_graph_merges_mentions
  (entities : list Entity) (relationships : option (list Relationship)) :
  let graph := build_graph entities relationships in
  NoDup (map gn_id (gd_nodes graph)) /\
  (length (gd_nodes graph) <= length entities)%nat /\
  total_nodes (gd_statistics graph) = length (gd_nodes graph) /\
  (forall n, In n (gd_nodes graph) -> gn_label n = gn_id n) /\
  (forall before e after,
     entities = before ++ e :: after ->
     ~ In (e_text e) (map e_text after) ->
     exists n, In n (gd_nodes graph) /\
               gn_id n = e_text e /\ gn_type n = e_label e).
Proof.
  intros graph. subst graph.
  pose proof (inv_final entities relationships) as (Hk & Hc & Hids).
  destruct Hk as [Hnd Hsucc].
  assert (Hattr : forall k d,
             In (k, d) (final_graph entities relationships) ->
             kg_queries.node_attrs (add_entity_nodes entities) k =
             Some (nx.attrs d)).
  { intros k d Hin. rewrite <- (node_attrs_final entities relationships).
    apply In_node_attrs; assumption. }
  split; [rewrite build_graph_node_ids; exact Hnd|].
  split.
  { unfold build_graph. simpl. rewrite length_map.
    apply (f_equal (@length string)) in Hids. unfold node_ids in Hids.
    rewrite !length_map in Hids. rewrite Hids. apply length_node_pass. }
  split; [unfold build_graph; simpl; rewrite length_map; reflexivity|].
  split.
  - intros n Hn. unfold build_graph in Hn. simpl in Hn.
    apply in_map_iff in Hn. destruct Hn as [[k d] [<- Hin]]. simpl.
    pose proof (Hattr k d Hin) as Ha.
    pose proof (self_labelled_node_pass entities k) as Hl.
    rewrite Ha in Hl. rewrite Hl. reflexivity.
  - intros before e after -> Hlast.
    assert (Hin : In (e_text e)
                    (node_ids (final_graph (before ++ e :: after) relationships))).
    { rewrite Hids. apply node_ids_add_entity_nodes.
      rewrite map_app. apply in_or_app. right. left. reflexivity. }
    unfold node_ids in Hin. apply in_map_iff in Hin.
    destruct Hin as [[k d] [Hk Hin]]. simpl in Hk. subst k.
    pose proof (Hattr _ _ Hin) as Ha. unfold add_entity_nodes in Ha.
    rewrite (node_attrs_last _ before e after Hlast) in Ha.
    injection Ha as Ha.
    eexists. split.
    + unfold build_graph. simpl. apply in_map_iff.
      exists (e_text e, d). split; [reflexivity | exact Hin].
    + simpl. rewrite <- Ha. simpl. auto.
Qed.

Lemma build_graph_merges_mentions_witness :
  exists n,
    In n (gd_nodes (build_graph samples.twice_tagged None)) /\
    gn_id n = "Ford" /\ gn_type n = "ORG".
Proof.
  apply (proj2 (proj2 (proj2 (proj2
           (build_graph_merges_mentions samples.twice_tagged None))))
           [mkEntity "Ford" "PERSON" 0 4 None; mkEntity "Vatican" "ORG" 12 19 None]
           (mkEntity "Ford" "ORG" 40 44 None)
           [mkEntity "Vatican" "GPE" 60 67 None]).
  - reflexivity.
  - simpl. intros [H|[]]. discriminate H.
Defined.

(** X2 -- Per-type counts.  The 'entity_types' statistic has one entry per
    label that occurs, holding the number of entities (mentions, not nodes)
    with that label; the counts add up to the number of entities. *)
Theorem entity_types_count_mentions
  (entities : list Entity) (relationships : option (list Relationship)) :
  let counts := entity_types (gd_statistics (build_graph entities relationships)) in
  NoDup (map fst counts) /\
  (forall lbl, count_of lbl counts = mentions lbl entities) /\
  (forall lbl n, In (lbl, n) counts -> n = mentions lbl entities /\ (0 < n)%nat) /\
  total (map snd counts) = length entities.
Proof.
  intros counts. subst counts. unfold build_graph. simpl.
  unfold count_entity_types.
  assert (H : forall counts0,
             NoDup (map fst counts0) ->
             Forall (fun kc => (0 < snd kc)%nat) counts0 ->
             let counts :=
               fold_left (fun counts entity => bump counts (e_label entity))
                 entities counts0 in
             NoDup (map fst counts) /\
             Forall (fun kc => (0 < snd kc)%nat) counts /\
             (forall lbl, count_of lbl counts =
                          (count_of lbl counts0 + mentions lbl entities)%nat) /\
             total (map snd counts) =
             (total (map snd counts0) + length entities)%nat).
  { induction entities as [|e entities IH]; simpl; intros counts0 Hnd Hpos.
    - split; [exact Hnd|]. split; [exact Hpos|].
      split; [intros lbl; unfold mentions; simpl; lia | lia].
    - destruct (IH (bump counts0 (e_label e)) (bump_keys _ _ Hnd)
                  (bump_positive _ _ Hpos)) as (H1 & H2 & H3 & H4).
      split; [exact H1|]. split; [exact H2|]. split.
      + intros lbl. rewrite H3, count_of_bump. unfold mentions. simpl.
        destruct (String.eqb (e_label e) lbl); simpl; lia.
      + rewrite H4, total_bump. lia. }
  destruct (H [] (NoDup_nil _) (Forall_nil _)) as (H1 & H2 & H3 & H4).
  split; [exact H1|]. split; [intros lbl; rewrite H3; reflexivity|].
  split; [|exact H4].
  intros lbl n Hin. split.
  - rewrite <- (In_count_of lbl n _ H1 Hin). rewrite H3. reflexivity.
  - rewrite Forall_forall in H2. apply (H2 _ Hin).
Qed.

Lemma entity_types_count_mentions_witness :
  2%nat = mentions "ORG" samples.twice_tagged /\ (0 < 2)%nat.
Proof.
  apply (proj1 (proj2 (proj2
           (entity_types_count_mentions samples.twice_tagged None))) "ORG" 2%nat).
  vm_compute. auto.
Defined.


(** X5 -- No entities, no graph.  Without entities [build_graph] returns the
    empty graph whatever the relationships: no node, no edge, density 0, not
    connected. *)
Theorem build_graph_no_entities (relationships : option (list Relationship)) :
  build_graph [] relationships =
  mkGraphData [] [] (mkGraphStatistics 0 0 [] 0 false).
Proof.
  assert (Hexp : explicit_graph [] relationships = []).
  { destruct relationships as [rels|]; [|reflexivity].
    rewrite explicit_graph_Some. simpl.
    induction rels as [|r rels IH]; simpl; [reflexivity | exact IH]. }
  unfold build_graph, final_graph, fallback_fires. rewrite Hexp.
  destruct (negb (truthy_list relationships) || (nx.number_of_edges [] =? 0)%nat)%bool;
    reflexivity.
Qed.

(** X4 -- Explicit edges.  When the relationship loop has produced an edge,
    the returned graph has an edge from [u] to [v] with relation [rel]
    exactly when [u] and [v] are entity texts and the last relationship of
    the list with subject [u] and object [v] carries [rel] ('related_to' if
    it has none): a later relationship on the same pair overwrites the
    earlier one. *)
Theorem explicit_edges_last_wins
  (entities : list Entity) (rels : list Relationship) :
  nx.number_of_edges (explicit_graph entities (Some rels)) <> 0%nat ->
  forall u v rel,
    In (mkGraphEdge u v rel rel) (gd_edges (build_graph entities (Some rels))) <->
    In u (map e_text entities) /\ In v (map e_text entities) /\
    exists before r after,
      rels = before ++ r :: after /\ joins u v r /\ relation_of r = rel /\
      Forall (fun r' => ~ joins u v r') after.
Proof.
  intros Hne u v rel.
  assert (Hfire : fallback_fires entities (Some rels) = false).
  { unfold fallback_fires. apply Nat.eqb_neq in Hne. rewrite Hne.
    destruct rels as [|r rels]; [|reflexivity].
    exfalso. apply Nat.eqb_neq in Hne. apply Hne.
    destruct (after_node_pass entities) as [_ He].
    unfold nx.number_of_edges. simpl. rewrite He. reflexivity. }
  rewrite build_graph_edges. unfold final_graph. rewrite Hfire.
  rewrite In_to_edge. cbn [ge_label ge_relation ge_source ge_target].
  pose proof (inv_explicit entities (Some rels)) as (Hk & _ & _).
  assert (Hiff : In (u, v, rel) (nx.edges (explicit_graph entities (Some rels))) <->
                 edge_rel (explicit_graph entities (Some rels)) u v = Some rel).
  { split; [apply In_edge_rel; exact Hk | apply edge_rel_In]. }
  rewrite explicit_graph_Some in Hiff.
  rewrite edge_rel_relationships in Hiff.
  destruct (after_node_pass entities) as [_ He].
  rewrite (no_edges_edge_rel _ u v He) in Hiff.
  rewrite (last_passing
             (fun r => (nx.has_node (add_entity_nodes entities) (r_subject r)
                        && nx.has_node (add_entity_nodes entities) (r_object r)
                        && String.eqb (r_subject r) u
                        && String.eqb (r_object r) v)%bool)
             relation_of rels rel) in Hiff.
  rewrite explicit_graph_Some.
  pose proof (has_node_text entities _ u (inv_init entities)) as Hu.
  pose proof (has_node_text entities _ v (inv_init entities)) as Hv.
  split.
  - intros [_ Hin]. apply Hiff in Hin.
    destruct Hin as (before & r & after & -> & Ht & Hrel & Hall).
    apply andb_true_iff in Ht. destruct Ht as [Ht Ho].
    apply andb_true_iff in Ht. destruct Ht as [Ht Hs].
    apply andb_true_iff in Ht. destruct Ht as [Hns Hno].
    apply String.eqb_eq in Hs. apply String.eqb_eq in Ho.
    rewrite Hs in Hns. rewrite Ho in Hno.
    split; [apply Hu; exact Hns|]. split; [apply Hv; exact Hno|].
    exists before, r, after. repeat split; auto.
    eapply Forall_impl; [|exact Hall]. intros r' Hf [Hs' Ho'].
    cbv beta in Hf.
    rewrite Hs', Ho', Hns, Hno, !String.eqb_refl in Hf. discriminate Hf.
  - intros (Hinu & Hinv & before & r & after & -> & [Hs Ho] & Hrel & Hall).
    split; [reflexivity|]. apply Hiff.
    exists before, r, after. apply Hu in Hinu. apply Hv in Hinv.
    repeat split; auto.
    + rewrite Hs, Ho, Hinu, Hinv, !String.eqb_refl. reflexivity.
    + eapply Forall_impl; [|exact Hall]. intros r' Hnot. cbv beta.
      destruct (String.eqb_spec (r_subject r') u) as [Hs'|Hs'];
        [|rewrite andb_false_r; reflexivity].
      destruct (String.eqb_spec (r_object r') v) as [Ho'|Ho'];
        [|rewrite andb_false_r; reflexivity].
      exfalso. apply Hnot. split; assumption.
Qed.

Lemma explicit_edges_last_wins_witness :
  In (mkGraphEdge "John Smith" "Acme Corp" "joined" "joined")
     (gd_edges (build_graph [samples.acme; samples.john]
                  (Some [samples.works_at; samples.dangling]))).
Proof.
  apply (proj2 (explicit_edges_last_wins [samples.acme; samples.john]
                  [samples.works_at; samples.dangling]
                  ltac:(vm_compute; discriminate)
                  "John Smith" "Acme Corp" "joined")).
  split; [simpl; auto|]. split; [simpl; auto|].
  exists [], samples.works_at, [samples.dangling].
  repeat split.
  constructor; [|constructor]. intros [_ H]. discriminate H.
Defined.

End GraphExtras.

(* ================================================================== *)
(** * Properties of the graph queries *)
(* ================================================================== *)

Module query_facts.
Import nx nx_spec kg_spec nx_facts kg_facts kg_props extra_spec kg_queries kg_more.

Section Descending.
Context {A : Type} (key : A -> Q).

Let ge_key (a b : A) : Prop := key b <= key a.

Lemma insert_desc_perm x l : Permutation (x :: l) (insert_desc key x l).
Proof.
  induction l as [|y l IH]; simpl; [apply Permutation_refl|].
  destruct (Qle_bool (key y) (key x)); [apply Permutation_refl|].
  eapply perm_trans; [apply perm_swap|]. apply perm_skip. exact IH.
Qed.

Lemma sorted_desc_perm l : Permutation l (sorted_desc key l).
Proof.
  induction l as [|x l IH]; simpl; [apply perm_nil|].
  eapply perm_trans; [|apply insert_desc_perm]. apply perm_skip. exact IH.
Qed.

Lemma insert_desc_sorted x l :
  StronglySorted ge_key l -> StronglySorted ge_key (insert_desc key x l).
Proof.
  induction l as [|y l IH]; simpl; intros Hs.
  - constructor; constructor.
  - inversion Hs as [|? ? Hs' Hall]; subst.
    destruct (Qle_bool (key y) (key x)) eqn:Hle.
    + apply Qle_bool_iff in Hle.
      constructor; [exact Hs|]. constructor; [exact Hle|].
      eapply Forall_impl; [|exact Hall]. unfold ge_key. intros a Ha.
      eapply Qle_trans; [exact Ha | exact Hle].
    + assert (Hlt : key x <= key y).
      { destruct (Qlt_le_dec (key x) (key y)) as [H|H]; [apply Qlt_le_weak; exact H|].
        apply Qle_bool_iff in H. congruence. }
      constructor; [apply IH; exact Hs'|].
      apply (Permutation_Forall (insert_desc_perm x l)).
      constructor; [exact Hlt | exact Hall].
Qed.

Lemma sorted_desc_sorted l : StronglySorted ge_key (sorted_desc key l).
Proof.
  induction l as [|x l IH]; simpl; [constructor|].
  apply insert_desc_sorted. exact IH.
Qed.

End Descending.

Lemma slice_upto_prefix {A} n (l : list A) :
  exists rest, l = slice_upto n l ++ rest.
Proof.
  unfold slice_upto. destruct (0 <=? n)%Z;
    eexists; symmetry; apply firstn_skipn.
Qed.

Lemma node_attrs_some G k : In k (node_ids G) -> exists a, node_attrs G k = Some a.
Proof.
  unfold node_ids. induction G as [|[k0 d] G IH]; simpl; [tauto|].
  intros H. destruct (String.eqb_spec k0 k) as [Heq|Hne]; [eauto|].
  destruct H as [H|H]; [contradiction | auto].
Qed.

(** The row made of an entry of the centrality dict. *)
Lemma central_rows_some G l :
  (forall kc, In kc l -> In (fst kc) (node_ids G)) ->
  exists rows,
    central_rows G l = Some rows /\
    map (fun r => (ce_entity r, ce_centrality r)) rows = l /\
    Forall (fun r => ce_connections r = degree G (ce_entity r)) rows.
Proof.
  induction l as [|[k c] l IH]; simpl; intros Hin.
  - exists []. repeat split. constructor.
  - destruct (node_attrs_some G k (Hin (k, c) (or_introl eq_refl))) as [a Ha].
    rewrite Ha.
    destruct (IH (fun kc H => Hin kc (or_intror H))) as (rows & Hr & Hm & Hf).
    rewrite Hr. eexists. split; [reflexivity|]. simpl. split.
    + rewrite Hm. reflexivity.
    + constructor; [reflexivity | exact Hf].
Qed.

Lemma degree_centrality_ids G :
  map fst (degree_centrality G) = node_ids G.
Proof.
  unfold degree_centrality, node_ids.
  destruct (Nat.leb (length G) 1); rewrite map_map; reflexivity.
Qed.

(** ** Sets kept as lists *)

Lemma mem_In x l : mem x l = true <-> In x l.
Proof.
  induction l as [|y l IH]; simpl; [split; [discriminate | tauto]|].
  destruct (String.eqb_spec y x) as [Heq|Hne].
  - split; auto.
  - rewrite IH. split; [auto | intros [H|H]; [contradiction | exact H]].
Qed.

Lemma add_new_In seen l x : In x (add_new seen l) <-> In x seen \/ In x l.
Proof.
  unfold add_new. revert seen. induction l as [|y l IH]; simpl; intros seen.
  - tauto.
  - rewrite IH. destruct (mem y seen) eqn:Hm.
    + apply mem_In in Hm. split; [tauto|].
      intros [H|[H|H]]; subst; auto.
    + rewrite in_app_iff. simpl. tauto.
Qed.

Lemma add_new_NoDup seen l : NoDup seen -> NoDup (add_new seen l).
Proof.
  unfold add_new. revert seen. induction l as [|y l IH]; simpl; intros seen Hnd.
  - exact Hnd.
  - apply IH. destruct (mem y seen) eqn:Hm; [exact Hnd|].
    apply NoDup_app; [exact Hnd | repeat constructor; simpl; tauto |].
    intros a Ha [Hb|[]]. subst a.
    apply mem_In in Ha. congruence.
Qed.

(** ** Successors and walks *)

Lemma neighbors_none G n : has_node G n = false -> neighbors G n = None.
Proof.
  induction G as [|[k d] G IH]; simpl; [reflexivity|].
  destruct (String.eqb k n); [discriminate | exact IH].
Qed.

Lemma no_edges_from G n : ~ In n (node_ids G) -> targets_from G n = [].
Proof.
  intros Hn. unfold targets_from.
  induction G as [|[k d] G IH]; [reflexivity|].
  unfold edges in *. simpl. rewrite filter_app, map_app.
  unfold node_ids in Hn. simpl in Hn.
  rewrite IH by tauto. rewrite app_nil_r.
  assert (Hk : String.eqb k n = false) by (apply String.eqb_neq; tauto).
  clear - Hk. induction (succ d) as [|vr l IHl]; [reflexivity|].
  simpl. rewrite Hk. exact IHl.
Qed.

Lemma neighbors_edges G n :
  NoDup (node_ids G) -> has_node G n = true ->
  neighbors G n = Some (targets_from G n).
Proof.
  unfold node_ids. induction G as [|[k d] G IH]; simpl; [discriminate|].
  intros Hnd Hn. inversion Hnd as [|? ? Hnotin Hnd']; subst.
  unfold targets_from, edges in *. simpl. rewrite filter_app, map_app.
  destruct (String.eqb_spec k n) as [Heq|Hne].
  - subst k. fold (edges G). fold (targets_from G n).
    rewrite (no_edges_from G n Hnotin), app_nil_r.
    f_equal. clear. induction (succ d) as [|vr l IHl]; [reflexivity|].
    simpl. rewrite String.eqb_refl. simpl. f_equal. exact IHl.
  - rewrite (IH Hnd' Hn). f_equal.
    assert (Hk : String.eqb k n = false) by (apply String.eqb_neq; exact Hne).
    assert (Hnil : map (fun e : string * string * string => snd (fst e))
                     (filter (fun e => String.eqb (fst (fst e)) n)
                        (map (fun vr : string * string => (k, fst vr, snd vr))
                           (succ d))) = []).
    { clear - Hk. induction (succ d) as [|vr l IHl]; [reflexivity|].
      simpl. rewrite Hk. exact IHl. }
    rewrite Hnil. reflexivity.
Qed.

Lemma In_targets_from G m n :
  In n (targets_from G m) <-> exists r, In (m, n, r) (edges G).
Proof.
  unfold targets_from. rewrite in_map_iff. split.
  - intros [[[u v] r] [Heq Hin]]. simpl in Heq. subst v.
    apply filter_In in Hin. destruct Hin as [Hin Hu]. simpl in Hu.
    apply String.eqb_eq in Hu. subst u. eauto.
  - intros [r Hin]. exists (m, n, r). split; [reflexivity|].
    apply filter_In. split; [exact Hin|]. simpl. apply String.eqb_refl.
Qed.

Lemma walk_snoc G k u m v r :
  walk G k u m -> In (m, v, r) (edges G) -> walk G (S k) u v.
Proof.
  induction 1 as [u|k u m' v' r' He Hw IH]; intros Hlast.
  - eapply walk_step; [exact Hlast | constructor].
  - eapply walk_step; [exact He | apply IH; exact Hlast].
Qed.

Lemma walk_last G k u v :
  walk G (S k) u v -> exists m r, walk G k u m /\ In (m, v, r) (edges G).
Proof.
  revert u. induction k as [|k IH]; intros u Hw.
  - inversion Hw as [|? ? m ? r He Hw']; subst.
    inversion Hw'; subst. exists u, r. split; [constructor | exact He].
  - inversion Hw as [|? ? m ? r He Hw']; subst.
    destruct (IH m Hw') as (m' & r' & Hw'' & He').
    exists m', r'. split; [eapply walk_step; eassumption | exact He'].
Qed.

Lemma walk_node G k u v :
  closed G -> has_node G u = true -> walk G k u v -> has_node G v = true.
Proof.
  intros Hc Hu Hw. induction Hw as [u|k u m v r He Hw IH]; [exact Hu|].
  apply IH. apply (Hc u m r He).
Qed.

(** ** The breadth-first rounds *)

Lemma next_level_of_spec G cur acc :
  NoDup (node_ids G) ->
  (forall m, In m cur -> has_node G m = true) ->
  exists l,
    next_level_of G cur acc = Some l /\
    (forall n, In n l <->
               In n acc \/ exists m r, In m cur /\ In (m, n, r) (edges G)) /\
    (NoDup acc -> NoDup l).
Proof.
  intros Hnd. revert acc. induction cur as [|m cur IH]; simpl; intros acc Hcur.
  - exists acc. split; [reflexivity|]. split; [|auto].
    intros n. split; [auto|]. intros [H|(m & r & [] & _)]. exact H.
  - rewrite (neighbors_edges G m Hnd (Hcur m (or_introl eq_refl))).
    destruct (IH (add_new acc (targets_from G m))
                (fun m' H => Hcur m' (or_intror H))) as (l & Hl & Hin & Hnodup).
    exists l. split; [exact Hl|]. split.
    + intros n. rewrite Hin, add_new_In, In_targets_from. split.
      * intros [[H|[r H]]|(m' & r & Hm' & He)]; eauto 6.
      * intros [H|(m' & r & [Hm'|Hm'] & He)]; subst; eauto 6.
    + intros Hacc. apply Hnodup. apply add_new_NoDup. exact Hacc.
Qed.

Lemma levels_spec G entity rounds :
  NoDup (node_ids G) -> closed G -> has_node G entity = true ->
  forall j found cur,
    (forall n, In n cur <-> walk G j entity n) ->
    (forall n, In n found <->
               exists i, (1 <= i <= j)%nat /\ walk G i entity n) ->
    NoDup found ->
    exists found',
      levels G rounds found cur = Some found' /\
      (forall n, In n found' <->
                 exists i, (1 <= i <= j + rounds)%nat /\ walk G i entity n) /\
      NoDup found'.
Proof.
  intros Hnd Hc He. induction rounds as [|rounds IH]; simpl;
    intros j found cur Hcur Hfound Hnodup.
  - exists found. split; [reflexivity|]. split; [|exact Hnodup].
    intros n. rewrite Hfound. rewrite Nat.add_0_r. reflexivity.
  - destruct (next_level_of_spec G cur [] Hnd) as (next & Hnext & Hin & Hnn).
    { intros m Hm. apply Hcur in Hm. apply (walk_node G j entity m Hc He Hm). }
    rewrite Hnext.
    assert (Hnext_walk : forall n, In n next <-> walk G (S j) entity n).
    { intros n. rewrite Hin. split.
      - intros [[]|(m & r & Hm & Hedge)]. apply Hcur in Hm.
        eapply walk_snoc; eassumption.
      - intros Hw. right. apply walk_last in Hw.
        destruct Hw as (m & r & Hw & Hedge). exists m, r.
        split; [apply Hcur; exact Hw | exact Hedge]. }
    destruct (IH (S j) (add_new found next) next Hnext_walk) as (f' & Hf' & Hin' & Hnd').
    + intros n. rewrite add_new_In, Hfound, Hnext_walk. split.
      * intros [(i & Hi & Hw)|Hw]; [exists i; split; [lia | exact Hw]|].
        exists (S j). split; [lia | exact Hw].
      * intros (i & Hi & Hw).
        destruct (Nat.eq_dec i (S j)) as [->|Hne]; [right; exact Hw|].
        left. exists i. split; [lia | exact Hw].
    + apply add_new_NoDup. exact Hnodup.
    + exists f'. split; [exact Hf'|]. split; [|exact Hnd'].
      intros n. rewrite Hin'. replace (S j + rounds)%nat with (j + S rounds)%nat by lia.
      reflexivity.
Qed.

Lemma neighbor_rows_some G ids :
  self_labelled G ->
  (forall n, In n ids -> has_node G n = true) ->
  exists rows,
    neighbor_rows G ids = Some rows /\
    map nb_entity rows = ids /\
    Forall (fun d => nb_label d = nb_entity d) rows.
Proof.
  intros Hlab. induction ids as [|n ids IH]; simpl; intros Hall.
  - exists []. repeat split. constructor.
  - assert (Hn : In n (node_ids G))
      by (apply has_node_In; apply Hall; left; reflexivity).
    destruct (node_attrs_some G n Hn) as [a Ha]. rewrite Ha.
    destruct (IH (fun m H => Hall m (or_intror H))) as (rows & Hr & Hm & Hf).
    rewrite Hr. eexists. split; [reflexivity|]. simpl. split.
    + rewrite Hm. reflexivity.
    + constructor; [|exact Hf]. simpl.
      pose proof (Hlab n) as Hl. rewrite Ha in Hl. rewrite Hl. reflexivity.
Qed.

Lemma self_labelled_final entities relationships :
  self_labelled (final_graph entities relationships).
Proof.
  intros k. rewrite node_attrs_final. apply self_labelled_node_pass.
Qed.

End query_facts.

Section QueryExtras.
Import nx_spec kg_spec nx_facts kg_facts kg_props extra_spec kg_queries kg_more
  query_facts.

(** X6 -- Central entities.  On a graph with nodes, [get_central_entities]
    returns rows taken from the degree-centrality dict, each with the
    node's degree as 'connections', in non-increasing centrality; a node
    left out is at most as central as every row returned.  For
    [top_n >= 0] there are [min(top_n, number of nodes)] rows; a negative
    [top_n] drops that many rows from the end of the ranking.  Before any
    graph is built, or on a graph without nodes, the answer is empty. *)
Theorem central_entities_ranked (G : nx.DiGraph) (top_n : Z) :
  let ranked := get_central_entities (Some G) top_n in
  let listed := map (fun r => (ce_entity r, ce_centrality r)) ranked in
  get_central_entities None top_n = [] /\
  (G = [] -> ranked = []) /\
  (G <> [] ->
   StronglySorted (fun a b => ce_centrality b <= ce_centrality a) ranked /\
   Forall (fun r => In (ce_entity r, ce_centrality r) (degree_centrality G) /\
                    ce_connections r = nx.degree G (ce_entity r)) ranked /\
   (forall m c, In (m, c) (degree_centrality G) -> ~ In (m, c) listed ->
                Forall (fun r => c <= ce_centrality r) ranked) /\
   ((0 <= top_n)%Z -> length ranked = Nat.min (Z.to_nat top_n) (length G)) /\
   ((top_n < 0)%Z -> length ranked = (length G - Z.to_nat (- top_n))%nat)).
Proof.
  intros ranked listed. split; [reflexivity|].
  split; [intros ->; reflexivity|].
  intros Hne. subst listed ranked.
  destruct G as [|kd0 G0]; [contradiction|].
  set (G := kd0 :: G0) in *.
  unfold get_central_entities.
  change (negb (graph_truthy (Some G)) || Nat.eqb (nx.number_of_nodes G) 0)%bool
    with false. cbv iota.
  set (full := sorted_desc snd (degree_centrality G)).
  destruct (slice_upto_prefix top_n full) as [rest Hsplit].
  assert (Hperm : Permutation (degree_centrality G) full)
    by apply sorted_desc_perm.
  assert (Hsorted : StronglySorted (fun a b : string * Q => snd b <= snd a) full)
    by apply (sorted_desc_sorted snd).
  destruct (central_rows_some G (slice_upto top_n full)) as (rows & Hr & Hm & Hf).
  { intros kc Hin. rewrite <- degree_centrality_ids. apply in_map.
    apply (Permutation_in _ (Permutation_sym Hperm)).
    rewrite Hsplit. apply in_or_app. left. exact Hin. }
  rewrite Hr.
  assert (Hlen : length rows = length (slice_upto top_n full)).
  { rewrite <- Hm. rewrite length_map. reflexivity. }
  assert (Hfull : length full = length G).
  { rewrite <- (Permutation_length Hperm). unfold degree_centrality.
    destruct (Nat.leb (length G) 1); apply length_map. }
  rewrite Hsplit in Hsorted.
  split; [|split; [|split; [|split]]].
  - clear - Hsorted Hm.
    assert (Hpre : StronglySorted (fun a b : string * Q => snd b <= snd a)
                     (slice_upto top_n full)).
    { clear Hm. induction (slice_upto top_n full) as [|a l IH]; [constructor|].
      simpl in Hsorted. inversion Hsorted as [|? ? Hs Hall]; subst.
      constructor; [apply IH; exact Hs|].
      apply Forall_app in Hall. apply Hall. }
    rewrite <- Hm in Hpre. clear Hm Hsorted.
    induction rows as [|r rows IH]; [constructor|].
    simpl in Hpre. inversion Hpre as [|? ? Hs Hall]; subst.
    constructor; [apply IH; exact Hs|].
    rewrite Forall_map in Hall. exact Hall.
  - apply Forall_forall. intros r Hin. split.
    + apply (Permutation_in _ (Permutation_sym Hperm)).
      rewrite Hsplit. apply in_or_app. left. rewrite <- Hm.
      apply (in_map (fun r => (ce_entity r, ce_centrality r))). exact Hin.
    + rewrite Forall_forall in Hf. apply Hf. exact Hin.
  - intros m c Hin Hnot.
    apply (Permutation_in _ Hperm) in Hin. rewrite Hsplit in Hin.
    apply in_app_or in Hin. rewrite Hm in Hnot.
    destruct Hin as [Hin|Hin]; [contradiction|].
    assert (Hdom : Forall (fun a : string * Q => c <= snd a) (slice_upto top_n full)).
    { clear - Hsorted Hin.
      induction (slice_upto top_n full) as [|a l IH]; [constructor|].
      simpl in Hsorted. inversion Hsorted as [|? ? Hs Hall]; subst.
      constructor; [|apply IH; exact Hs].
      rewrite Forall_forall in Hall.
      apply (Hall (m, c)). apply in_or_app. right. exact Hin. }
    rewrite <- Hm in Hdom. rewrite Forall_map in Hdom. exact Hdom.
  - intros Hpos. rewrite Hlen. unfold slice_upto.
    apply Z.leb_le in Hpos. rewrite Hpos. rewrite length_firstn, Hfull.
    reflexivity.
  - intros Hneg. rewrite Hlen. unfold slice_upto.
    apply Z.leb_gt in Hneg. rewrite Hneg. rewrite length_firstn, Hfull.
    apply Nat.min_l. lia.
Qed.

Lemma central_entities_ranked_witness :
  length (get_central_entities
            (Some (final_graph [samples.acme; samples.john] None)) 1) =
  Nat.min (Z.to_nat 1) 2.
Proof.
  apply (proj2 (proj2 (central_entities_ranked
                         (final_graph [samples.acme; samples.john] None) 1))).
  - vm_compute. discriminate.
  - lia.
Defined.

(** X7 -- Direct neighbours.  After [build_graph], [get_entity_neighbors]
    with depth 1 lists the targets of the edges that leave the entity, in
    edge order (the entity itself included when it has a self-loop); 'count'
    is their number and each is labelled with its own text.  The answer is
    empty when the entity is not a node. *)
Theorem entity_neighbors_direct
  (entities : list Entity) (relationships : option (list Relationship))
  (entity : string) :
  let G := final_graph entities relationships in
  let answer := get_entity_neighbors (Some G) entity 1 in
  map nb_entity (nb_neighbors answer) = targets_from G entity /\
  nb_count answer = length (nb_neighbors answer) /\
  Forall (fun d => nb_label d = nb_entity d /\
                   In (nb_entity d) (map e_text entities))
         (nb_neighbors answer).
Proof.
  intros G answer. subst answer.
  pose proof (inv_final entities relationships) as Hinv.
  destruct Hinv as (Hk & Hc & Hids). fold G in Hk, Hc, Hids.
  destruct Hk as [Hnd _].
  unfold get_entity_neighbors.
  destruct (nx.has_node G entity) eqn:Hn.
  - assert (Htruthy : graph_truthy (Some G) = true).
    { destruct G; [discriminate Hn | reflexivity]. }
    rewrite Htruthy. cbn [negb orb].
    unfold neighbor_ids. cbn [Z.eqb Pos.eqb].
    rewrite (neighbors_edges G entity Hnd Hn).
    destruct (neighbor_rows_some G (targets_from G entity)
                (self_labelled_final entities relationships))
      as (rows & Hr & Hm & Hf).
    { intros n Hin. apply In_targets_from in Hin. destruct Hin as [r He].
      apply (Hc entity n r He). }
    fold G in Hr. rewrite Hr. cbn [nb_neighbors nb_count].
    split; [exact Hm|]. split; [reflexivity|].
    apply Forall_forall. intros d Hd. split.
    + rewrite Forall_forall in Hf. apply Hf. exact Hd.
    + apply (in_map nb_entity) in Hd. rewrite Hm in Hd.
      apply In_targets_from in Hd. destruct Hd as [r He].
      apply node_ids_add_entity_nodes. rewrite <- Hids.
      apply has_node_In. apply (Hc entity _ r He).
  - rewrite orb_true_r. cbn [nb_neighbors nb_count no_neighbors map length].
    split; [|split; [reflexivity | constructor]].
    symmetry. apply no_edges_from. apply has_node_false. exact Hn.
Qed.

(** X8 -- Neighbours within a depth.  After [build_graph],
    [get_entity_neighbors] with a depth other than 1 answers with exactly
    the nodes, other than the entity, that a walk of at least 1 and at most
    [depth] edges reaches from the entity, each once; a depth of 0 or less
    gives the empty answer. *)
Theorem entity_neighbors_within
  (entities : list Entity) (relationships : option (list Relationship))
  (entity : string) (depth : Z) :
  depth <> 1%Z ->
  let G := final_graph entities relationships in
  let answer := get_entity_neighbors (Some G) entity depth in
  (forall n,
     In n (map nb_entity (nb_neighbors answer)) <->
     n <> entity /\
     exists k, (1 <= k <= Z.to_nat depth)%nat /\ walk G k entity n) /\
  NoDup (map nb_entity (nb_neighbors answer)) /\
  nb_count answer = length (nb_neighbors answer).
Proof.
  intros Hdepth G answer. subst answer.
  pose proof (inv_final entities relationships) as Hinv.
  destruct Hinv as (Hk & Hc & Hids). fold G in Hk, Hc, Hids.
  destruct Hk as [Hnd _].
  unfold get_entity_neighbors.
  destruct (nx.has_node G entity) eqn:Hn.
  - assert (Htruthy : graph_truthy (Some G) = true).
    { destruct G; [discriminate Hn | reflexivity]. }
    rewrite Htruthy. cbn [negb orb].
    unfold neighbor_ids. apply Z.eqb_neq in Hdepth. rewrite Hdepth.
    destruct (levels_spec G entity (Z.to_nat depth) Hnd Hc Hn 0 [] [entity])
      as (found & Hfound & Hin & Hnodup).
    { intros n. split.
      - intros [<-|[]]. constructor.
      - intros Hw. inversion Hw; subst. left. reflexivity. }
    { intros n. split; [intros [] | intros (i & Hi & _); lia]. }
    { constructor. }
    rewrite Hfound.
    set (ids := filter (fun n => negb (String.eqb n entity)) found).
    destruct (neighbor_rows_some G ids
                (self_labelled_final entities relationships))
      as (rows & Hr & Hm & Hf).
    { intros n Hn'. unfold ids in Hn'. apply filter_In in Hn'.
      destruct Hn' as [Hn' _]. apply Hin in Hn'.
      destruct Hn' as (i & _ & Hw). apply (walk_node G i entity n Hc Hn Hw). }
    fold G in Hr. rewrite Hr. cbn [nb_neighbors nb_count].
    rewrite Hm. split; [|split; [|reflexivity]].
    + intros n. unfold ids. rewrite filter_In, Hin. simpl. split.
      * intros [Hex Hne]. split; [|exact Hex].
        intros ->. rewrite String.eqb_refl in Hne. discriminate Hne.
      * intros [Hne Hex]. split; [exact Hex|].
        apply String.eqb_neq in Hne. rewrite Hne. reflexivity.
    + unfold ids. apply NoDup_filter. exact Hnodup.
  - rewrite orb_true_r. cbn [nb_neighbors nb_count no_neighbors map length].
    split; [|split; [constructor | reflexivity]].
    intros n. split; [intros []|].
    intros [_ (k & Hk & Hw)]. destruct k as [|k]; [lia|].
    inversion Hw as [|? ? m ? r He Hw']; subst.
    apply Hc in He. destruct He as [He _]. congruence.
Qed.

Lemma entity_neighbors_within_witness :
  NoDup (map nb_entity
           (nb_neighbors
              (get_entity_neighbors
                 (Some (final_graph [samples.acme; samples.john] None))
                 "John Smith" 2))).
Proof.
  apply (entity_neighbors_within [samples.acme; samples.john] None
           "John Smith" 2).
  discriminate.
Defined.

End QueryExtras.

(* ================================================================== *)
(** * Further properties of the engine, the cache and the store *)
(* ================================================================== *)

Module engine_more.
Import engine_spec engine_facts extra_spec.

Lemma bind_ok {A B} (m : M A) (k : A -> M B) w a w1 :
  m w = (Ok a, w1) -> bind m k w = k a w1.
Proof. intros H. unfold bind. rewrite H. reflexivity. Qed.

Lemma bind_raise {A B} (m : M A) (k : A -> M B) w e w1 :
  m w = (Raise e, w1) -> bind m k w = (Raise e, w1).
Proof. intros H. unfold bind. rewrite H. reflexivity. Qed.

Lemma text_statistics_returns t : exists st, _calculate_text_statistics t = Ok st.
Proof.
  unfold _calculate_text_statistics.
  pose proof (statistics_facts.length_split_on full_stop t) as Hlen.
  destruct (split_on full_stop t) as [|piece pieces]; [discriminate Hlen|].
  cbn [nonempty].
  rewrite (statistics_facts.truediv_ok (length (split t)) (length (piece :: pieces)))
    by (simpl; lia).
  destruct (split t) as [|word words].
  - cbn [nonempty result_bind]. eauto.
  - cbn [nonempty]. rewrite !statistics_facts.truediv_ok by (simpl; lia).
    cbn [result_bind]. eauto.
Qed.


(** ** Steps of the store *)

Lemma stored_refl w : stored w w [] [] (fun ds => ds).
Proof. unfold stored. rewrite !app_nil_r. repeat split. Qed.

Lemma stored_trans w w1 w2 rows1 docs1 upd1 rows2 docs2 upd2 :
  stored w w1 rows1 docs1 upd1 -> stored w1 w2 rows2 docs2 upd2 ->
  stored w w2 (rows1 ++ rows2) (docs1 ++ docs2) (fun ds => upd2 (upd1 ds)).
Proof.
  unfold stored.
  intros (A1 & A2 & A3 & A4 & A5 & A6 & A7 & A8 & A9)
         (B1 & B2 & B3 & B4 & B5 & B6 & B7 & B8 & B9).
  rewrite B1, B2, B3, B4, B5, B6, B7, B8, B9, A1, A2, A3, A4, A5, A6, A7, A8, A9.
  rewrite !app_assoc. repeat split.
Qed.

Lemma utcnow_stored w :
  exists now w', utcnow w = (Ok now, w') /\ stored w w' [] [] (fun ds => ds).
Proof.
  unfold utcnow. destruct (clock w) as [|now later].
  - exists 0%N, w. split; [reflexivity | apply stored_refl].
  - exists now, (with_clock later w). split; [reflexivity|].
    unfold stored. cbn. rewrite !app_nil_r. repeat split.
Qed.

Lemma entity_rows_stored id l w :
  exists rows w',
    for_each (entity_row id) l w = (Ok rows, w') /\
    stored w w' [] [] (fun ds => ds) /\
    map entity_text rows = map e_text l /\
    Forall (fun row => er_document_id row = id) rows.
Proof.
  revert w. induction l as [|e l IH]; intros w.
  - exists [], w. split; [reflexivity|]. split; [apply stored_refl|].
    split; [reflexivity | constructor].
  - destruct (utcnow_stored w) as (now & w1 & Hnow & S1).
    destruct (IH w1) as (rows & w2 & Hrows & S2 & Hmap & Hall).
    eexists. exists w2. split.
    + simpl. unfold entity_row at 1.
      unfold bind at 1. unfold bind at 1. rewrite Hnow. unfold ret at 1.
      unfold bind. rewrite Hrows. reflexivity.
    + split; [apply (stored_trans _ _ _ _ _ _ _ _ _ S1 S2)|].
      split; [simpl; rewrite Hmap; reflexivity|].
      constructor; [reflexivity | exact Hall].
Qed.

Lemma operation_healthy w : db_faults w = [] -> mongodb.operation w = (Ok tt, w).
Proof. intros H. unfold mongodb.operation. rewrite H. reflexivity. Qed.

Lemma insert_entities_healthy rows w :
  db_faults w = [] ->
  exists w', mongodb.insert_entities rows w = (Ok tt, w') /\
             stored w w' rows [] (fun ds => ds).
Proof.
  intros H. unfold mongodb.insert_entities. destruct rows as [|row rows].
  - exists w. split; [reflexivity | apply stored_refl].
  - cbn [nonempty]. eexists. split.
    + unfold bind. rewrite (operation_healthy w H). reflexivity.
    + unfold stored. cbn. rewrite !app_nil_r. repeat split.
Qed.

Lemma insert_analysis_healthy a w :
  db_faults w = [] ->
  exists w', mongodb.insert_analysis a w = (Ok tt, w') /\
             stored w w' [] [a] (fun ds => ds).
Proof.
  intros H. unfold mongodb.insert_analysis. eexists. split.
  - unfold bind. rewrite (operation_healthy w H). reflexivity.
  - unfold stored. cbn. rewrite !app_nil_r. repeat split.
Qed.

Lemma update_document_healthy id u w :
  db_faults w = [] ->
  exists w', mongodb.update_document id u w = (Ok tt, w') /\
             stored w w' [] [] (mongodb.update_one id u).
Proof.
  intros H. unfold mongodb.update_document. eexists. split.
  - unfold bind. rewrite (operation_healthy w H). reflexivity.
  - unfold stored. cbn. rewrite !app_nil_r. repeat split.
Qed.

Lemma stored_faults w w' rows docs upd :
  stored w w' rows docs upd -> db_faults w = [] -> db_faults w' = [].
Proof. intros (_ & _ & _ & _ & _ & _ & H & _) H0. congruence. Qed.

(** With a store that answers, [_save_analysis_results] writes one row per
    entity, then the analysis document, then the status of the document. *)
Lemma save_healthy id results w :
  db_faults w = [] ->
  exists rows now now' w',
    _save_analysis_results id results w = (Ok tt, w') /\
    stored w w' rows [analysis_doc id results now]
      (mongodb.update_one id
         (mkDocumentUpdate (Some "completed") None (Some now'))) /\
    map entity_text rows = map e_text (read_routes.entities_data results) /\
    Forall (fun row => er_document_id row = id) rows.
Proof.
  intros H0. unfold _save_analysis_results, try_except.
  assert (Hfirst : exists rows w1,
             (match entities results with
              | Some ner =>
                  match ner_entities ner with
                  | Some (e :: es) =>
                      entities_to_save <- for_each (entity_row id) (e :: es) ;;
                      mongodb.insert_entities entities_to_save
                  | _ => ret tt
                  end
              | None => ret tt
              end) w = (Ok tt, w1) /\
             stored w w1 rows [] (fun ds => ds) /\
             map entity_text rows = map e_text (read_routes.entities_data results) /\
             Forall (fun row => er_document_id row = id) rows).
  { unfold read_routes.entities_data, entities_of.
    destruct (entities results) as [ner|];
      [|exists [], w; split; [reflexivity|]; split; [apply stored_refl|];
        split; [reflexivity | constructor]].
    destruct (ner_entities ner) as [[|e es]|];
      try (exists [], w; split; [reflexivity|]; split; [apply stored_refl|];
           split; [reflexivity | constructor]).
    destruct (entity_rows_stored id (e :: es) w) as (rows & w1 & Hr & S1 & Hm & Ha).
    destruct (insert_entities_healthy rows w1 (stored_faults _ _ _ _ _ S1 H0))
      as (w2 & Hins & S2).
    exists rows, w2. split; [rewrite (bind_ok _ _ _ _ _ Hr); exact Hins|].
    split; [exact (stored_trans _ _ _ _ _ _ _ _ _ S1 S2)|]. auto. }
  destruct Hfirst as (rows & w1 & Hfirst & S1 & Hm & Ha).
  destruct (utcnow_stored w1) as (now & w2 & Hnow & S2).
  pose proof (stored_trans _ _ _ _ _ _ _ _ _ S1 S2) as S12.
  destruct (insert_analysis_healthy (analysis_doc id results now) w2
              (stored_faults _ _ _ _ _ S12 H0)) as (w3 & Hins & S3).
  pose proof (stored_trans _ _ _ _ _ _ _ _ _ S12 S3) as S123.
  destruct (utcnow_stored w3) as (now' & w4 & Hnow' & S4).
  pose proof (stored_trans _ _ _ _ _ _ _ _ _ S123 S4) as S1234.
  destruct (update_document_healthy id
              (mkDocumentUpdate (Some "completed") None (Some now')) w4
              (stored_faults _ _ _ _ _ S1234 H0)) as (w5 & Hupd & S5).
  pose proof (stored_trans _ _ _ _ _ _ _ _ _ S1234 S5) as Sall.
  exists rows, now, now', w5. split.
  - rewrite (bind_ok _ _ _ _ _ Hfirst), (bind_ok _ _ _ _ _ Hnow).
    fold (analysis_doc id results now).
    rewrite (bind_ok _ _ _ _ _ Hins), (bind_ok _ _ _ _ _ Hnow'), Hupd.
    reflexivity.
  - split; [|auto]. rewrite !app_nil_r in Sall. simpl in Sall. exact Sall.
Qed.

Lemma keeps_set {X} (f : World -> X) key value expire :
  (forall fs w, f (with_redis_faults fs w) = f w) ->
  (forall ks w, f (with_redis_keys ks w) = f w) ->
  keeps f (redis_client.set key value expire).
Proof.
  intros Hf Hk w. unfold redis_client.set, redis_client.command_fails.
  destruct (redis_is_connected w); simpl; [|reflexivity].
  destruct (redis_faults w) as [|[|] fs]; simpl;
    rewrite ?Hk, ?Hf; reflexivity.
Qed.

(** [analyze_document] as a whole leaves alone what neither the clock, the
    trace, the cache nor the store carries. *)
Lemma stages_then_handler_keep {X} (f : World -> X) models id t force w w0 e w1 :
  (forall fs w, f (with_redis_faults fs w) = f w) ->
  (forall c w, f (with_clock c w) = f w) ->
  (forall tr w, f (with_trace tr w) = f w) ->
  cache_check id force w = (Ok None, w0) ->
  analysis_stages models id t w0 = (Raise e, w1) ->
  f (snd (analyze_document models id t force w)) = f w.
Proof.
  intros Hf Hc Ht Hcheck Hs.
  rewrite (analyze_document_failed models id t force w w0 e w1 Hcheck Hs).
  destruct (on_error_returns id e w1) as (now & w' & -> & Hnow). simpl.
  pose proof (keeps_cache_check f id force Hf w) as K0.
  pose proof (keeps_analysis_stages f Hc Ht models id t w0) as K1.
  pose proof (keeps_utcnow f Hc w1) as K2.
  rewrite Hcheck in K0. rewrite Hs in K1. rewrite Hnow in K2.
  simpl in *. congruence.
Qed.

Lemma cache_check_disconnected id force w :
  redis_is_connected w = false -> cache_check id force w = (Ok None, w).
Proof.
  intros H. unfold cache_check. destruct (negb force); [|reflexivity].
  unfold redis_client.get_cached_analysis, redis_client.get. rewrite H.
  reflexivity.
Qed.

Lemma stages_return models id t w :
  analyzers_return models t ->
  exists results w1, analysis_stages models id t w = (Ok results, w1).
Proof.
  intros ([r1 H1] & [r2 H2] & [r3 H3] & [r4 H4] & [r5 H5] & [r6 H6] & [r7 H7] & H8).
  destruct (text_statistics_returns t) as [st Hst].
  unfold analysis_stages, bind, invoke, ret, utcnow.
  rewrite H1, H2, H3, H4, H5, H6, H7, Hst.
  destruct (clock w);
    (destruct (category r3) as [[|c0 c]|]; cbn [truthy_str];
     [ | destruct (H8 (String c0 c)) as [md ->] | ]); eauto.
Qed.

(** ** Documents *)

Lemma lookup_update_one id u docs id' :
  redis_client.lookup id' (mongodb.update_one id u docs) =
  if String.eqb id id'
  then option_map (mongodb.apply_update u) (redis_client.lookup id' docs)
  else redis_client.lookup id' docs.
Proof.
  induction docs as [|[k d] docs IH]; simpl.
  - destruct (String.eqb id id'); reflexivity.
  - destruct (String.eqb_spec k id) as [Hk|Hk]; simpl.
    + subst k. destruct (String.eqb id id'); reflexivity.
    + rewrite IH. destruct (String.eqb_spec k id') as [Hk'|Hk']; [|reflexivity].
      subst k. apply String.eqb_neq in Hk. rewrite String.eqb_sym, Hk.
      reflexivity.
Qed.

(** ** A run that completes *)

Lemma completed_run_effect models id t force w w0 results w1 :
  cache_check id force w = (Ok None, w0) ->
  analysis_stages models id t w0 = (Ok results, w1) ->
  db_faults w = [] ->
  exists rows now now' w2 b w3,
    stored w1 w2 rows [analysis_doc id results now]
      (mongodb.update_one id
         (mkDocumentUpdate (Some "completed") None (Some now'))) /\
    map entity_text rows = map e_text (read_routes.entities_data results) /\
    Forall (fun row => er_document_id row = id) rows /\
    redis_client.cache_analysis id "complete" results w2 = (Ok b, w3) /\
    analyze_document models id t force w = (Ok results, w3) /\
    (forall X (f : World -> X),
        (forall fs w, f (with_redis_faults fs w) = f w) ->
        (forall c w, f (with_clock c w) = f w) ->
        (forall tr w, f (with_trace tr w) = f w) ->
        f w1 = f w).
Proof.
  intros Hcheck Hs H0.
  assert (Hk : forall X (f : World -> X),
             (forall fs w, f (with_redis_faults fs w) = f w) ->
             (forall c w, f (with_clock c w) = f w) ->
             (forall tr w, f (with_trace tr w) = f w) ->
             f w1 = f w).
  { intros X f Hf Hc Ht.
    pose proof (keeps_cache_check f id force Hf w) as K0.
    pose proof (keeps_analysis_stages f Hc Ht models id t w0) as K1.
    rewrite Hcheck in K0. rewrite Hs in K1. simpl in *. congruence. }
  assert (H1 : db_faults w1 = []).
  { rewrite (Hk _ db_faults); auto. }
  destruct (save_healthy id results w1 H1)
    as (rows & now & now' & w2 & Hsave & Hst & Hm & Ha).
  destruct (analyze_document_completed models id t force w w0 results w1
              Hcheck Hs) as (w2' & b & w3 & Hsave' & Hset & Hdone).
  rewrite Hsave in Hsave'. injection Hsave' as <-.
  exists rows, now, now', w2, b, w3. auto 10.
Qed.

(** ** The route of a request that is accepted *)

Lemma analyze_route_accepts request w doc c t :
  db_faults w = [] ->
  redis_client.lookup (req_document_id request) (db_documents w) = Some doc ->
  text_content doc = Some (c :: t) ->
  analyze_route request w =
  (Ok (mkAnalyzeResponse true "Analysis started" (req_document_id request)
         "processing"),
   with_background_tasks
     (background_tasks w ++
      [run_analysis (req_document_id request) (c :: t) (req_force request)])
     (with_db_documents
        (mongodb.update_one (req_document_id request)
           (mkDocumentUpdate (Some "processing") None None) (db_documents w))
        w)).
Proof.
  intros H0 Hdoc Htext.
  unfold analyze_route, try_except, bind, mongodb.get_document,
    mongodb.update_document, add_task, ret, bind.
  rewrite (operation_healthy w H0). rewrite Hdoc, Htext.
  rewrite (operation_healthy w H0). reflexivity.
Qed.

(** The request once accepted: the response, and the world in which the
    background task runs. *)
Lemma serve_analyze_accepts models request w doc c t :
  db_faults w = [] ->
  redis_client.lookup (req_document_id request) (db_documents w) = Some doc ->
  text_content doc = Some (c :: t) ->
  serve_analyze models request w =
  (Ok (mkAnalyzeResponse true "Analysis started" (req_document_id request)
         "processing"),
   snd (analyze_document models (req_document_id request) (c :: t)
          (req_force request)
          (with_db_documents
             (mongodb.update_one (req_document_id request)
                (mkDocumentUpdate (Some "processing") None None)
                (db_documents w))
             (with_background_tasks [] w)))).
Proof.
  intros H0 Hdoc Htext.
  pose proof (analyze_route_accepts request (with_background_tasks [] w) doc c t
                H0 Hdoc Htext) as Hroute.
  unfold serve_analyze. rewrite Hroute.
  cbn [background_tasks with_background_tasks with_db_documents app].
  unfold run_tasks, run_task. rewrite run_analysis_task_is_analyze.
  reflexivity.
Qed.

End engine_more.

Section EngineExtras.
Import engine_spec engine_facts extra_spec engine_more.

Variable models : Models.

(** X9 -- The engine never raises.  Whatever the analyzers, the cache and
    the store do, [analyze_document] returns a record: the cached one, one
    tagged 'completed', or one tagged 'failed'.  [run_analysis_task]
    therefore never enters its [except] branch: it does what
    [analyze_document] does and nothing more. *)
Theorem analysis_never_raises (id : string) (t : text) (force : bool) (w : World) :
  (exists r w',
     analyze_document models id t force w = (Ok r, w') /\
     (cache_check id force w = (Ok (Some r), w') \/
      status r = Some "completed" \/ status r = Some "failed")) /\
  run_analysis_task models id t force w =
    (Ok tt, snd (analyze_document models id t force w)).
Proof.
  split; [|apply run_analysis_task_is_analyze].
  destruct (cache_check_returns id force w) as ([c|] & w0 & Hc).
  - exists c, w0. split; [apply analyze_document_hit; exact Hc | left; exact Hc].
  - destruct (analysis_stages models id t w0) as [[results|e] w1] eqn:Hs.
    + destruct (analyze_document_completed _ _ _ _ _ _ _ _ Hc Hs)
        as (w2 & b & w3 & _ & _ & Hdone).
      exists results, w3. split; [exact Hdone|]. right. left.
      apply (analysis_stages_completed models id t w0 results w1 Hs).
    + rewrite (analyze_document_failed _ _ _ _ _ _ _ _ Hc Hs).
      destruct (on_error_returns id e w1) as (now & w' & -> & _).
      eexists. eexists. split; [reflexivity|]. right. right. reflexivity.
Qed.


(** X11 -- What a completed run persists.  When the stages return and the
    store answers every call, [analyze_document] appends one row per entity
    of the result (same texts, same order, tagged with the document id),
    appends one analysis document of type 'complete' holding the sentiment,
    classification, statistics and structure of the result, and sets the
    document's status to 'completed'. *)
Theorem completed_run_persists
  (id : string) (t : text) (force : bool) (w w0 w1 : World) (results : Analysis) :
  cache_check id force w = (Ok None, w0) ->
  analysis_stages models id t w0 = (Ok results, w1) ->
  db_faults w = [] ->
  exists rows now now' w',
    analyze_document models id t force w = (Ok results, w') /\
    db_entities w' = db_entities w ++ rows /\
    map entity_text rows = map e_text (read_routes.entities_data results) /\
    Forall (fun row => er_document_id row = id) rows /\
    db_analysis w' = db_analysis w ++ [analysis_doc id results now] /\
    db_documents w' =
      mongodb.update_one id
        (mkDocumentUpdate (Some "completed") None (Some now'))
        (db_documents w).
Proof.
  intros Hcheck Hs H0.
  destruct (completed_run_effect models id t force w w0 results w1 Hcheck Hs H0)
    as (rows & now & now' & w2 & b & w3 & Hst & Hm & Ha & Hset & Hdone & Hk).
  exists rows, now, now', w3. split; [exact Hdone|].
  assert (Hk3 : forall X (f : World -> X),
             (forall fs w, f (with_redis_faults fs w) = f w) ->
             (forall ks w, f (with_redis_keys ks w) = f w) ->
             f w3 = f w2).
  { intros X f Hf Hks.
    pose proof (keeps_set f (redis_client.analysis_key id "complete") results
                  7200%N Hf Hks w2) as K.
    unfold redis_client.cache_analysis in Hset. rewrite Hset in K. exact K. }
  destruct Hst as (_ & _ & _ & Hdocs & Hents & Hana & _).
  rewrite (Hk3 _ db_entities), (Hk3 _ db_analysis), (Hk3 _ db_documents); auto.
  rewrite Hents, Hana, Hdocs.
  rewrite (Hk _ db_entities), (Hk _ db_analysis), (Hk _ db_documents); auto.
Qed.

(** X12 -- A failed run writes nothing.  When a stage raises,
    [analyze_document] calls neither the store nor the cache's [set]: the
    key space of the cache (an analysis cached earlier included), the
    documents and their statuses, and the store's pending faults are as
    before the run. *)
Theorem failed_run_writes_nothing
  (id : string) (t : text) (force : bool) (w w0 w1 : World) (e : exn) :
  cache_check id force w = (Ok None, w0) ->
  analysis_stages models id t w0 = (Raise e, w1) ->
  redis_keys (snd (analyze_document models id t force w)) = redis_keys w /\
  db_documents (snd (analyze_document models id t force w)) = db_documents w /\
  db_faults (snd (analyze_document models id t force w)) = db_faults w /\
  background_tasks (snd (analyze_document models id t force w)) =
    background_tasks w.
Proof.
  intros Hcheck Hs.
  repeat split;
    apply (stages_then_handler_keep _ models id t force w w0 e w1);
    auto.
Qed.

(** X13 -- Without Redis.  When the cache is not connected, [force] makes
    no difference to [analyze_document]: every call runs the analyzers, and
    the run leaves the key space as it was. *)
Theorem cache_disconnected (id : string) (t : text) (force : bool) (w : World) :
  redis_is_connected w = false ->
  analyze_document models id t force w = analyze_document models id t true w /\
  redis_keys (snd (analyze_document models id t force w)) = redis_keys w.
Proof.
  intros Hd.
  pose proof (cache_check_disconnected id force w Hd) as Hc.
  pose proof (cache_check_disconnected id true w Hd) as Hct.
  assert (Heq : analyze_document models id t force w =
                analyze_document models id t true w).
  { destruct (analysis_stages models id t w) as [[results|e] w1] eqn:Hs.
    - destruct (analyze_document_completed models id t force w w results w1 Hc Hs)
        as (w2 & b & w3 & Hsave & Hset & ->).
      destruct (analyze_document_completed models id t true w w results w1 Hct Hs)
        as (w2' & b' & w3' & Hsave' & Hset' & ->).
      rewrite Hsave in Hsave'. injection Hsave' as <-.
      rewrite Hset in Hset'. injection Hset' as <- <-. reflexivity.
    - rewrite (analyze_document_failed models id t force w w e w1 Hc Hs).
      rewrite (analyze_document_failed models id t true w w e w1 Hct Hs).
      reflexivity. }
  split; [exact Heq|].
  destruct (analysis_stages models id t w) as [[results|e] w1] eqn:Hs.
  - destruct (analyze_document_completed models id t force w w results w1 Hc Hs)
      as (w2 & b & w3 & Hsave & Hset & ->). simpl.
    pose proof (keeps_analysis_stages redis_is_connected
                  (fun _ _ => eq_refl) (fun _ _ => eq_refl) models id t w) as K1.
    pose proof (keeps_save redis_is_connected
                  (fun _ _ => eq_refl) (fun _ _ => eq_refl)
                  (fun _ _ => eq_refl) (fun _ _ => eq_refl)
                  (fun _ _ => eq_refl) id results w1) as K2.
    pose proof (keeps_analysis_stages redis_keys
                  (fun _ _ => eq_refl) (fun _ _ => eq_refl) models id t w) as K3.
    pose proof (keeps_save redis_keys
                  (fun _ _ => eq_refl) (fun _ _ => eq_refl)
                  (fun _ _ => eq_refl) (fun _ _ => eq_refl)
                  (fun _ _ => eq_refl) id results w1) as K4.
    rewrite Hs in K1, K3. rewrite Hsave in K2, K4. simpl in *.
    unfold redis_client.cache_analysis, redis_client.set in Hset.
    assert (Hd2 : redis_is_connected w2 = false) by congruence.
    rewrite Hd2 in Hset. simpl in Hset. injection Hset as _ <-. congruence.
  - apply (stages_then_handler_keep _ models id t force w w e w1); auto.
Qed.

(** X14 -- A forced request, end to end.  Store and cache answer, the
    document has text, every analyzer returns: the request is answered with
    status 'processing' and, once its background task has run, the document
    has status 'completed', its text is untouched, the cache holds a result
    tagged 'completed' under the document's key, one analysis document has
    been added and no task is left. *)
Theorem forced_request_completes
  (request : AnalysisRequest) (w : World) (doc : Document) (c : N) (t : text) :
  req_force request = true ->
  db_faults w = [] ->
  redis_is_connected w = true ->
  redis_faults w = [] ->
  redis_client.lookup (req_document_id request) (db_documents w) = Some doc ->
  text_content doc = Some (c :: t) ->
  analyzers_return models (c :: t) ->
  exists response w' results doc',
    serve_analyze models request w = (Ok response, w') /\
    resp_status response = "processing" /\
    redis_client.lookup (req_document_id request) (db_documents w') = Some doc' /\
    analysis_status doc' = Some "completed" /\
    text_content doc' = Some (c :: t) /\
    option_map fst
      (redis_client.lookup
         (redis_client.analysis_key (req_document_id request) "complete")
         (redis_keys w')) = Some results /\
    status results = Some "completed" /\
    length (db_analysis w') = S (length (db_analysis w)) /\
    background_tasks w' = [].
Proof.
  intros Hforce H0 Hconn Hrf Hdoc Htext Hret.
  rewrite (serve_analyze_accepts models request w doc c t H0 Hdoc Htext).
  set (id := req_document_id request) in *.
  match goal with
  | |- context [analyze_document models id _ _ ?W] => set (W3 := W)
  end.
  rewrite Hforce.
  destruct (stages_return models id (c :: t) W3 Hret) as (results & w4 & Hs).
  destruct (completed_run_effect models id (c :: t) true W3 W3 results w4
              eq_refl Hs H0)
    as (rows & now & now' & w5 & b & w6 & Hst & _ & _ & Hset & Hdone & Hk).
  rewrite Hdone. cbn [snd].
  destruct Hst as (Hc5 & Hk5 & Hf5 & Hdocs & _ & Hana & _ & _ & Hbg).
  assert (Hconn5 : redis_is_connected w5 = true).
  { rewrite Hc5, (Hk _ redis_is_connected) by (intros; reflexivity).
    exact Hconn. }
  assert (Hrf5 : redis_faults w5 = []).
  { pose proof (keeps_analysis_stages redis_faults
                  (fun _ _ => eq_refl) (fun _ _ => eq_refl)
                  models id (c :: t) W3) as K.
    rewrite Hs in K. simpl in K. rewrite Hf5, K. exact Hrf. }
  unfold redis_client.cache_analysis in Hset.
  rewrite (set_healthy _ _ _ _ Hconn5 Hrf5) in Hset. injection Hset as _ <-.
  exists (mkAnalyzeResponse true "Analysis started" id "processing").
  eexists. exists results.
  exists (mongodb.apply_update
            (mkDocumentUpdate (Some "completed") None (Some now'))
            (mongodb.apply_update
               (mkDocumentUpdate (Some "processing") None None) doc)).
  split; [reflexivity|]. split; [reflexivity|].
  cbn [db_documents redis_keys db_analysis background_tasks with_redis_keys].
  rewrite Hdocs, Hana, Hbg.
  rewrite (Hk _ db_documents), (Hk _ db_analysis), (Hk _ background_tasks)
    by (intros; reflexivity).
  cbn [db_documents db_analysis background_tasks W3 with_background_tasks
       with_db_documents].
  split.
  { rewrite !lookup_update_one, String.eqb_refl, Hdoc. reflexivity. }
  split; [reflexivity|]. split; [exact Htext|].
  split; [rewrite lookup_store; reflexivity|].
  split; [apply (analysis_stages_completed models id (c :: t) W3 results w4 Hs)|].
  split; [rewrite length_app; simpl; lia | reflexivity].
Qed.

(** X15 -- A cached analysis leaves the request pending.  When the request
    does not force and the cache holds an analysis of the document, the
    route sets the status to 'processing' and the background task returns
    the cached record at once: no stage runs, nothing is persisted, and the
    document's status stays 'processing'. *)
Theorem cached_request_stays_processing
  (request : AnalysisRequest) (w : World) (doc : Document) (c : N) (t : text)
  (cached : Analysis) (ttl : N) :
  req_force request = false ->
  db_faults w = [] ->
  redis_is_connected w = true ->
  redis_faults w = [] ->
  redis_client.lookup
    (redis_client.analysis_key (req_document_id request) "complete")
    (redis_keys w) = Some (cached, ttl) ->
  redis_client.lookup (req_document_id request) (db_documents w) = Some doc ->
  text_content doc = Some (c :: t) ->
  exists response w' doc',
    serve_analyze models request w = (Ok response, w') /\
    redis_client.lookup (req_document_id request) (db_documents w') = Some doc' /\
    analysis_status doc' = Some "processing" /\
    trace w' = trace w /\
    db_analysis w' = db_analysis w /\
    redis_keys w' = redis_keys w.
Proof.
  intros Hforce H0 Hconn Hrf Hcached Hdoc Htext.
  rewrite (serve_analyze_accepts models request w doc c t H0 Hdoc Htext).
  set (id := req_document_id request) in *.
  match goal with
  | |- context [analyze_document models id _ _ ?W] => set (W3 := W)
  end.
  rewrite Hforce.
  assert (Hhit : cache_check id false W3 = (Ok (Some cached), W3)).
  { unfold cache_check. cbn [negb]. unfold redis_client.get_cached_analysis.
    rewrite get_healthy by assumption.
    cbn [redis_keys W3 with_background_tasks with_db_documents].
    rewrite Hcached. reflexivity. }
  rewrite (analyze_document_hit models id (c :: t) false W3 cached W3 Hhit).
  cbn [snd].
  exists (mkAnalyzeResponse true "Analysis started" id "processing"), W3.
  exists (mongodb.apply_update
            (mkDocumentUpdate (Some "processing") None None) doc).
  split; [reflexivity|]. split.
  { cbn [db_documents W3 with_background_tasks with_db_documents].
    rewrite lookup_update_one, String.eqb_refl, Hdoc. reflexivity. }
  repeat split.
Qed.

(** X16 -- No rollback.  When the result has entities and the store takes
    the entity rows but then fails on the analysis document,
    [_save_analysis_results] still returns: the rows stay in the store,
    while no analysis document is written and the document's status is not
    updated. *)
Theorem entity_rows_survive_failed_insert
  (id : string) (results : Analysis) (w : World) (e : exn)
  (later : list (option exn)) (ent : Entity) (ents : list Entity) :
  db_faults w = None :: Some e :: later ->
  read_routes.entities_data results = ent :: ents ->
  exists rows w',
    _save_analysis_results id results w = (Ok tt, w') /\
    db_entities w' = db_entities w ++ rows /\
    map entity_text rows = map e_text (ent :: ents) /\
    db_analysis w' = db_analysis w /\
    db_documents w' = db_documents w.
Proof.
  intros Hfaults Hents.
  unfold read_routes.entities_data, entities_of in Hents.
  destruct (entities results) as [ner|] eqn:Hner; [|discriminate Hents].
  destruct (ner_entities ner) as [l|] eqn:Hl; [|discriminate Hents].
  subst l.
  destruct (entity_rows_stored id (ent :: ents) w) as (rows & w1 & Hr & S1 & Hm & _).
  destruct S1 as (_ & _ & _ & Hdocs1 & Hents1 & Hana1 & Hf1 & _).
  rewrite app_nil_r in Hents1, Hana1.
  assert (Hrows : nonempty rows = true).
  { destruct rows; [discriminate Hm | reflexivity]. }
  set (w2 := with_db_entities (db_entities w1 ++ rows)
               (with_db_faults (Some e :: later) w1)).
  assert (Hins : mongodb.insert_entities rows w1 = (Ok tt, w2)).
  { unfold mongodb.insert_entities. rewrite Hrows.
    unfold bind, mongodb.operation. rewrite Hf1, Hfaults. reflexivity. }
  destruct (utcnow_stored w2) as (now & w3 & Hnow & S3).
  destruct S3 as (_ & _ & _ & Hdocs3 & Hents3 & Hana3 & Hf3 & _).
  rewrite app_nil_r in Hents3, Hana3.
  exists rows, (with_db_faults later w3). split.
  - unfold _save_analysis_results, try_except. rewrite Hner, Hl.
    rewrite (bind_ok _ _ w tt w2).
    + rewrite (bind_ok _ _ _ _ _ Hnow).
      unfold mongodb.insert_analysis.
      rewrite (bind_raise _ _ w3 e (with_db_faults later w3)); [reflexivity|].
      apply bind_raise. unfold mongodb.operation. rewrite Hf3. reflexivity.
    + rewrite (bind_ok _ _ _ _ _ Hr). exact Hins.
  - cbn [db_entities db_analysis db_documents with_db_faults].
    rewrite Hents3, Hana3, Hdocs3.
    cbn [db_entities db_analysis db_documents with_db_faults with_db_entities w2].
    rewrite Hents1, Hana1, Hdocs1. auto.
Qed.

End EngineExtras.


Lemma completed_run_persists_witness :
  exists results now w',
    analyze_document samples_engine.working samples_engine.doc_id
      samples_timeline.hi true
      (samples_engine.world_with samples_engine.stored []) = (Ok results, w') /\
    db_analysis w' =
      [] ++ [extra_spec.analysis_doc samples_engine.doc_id results now].
Proof.
  destruct (completed_run_persists samples_engine.working samples_engine.doc_id
              samples_timeline.hi true
              (samples_engine.world_with samples_engine.stored [])
              (samples_engine.world_with samples_engine.stored [])
              _ _ eq_refl eq_refl eq_refl)
    as (rows & now & now' & w' & Hrun & _ & _ & _ & Hana & _).
  eexists. exists now, w'. split; [exact Hrun | exact Hana].
Defined.

Lemma failed_run_writes_nothing_witness :
  redis_keys
    (snd (analyze_document samples_engine.sentiment_down samples_engine.doc_id
            samples_timeline.hi true samples_more.warm)) =
  redis_keys samples_more.warm.
Proof.
  apply (failed_run_writes_nothing samples_engine.sentiment_down
           samples_engine.doc_id samples_timeline.hi true samples_more.warm
           samples_more.warm _ _ eq_refl eq_refl).
Defined.

Lemma cache_disconnected_witness :
  analyze_document samples_engine.working samples_engine.doc_id
    samples_timeline.hi false samples_more.offline =
  analyze_document samples_engine.working samples_engine.doc_id
    samples_timeline.hi true samples_more.offline.
Proof.
  apply (cache_disconnected samples_engine.working samples_engine.doc_id
           samples_timeline.hi false samples_more.offline eq_refl).
Defined.

Lemma forced_request_completes_witness :
  exists response w',
    serve_analyze samples_engine.working
      (mkAnalysisRequest samples_engine.doc_id true)
      (samples_engine.world_with samples_engine.stored []) = (Ok response, w') /\
    background_tasks w' = [].
Proof.
  destruct (forced_request_completes samples_engine.working
              (mkAnalysisRequest samples_engine.doc_id true)
              (samples_engine.world_with samples_engine.stored [])
              samples_engine.stored 72%N [105; 46]%N
              eq_refl eq_refl eq_refl eq_refl eq_refl eq_refl)
    as (response & w' & results & doc' & Hrun & _ & _ & _ & _ & _ & _ & _ & Hbg).
  - unfold extra_spec.analyzers_return. simpl. repeat split; eauto.
  - exists response, w'. split; [exact Hrun | exact Hbg].
Defined.

Lemma cached_request_stays_processing_witness :
  exists response w' doc',
    serve_analyze samples_engine.working
      (mkAnalysisRequest samples_engine.doc_id false) samples_more.warm =
      (Ok response, w') /\
    redis_client.lookup samples_engine.doc_id (db_documents w') = Some doc' /\
    analysis_status doc' = Some "processing".
Proof.
  destruct (cached_request_stays_processing samples_engine.working
              (mkAnalysisRequest samples_engine.doc_id false) samples_more.warm
              samples_engine.stored 72%N [105; 46]%N
              samples_engine.zero_confidence 7200%N
              eq_refl eq_refl eq_refl eq_refl eq_refl eq_refl eq_refl)
    as (response & w' & doc' & Hrun & Hdoc & Hstatus & _).
  exists response, w', doc'. auto.
Defined.

Lemma entity_rows_survive_failed_insert_witness :
  exists rows w',
    _save_analysis_results samples_engine.doc_id samples_more.with_entity
      (samples_engine.world_with samples_engine.stored
         [None; Some (Exception "connection lost")]) = (Ok tt, w') /\
    db_entities w' = [] ++ rows /\
    db_analysis w' = [].
Proof.
  destruct (entity_rows_survive_failed_insert samples_engine.doc_id
              samples_more.with_entity
              (samples_engine.world_with samples_engine.stored
                 [None; Some (Exception "connection lost")])
              (Exception "connection lost") [] samples.acme []
              eq_refl eq_refl)
    as (rows & w' & Hrun & Hrows & _ & Hana & _).
  exists rows, w'. auto.
Defined.

(* ================================================================== *)
(** * Properties of the routes *)
(* ================================================================== *)

Module route_facts.
Import engine_spec engine_facts extra_spec engine_more read_routes.

Section Preserves.
Context (P : World -> Prop).

Lemma preserves_ret {A} (a : A) : preserves P (ret a).
Proof. intros w H. exact H. Qed.

Lemma preserves_bind {A B} (m : M A) (k : A -> M B) :
  preserves P m -> (forall a, preserves P (k a)) -> preserves P (bind m k).
Proof.
  intros Hm Hk w H. unfold bind. specialize (Hm w H).
  destruct (m w) as [[a|e] w']; simpl in *; [apply Hk; exact Hm | exact Hm].
Qed.

Lemma preserves_try_except {A} (m : M A) (h : exn -> M A) :
  preserves P m -> (forall e, preserves P (h e)) -> preserves P (try_except m h).
Proof.
  intros Hm Hh w H. unfold try_except. specialize (Hm w H).
  destruct (m w) as [[a|e] w']; simpl in *; [exact Hm | apply Hh; exact Hm].
Qed.

End Preserves.

(** What only depends on the analysis collection is preserved by whatever
    keeps that collection. *)
Lemma keeps_preserves {A} (m : M A) :
  keeps db_analysis m -> preserves engine_store m.
Proof. intros K w H. unfold engine_store. rewrite K. exact H. Qed.

Lemma analysis_doc_written id results now :
  engine_written (analysis_doc id results now).
Proof. repeat split. Qed.

Lemma save_preserves id results :
  preserves engine_store (_save_analysis_results id results).
Proof.
  unfold _save_analysis_results.
  apply preserves_try_except; [|intros; apply preserves_ret].
  apply preserves_bind.
  - apply keeps_preserves.
    destruct (entities results) as [ner|]; [|apply keeps_ret].
    destruct (ner_entities ner) as [[|e es]|]; try apply keeps_ret.
    apply keeps_bind.
    + apply keeps_for_each. intros a. unfold entity_row.
      apply keeps_bind; [apply keeps_utcnow; reflexivity|].
      intros. apply keeps_ret.
    + intros rows. unfold mongodb.insert_entities.
      destruct (nonempty rows); [|apply keeps_ret].
      apply keeps_bind; [apply keeps_operation; reflexivity|].
      intros _ w. reflexivity.
  - intros _. apply preserves_bind;
      [apply keeps_preserves; apply keeps_utcnow; reflexivity|].
    intros now. apply preserves_bind.
    + unfold mongodb.insert_analysis. apply preserves_bind.
      * apply keeps_preserves. apply keeps_operation; reflexivity.
      * intros _ w H. unfold engine_store in *. simpl.
        apply Forall_app. split; [exact H|].
        constructor; [apply analysis_doc_written | constructor].
    + intros _. apply keeps_preserves.
      apply keeps_bind; [apply keeps_utcnow; reflexivity|].
      intros now'. unfold mongodb.update_document.
      apply keeps_bind; [apply keeps_operation; reflexivity|].
      intros _ w. reflexivity.
Qed.

Lemma analyze_document_preserves models id t force :
  preserves engine_store (analyze_document models id t force).
Proof.
  unfold analyze_document.
  apply preserves_try_except.
  - apply preserves_bind.
    + apply keeps_preserves. apply (keeps_cache_check db_analysis id force).
      reflexivity.
    + intros [c|]; [apply preserves_ret|].
      apply preserves_bind.
      * apply keeps_preserves. apply keeps_analysis_stages; reflexivity.
      * intros results. apply preserves_bind; [apply save_preserves|].
        intros _. apply preserves_bind; [|intros; apply preserves_ret].
        apply keeps_preserves. unfold redis_client.cache_analysis.
        apply keeps_set; reflexivity.
  - intros e. apply keeps_preserves.
    apply keeps_bind; [apply keeps_utcnow; reflexivity|].
    intros. apply keeps_ret.
Qed.

Lemma keeps_get_document {X} (f : World -> X) id :
  (forall fs w, f (with_db_faults fs w) = f w) ->
  keeps f (mongodb.get_document id).
Proof.
  intros Hf. unfold mongodb.get_document. apply keeps_bind.
  - intros w. unfold mongodb.operation.
    destruct (db_faults w) as [|[e|] fs]; simpl; [reflexivity | |]; apply Hf.
  - intros _ w. reflexivity.
Qed.

Lemma keeps_update_document {X} (f : World -> X) id u :
  (forall fs w, f (with_db_faults fs w) = f w) ->
  (forall ds w, f (with_db_documents ds w) = f w) ->
  keeps f (mongodb.update_document id u).
Proof.
  intros Hf Hd. unfold mongodb.update_document. apply keeps_bind.
  - intros w. unfold mongodb.operation.
    destruct (db_faults w) as [|[e|] fs]; simpl; [reflexivity | |]; apply Hf.
  - intros _ w. simpl. apply Hd.
Qed.

Lemma keeps_analyze_route {X} (f : World -> X) request :
  (forall fs w, f (with_db_faults fs w) = f w) ->
  (forall ds w, f (with_db_documents ds w) = f w) ->
  (forall ts w, f (with_background_tasks ts w) = f w) ->
  keeps f (analyze_route request).
Proof.
  intros Hf Hd Hb. unfold analyze_route.
  apply keeps_try_except.
  - apply keeps_bind; [apply keeps_get_document; exact Hf|].
    intros [doc|]; [|apply keeps_raise].
    destruct (text_content doc) as [[|c t]|]; try apply keeps_raise.
    apply keeps_bind; [apply keeps_update_document; assumption|].
    intros _. apply keeps_bind; [|intros; apply keeps_ret].
    intros w. unfold add_task. simpl. apply Hb.
  - intros [msg|code detail]; apply keeps_raise.
Qed.

Lemma serve_analyze_preserves models request w :
  engine_store w -> engine_store (snd (serve_analyze models request w)).
Proof.
  intros H. unfold serve_analyze.
  pose proof (keeps_analyze_route db_analysis request
                (fun _ _ => eq_refl) (fun _ _ => eq_refl) (fun _ _ => eq_refl)
                (with_background_tasks [] w)) as K.
  destruct (analyze_route request (with_background_tasks [] w)) as [r w1].
  simpl in *.
  assert (H1 : engine_store (with_background_tasks [] w1)).
  { unfold engine_store in *. simpl. rewrite K. exact H. }
  revert H1. generalize (with_background_tasks [] w1).
  induction (background_tasks w1) as [|task tasks IH]; intros w2 H2; simpl.
  - exact H2.
  - apply IH. destruct task as [id t force]. simpl.
    rewrite run_analysis_task_is_analyze. simpl.
    apply analyze_document_preserves. exact H2.
Qed.

(** ** The read routes *)

Lemma get_analysis_ok id wanted w l w' :
  get_analysis id wanted w = (Ok l, w') ->
  l = filter (fun a => String.eqb (document_id a) id && type_matches wanted a)%bool
        (db_analysis w).
Proof.
  unfold get_analysis, bind, mongodb.operation.
  destruct (db_faults w) as [|[e|] fs]; simpl; try discriminate;
    intros [= <- <-]; reflexivity.
Qed.

Lemma first_complete_In id w a w' :
  first_complete id w = (Ok a, w') ->
  In a (db_analysis w) /\ document_id a = id /\ analysis_type a = Some "complete".
Proof.
  unfold first_complete, bind.
  destruct (get_analysis id (Some "complete") w) as [[l|e] w1] eqn:Hget;
    [|discriminate].
  apply get_analysis_ok in Hget.
  destruct l as [|a0 l0]; simpl; [discriminate|]. intros [= <- <-].
  assert (Hin : In a0 (a0 :: l0)) by (left; reflexivity).
  rewrite Hget in Hin. apply filter_In in Hin. destruct Hin as [Hin Hp].
  apply andb_true_iff in Hp. destruct Hp as [Hid Hty].
  apply String.eqb_eq in Hid. simpl in Hty.
  destruct (analysis_type a0) as [ty|]; [|discriminate Hty].
  apply String.eqb_eq in Hty. subst ty. auto.
Qed.

Lemma first_complete_raises id w e w' :
  first_complete id w = (Raise e, w') ->
  e = HTTPException 404 "Analysis not found" \/
  exists fs, db_faults w = Some e :: fs.
Proof.
  unfold first_complete, get_analysis, bind, mongodb.operation.
  destruct (db_faults w) as [|[e0|] fs]; simpl.
  - destruct (filter _ _); simpl; [intros [= <- <-]; auto | discriminate].
  - intros [= <- <-]. right. eauto.
  - destruct (filter _ _); simpl; [intros [= <- <-]; auto | discriminate].
Qed.

(** A completed run on a healthy cache leaves its result in the cache. *)
Lemma completed_run_cached models id t force w results w1 :
  redis_is_connected w = true ->
  redis_faults w = [] ->
  cache_check id force w = (Ok None, w) ->
  analysis_stages models id t w = (Ok results, w1) ->
  exists w3,
    analyze_document models id t force w = (Ok results, w3) /\
    redis_is_connected w3 = true /\
    redis_faults w3 = [] /\
    redis_client.lookup (redis_client.analysis_key id "complete") (redis_keys w3)
      = Some (results, 7200%N).
Proof.
  intros Hconn Hrf Hcheck Hs.
  destruct (analyze_document_completed models id t force w w results w1 Hcheck Hs)
    as (w2 & b & w3 & Hsave & Hset & Hdone).
  pose proof (keeps_analysis_stages redis_is_connected
                (fun _ _ => eq_refl) (fun _ _ => eq_refl) models id t w) as K1.
  pose proof (keeps_save redis_is_connected
                (fun _ _ => eq_refl) (fun _ _ => eq_refl)
                (fun _ _ => eq_refl) (fun _ _ => eq_refl)
                (fun _ _ => eq_refl) id results w1) as K2.
  pose proof (keeps_analysis_stages redis_faults
                (fun _ _ => eq_refl) (fun _ _ => eq_refl) models id t w) as K3.
  pose proof (keeps_save redis_faults
                (fun _ _ => eq_refl) (fun _ _ => eq_refl)
                (fun _ _ => eq_refl) (fun _ _ => eq_refl)
                (fun _ _ => eq_refl) id results w1) as K4.
  rewrite Hs in K1, K3. rewrite Hsave in K2, K4. simpl in *.
  assert (Hc2 : redis_is_connected w2 = true) by congruence.
  assert (Hf2 : redis_faults w2 = []) by congruence.
  unfold redis_client.cache_analysis in Hset.
  rewrite (set_healthy _ _ _ _ Hc2 Hf2) in Hset. injection Hset as _ <-.
  eexists. split; [exact Hdone|]. cbn [redis_is_connected redis_faults redis_keys
                                        with_redis_keys].
  split; [exact Hc2|]. split; [exact Hf2|]. apply lookup_store.
Qed.

(** The two ways the [/analyze] route ends. *)
Lemma analyze_route_cases request w :
  (exists code detail,
      fst (analyze_route request w) = Raise (HTTPException code detail) /\
      background_tasks (snd (analyze_route request w)) = background_tasks w) \/
  (exists c t,
      fst (analyze_route request w) =
        Ok (mkAnalyzeResponse true "Analysis started" (req_document_id request)
              "processing") /\
      background_tasks (snd (analyze_route request w)) =
        background_tasks w ++
        [run_analysis (req_document_id request) (c :: t) (req_force request)]).
Proof.
  unfold analyze_route, try_except.
  pose proof (keeps_get_document background_tasks (req_document_id request)
                (fun _ _ => eq_refl) w) as Kget.
  destruct (mongodb.get_document (req_document_id request) w)
    as [[[doc|]|e0] w1] eqn:Hget; simpl in Kget.
  - rewrite (bind_ok _ _ _ _ _ Hget).
    destruct (text_content doc) as [[|c t]|].
    + left. cbn. eauto.
    + pose proof (keeps_update_document background_tasks (req_document_id request)
                    (mkDocumentUpdate (Some "processing") None None)
                    (fun _ _ => eq_refl) (fun _ _ => eq_refl) w1) as Kupd.
      destruct (mongodb.update_document (req_document_id request)
                  (mkDocumentUpdate (Some "processing") None None) w1)
        as [[[]|e1] w2] eqn:Hupd; simpl in Kupd.
      * right. exists c, t. rewrite (bind_ok _ _ _ _ _ Hupd).
        unfold add_task, bind, ret. cbn. rewrite Kupd, Kget. auto.
      * left. rewrite (bind_raise _ _ _ _ _ Hupd).
        destruct e1 as [msg|code detail]; cbn; rewrite Kupd, Kget; eauto.
    + left. cbn. eauto.
  - left. rewrite (bind_ok _ _ _ _ _ Hget). cbn. eauto.
  - left. rewrite (bind_raise _ _ _ _ _ Hget).
    destruct e0 as [msg|code detail]; cbn; eauto.
Qed.

End route_facts.

Section RouteExtras.
Import engine_spec engine_facts extra_spec engine_more read_routes route_facts.

Variable models : Models.

(** X17 -- What is persisted of an analysis.  The analysis document written
    by [_save_analysis_results] carries no entities, relationships, knowledge
    graph, dates or timeline.  A store whose analysis documents all have
    this shape keeps it through [_save_analysis_results],
    [analyze_document] and a whole [/analyze] request, whatever fails on the
    way. *)
Theorem persisted_analysis_shape :
  (forall id results now, engine_written (analysis_doc id results now)) /\
  (forall id results, preserves engine_store (_save_analysis_results id results)) /\
  (forall id t force, preserves engine_store (analyze_document models id t force)) /\
  (forall request w,
     engine_store w -> engine_store (snd (serve_analyze models request w))).
Proof.
  split; [apply analysis_doc_written|].
  split; [apply save_preserves|].
  split; [apply analyze_document_preserves|].
  apply serve_analyze_preserves.
Qed.

(** X18 -- Reading the graph back.  On a store whose analysis documents are
    as the engine writes them: [GET /knowledge-graph] answers with the empty
    default, [GET /timeline] with no event and no date,
    [GET /central-entities] with no entity, and [GET /entity-network] never
    answers (it raises 404, or 500 when the store fails). *)
Theorem graph_not_read_back (id entity : string) (depth top_n : Z) (w : World) :
  engine_store w ->
  (forall r w', get_knowledge_graph id w = (Ok r, w') -> r = None) /\
  (forall r w', get_timeline id w = (Ok r, w') ->
                tr_timeline r = [] /\ tr_dates r = [] /\ tr_total_events r = 0%nat) /\
  (forall r w', read_routes.get_central_entities id top_n w = (Ok r, w') ->
                cs_central_entities r = [] /\ cs_total r = 0%nat) /\
  (forall r w', get_entity_network id entity depth w <> (Ok r, w')).
Proof.
  intros Hstore.
  assert (Hshape : forall a w1, first_complete id w = (Ok a, w1) -> engine_written a).
  { intros a w1 H. apply first_complete_In in H. destruct H as [Hin _].
    unfold engine_store in Hstore. rewrite Forall_forall in Hstore.
    apply Hstore. exact Hin. }
  split; [|split; [|split]].
  - intros r w'. unfold get_knowledge_graph, http_guard, try_except, bind.
    destruct (first_complete id w) as [[a|e] w1] eqn:Hf.
    + destruct (Hshape a w1 eq_refl) as (_ & _ & Hkg & _).
      unfold ret. intros [= <- <-]. exact Hkg.
    + destruct e; discriminate.
  - intros r w'. unfold get_timeline, http_guard, try_except, bind.
    destruct (first_complete id w) as [[a|e] w1] eqn:Hf.
    + destruct (Hshape a w1 eq_refl) as (_ & _ & _ & Hd & Ht).
      unfold ret. intros [= <- <-]. rewrite Hd, Ht. auto.
    + destruct e; discriminate.
  - intros r w'. unfold read_routes.get_central_entities, http_guard, try_except, bind.
    destruct (first_complete id w) as [[a|e] w1] eqn:Hf.
    + destruct (Hshape a w1 eq_refl) as (He & Hr & _).
      unfold entities_data. rewrite He, Hr.
      unfold invoke, ret. intros [= <- <-]. auto.
    + destruct e; discriminate.
  - intros r w'. unfold get_entity_network, http_guard, try_except, bind.
    destruct (first_complete id w) as [[a|e] w1] eqn:Hf.
    + destruct (Hshape a w1 eq_refl) as (_ & _ & Hkg & _).
      rewrite Hkg. discriminate.
    + destruct e; discriminate.
Qed.

(** X19 -- The analysis is served from the cache.  After a run of
    [analyze_document] that completed on a connected, healthy cache,
    [GET /analysis] answers with the very record the run returned, flagged
    as cached, and does not call the store. *)
Theorem analysis_served_from_cache
  (id : string) (t : text) (force : bool) (w w1 : World) (results : Analysis) :
  redis_is_connected w = true ->
  redis_faults w = [] ->
  cache_check id force w = (Ok None, w) ->
  analysis_stages models id t w = (Ok results, w1) ->
  exists w',
    analyze_document models id t force w = (Ok results, w') /\
    get_analysis_route id w' = (Ok (mkAnalysisResponse results true), w').
Proof.
  intros Hconn Hrf Hcheck Hs.
  destruct (completed_run_cached models id t force w results w1 Hconn Hrf Hcheck Hs)
    as (w3 & Hdone & Hc3 & Hf3 & Hlook).
  exists w3. split; [exact Hdone|].
  unfold get_analysis_route, http_guard, try_except, bind.
  unfold redis_client.get_cached_analysis.
  rewrite (get_healthy _ _ Hc3 Hf3), Hlook. reflexivity.
Qed.

(** X20 -- How the [/analyze] route ends.  A missing document gives 404
    "Document not found"; an exception of the store while the document is
    fetched gives 500 with the message prefixed by "Analysis failed: ".
    Whenever the route raises, what it raises is an [HTTPException] and no
    task has been scheduled; whenever it answers, the answer says
    'processing' and exactly one task, for the document's non-empty text, has
    been scheduled.  The route itself invokes no analyzer and writes no
    analysis. *)
Theorem analyze_route_outcomes (request : AnalysisRequest) (w : World) :
  (forall w1,
     mongodb.get_document (req_document_id request) w = (Ok None, w1) ->
     analyze_route request w =
       (Raise (HTTPException 404 "Document not found"), w1)) /\
  (forall msg w1,
     mongodb.get_document (req_document_id request) w = (Raise (Exception msg), w1) ->
     analyze_route request w =
       (Raise (HTTPException 500 ("Analysis failed: " ++ msg)%string), w1)) /\
  (forall e w',
     analyze_route request w = (Raise e, w') ->
     (exists code detail, e = HTTPException code detail) /\
     background_tasks w' = background_tasks w) /\
  (forall r w',
     analyze_route request w = (Ok r, w') ->
     resp_status r = "processing" /\
     exists c t,
       background_tasks w' =
       background_tasks w ++
       [run_analysis (req_document_id request) (c :: t) (req_force request)]) /\
  trace (snd (analyze_route request w)) = trace w /\
  db_analysis (snd (analyze_route request w)) = db_analysis w.
Proof.
  split; [|split; [|split; [|split; [|split]]]].
  - intros w1 H. unfold analyze_route, try_except, bind. rewrite H. reflexivity.
  - intros msg w1 H. unfold analyze_route, try_except, bind. rewrite H.
    reflexivity.
  - intros e w' H.
    destruct (analyze_route_cases request w) as [(code & detail & Hr & Hb)
                                                |(c & t & Hr & Hb)];
      rewrite H in Hr, Hb; simpl in Hr, Hb.
    + injection Hr as ->. eauto.
    + discriminate Hr.
  - intros r w' H.
    destruct (analyze_route_cases request w) as [(code & detail & Hr & Hb)
                                                |(c & t & Hr & Hb)];
      rewrite H in Hr, Hb; simpl in Hr, Hb.
    + discriminate Hr.
    + injection Hr as ->. eauto.
  - apply (keeps_analyze_route trace request); reflexivity.
  - apply (keeps_analyze_route db_analysis request); reflexivity.
Qed.

End RouteExtras.

Lemma persisted_analysis_shape_witness :
  extra_spec.engine_store
    (snd (serve_analyze samples_engine.working
            (mkAnalysisRequest samples_engine.doc_id true)
            (samples_engine.world_with samples_engine.stored []))).
Proof.
  apply (proj2 (proj2 (proj2 (persisted_analysis_shape samples_engine.working)))).
  constructor.
Defined.

Lemma graph_not_read_back_witness :
  exists w',
    read_routes.get_knowledge_graph samples_engine.doc_id
      (snd (serve_analyze samples_engine.working
              (mkAnalysisRequest samples_engine.doc_id true)
              (samples_engine.world_with samples_engine.stored []))) =
    (Ok None, w').
Proof.
  destruct (read_routes.get_knowledge_graph samples_engine.doc_id
              (snd (serve_analyze samples_engine.working
                      (mkAnalysisRequest samples_engine.doc_id true)
                      (samples_engine.world_with samples_engine.stored []))))
    as [[r|e] w'] eqn:Hrun.
  - exists w'.
    rewrite (proj1 (graph_not_read_back samples_engine.doc_id "Acme Corp" 1 5 _
                      (route_facts.serve_analyze_preserves samples_engine.working
                         (mkAnalysisRequest samples_engine.doc_id true)
                         (samples_engine.world_with samples_engine.stored [])
                         (Forall_nil _)))
                   r w' Hrun).
    reflexivity.
  - vm_compute in Hrun. discriminate Hrun.
Defined.

Lemma analysis_served_from_cache_witness :
  exists results w',
    analyze_document samples_engine.working samples_engine.doc_id
      samples_timeline.hi true
      (samples_engine.world_with samples_engine.stored []) = (Ok results, w') /\
    read_routes.get_analysis_route samples_engine.doc_id w' =
      (Ok (read_routes.mkAnalysisResponse results true), w').
Proof.
  destruct (analysis_served_from_cache samples_engine.working
              samples_engine.doc_id samples_timeline.hi true
              (samples_engine.world_with samples_engine.stored []) _ _
              eq_refl eq_refl eq_refl eq_refl)
    as (w' & Hrun & Hget).
  eexists. exists w'. split; [exact Hrun | exact Hget].
Defined.

Lemma analyze_route_outcomes_witness :
  analyze_route (mkAnalysisRequest "000000000000000000000000" false)
    (samples_engine.world_with samples_engine.stored []) =
  (Raise (HTTPException 404 "Document not found"),
   samples_engine.world_with samples_engine.stored []).
Proof.
  apply (proj1 (analyze_route_outcomes
                  (mkAnalysisRequest "000000000000000000000000" false)
                  (samples_engine.world_with samples_engine.stored []))).
  reflexivity.
Defined.

(* ================================================================== *)
(** * Properties of the cache and store helpers *)
(* ================================================================== *)

Module cache_facts.
Import engine_spec engine_facts extra_spec engine_more.

Lemma lookup_store_other {V} key key' (v : V) l :
  key <> key' ->
  redis_client.lookup key' (redis_client.store key v l) = redis_client.lookup key' l.
Proof.
  intros Hne. induction l as [|[k v0] l IH]; simpl.
  - apply String.eqb_neq in Hne. rewrite Hne. reflexivity.
  - destruct (String.eqb_spec k key) as [Hk|Hk]; simpl.
    + subst k. apply String.eqb_neq in Hne. rewrite Hne. reflexivity.
    + rewrite IH. reflexivity.
Qed.

Lemma length_append (a b : string) :
  String.length (a ++ b)%string = (String.length a + String.length b)%nat.
Proof. induction a as [|c a IH]; simpl; [reflexivity | rewrite IH; reflexivity]. Qed.

Lemma append_cancel_r (a b s : string) :
  (a ++ s)%string = (b ++ s)%string -> a = b.
Proof.
  revert b. induction a as [|c a IH]; intros [|d b] H; simpl in H.
  - reflexivity.
  - exfalso. apply (f_equal String.length) in H. simpl in H.
    rewrite length_append in H. lia.
  - exfalso. apply (f_equal String.length) in H. simpl in H.
    rewrite length_append in H. lia.
  - injection H as -> H. f_equal. apply IH. exact H.
Qed.

Lemma analysis_key_inj id1 id2 ty :
  redis_client.analysis_key id1 ty = redis_client.analysis_key id2 ty -> id1 = id2.
Proof.
  unfold redis_client.analysis_key. simpl. intros H.
  injection H as H. apply (append_cancel_r id1 id2 (":" ++ ty)%string). exact H.
Qed.

Lemma get_fails_soft key w :
  redis_is_connected w = false \/ (exists fs, redis_faults w = true :: fs) ->
  fst (redis_client.get key w) = Ok None.
Proof.
  unfold redis_client.get, redis_client.command_fails.
  intros [H|[fs H]].
  - rewrite H. reflexivity.
  - destruct (redis_is_connected w); [|reflexivity]. rewrite H. reflexivity.
Qed.

End cache_facts.

Section CacheExtras.
Import engine_spec engine_facts extra_spec engine_more cache_facts.

(** X21 -- Cache round trip.  On a connected, healthy cache
    [cache_analysis] reports success, [get_cached_analysis] for the same
    document and type then returns the data stored (whatever was there
    before), with an expiry of 7200 seconds, and the cached analysis of any
    other document under the same type is what it was. *)
Theorem cache_round_trip (id ty : string) (data : Analysis) (w : World) :
  redis_is_connected w = true ->
  redis_faults w = [] ->
  let w' := snd (redis_client.cache_analysis id ty data w) in
  fst (redis_client.cache_analysis id ty data w) = Ok true /\
  redis_client.get_cached_analysis id ty w' = (Ok (Some data), w') /\
  redis_client.lookup (redis_client.analysis_key id ty) (redis_keys w') =
    Some (data, 7200%N) /\
  (forall id', id' <> id ->
     fst (redis_client.get_cached_analysis id' ty w') =
     fst (redis_client.get_cached_analysis id' ty w)).
Proof.
  intros Hconn Hrf w'. subst w'.
  unfold redis_client.cache_analysis, redis_client.get_cached_analysis.
  rewrite (set_healthy _ _ _ _ Hconn Hrf). cbn [fst snd].
  split; [reflexivity|].
  rewrite !get_healthy by assumption.
  cbn [redis_keys with_redis_keys]. rewrite lookup_store.
  split; [reflexivity|]. split; [reflexivity|].
  intros id' Hne. rewrite (get_healthy _ w Hconn Hrf).
  rewrite get_healthy by assumption.
  cbn [redis_keys with_redis_keys fst].
  rewrite lookup_store_other; [reflexivity|].
  intros Heq. apply Hne. symmetry. apply (analysis_key_inj _ _ _ Heq).
Qed.

(** X22 -- The cache fails soft.  [get] and [set] never raise.  When the
    cache is not connected, or the command fails, [get] answers [None] and
    [set] answers [False], and the key space is left as it was. *)
Theorem cache_fails_soft (key : string) (value : Analysis) (expire : N) (w : World) :
  (exists r w', redis_client.get key w = (Ok r, w')) /\
  (exists b w', redis_client.set key value expire w = (Ok b, w')) /\
  redis_keys (snd (redis_client.get key w)) = redis_keys w /\
  (redis_is_connected w = false \/ (exists fs, redis_faults w = true :: fs) ->
   fst (redis_client.get key w) = Ok None /\
   fst (redis_client.set key value expire w) = Ok false /\
   redis_keys (snd (redis_client.set key value expire w)) = redis_keys w).
Proof.
  split; [|split; [apply set_returns|split]].
  - unfold redis_client.get, redis_client.command_fails.
    destruct (redis_is_connected w); simpl; [|eauto].
    destruct (redis_faults w) as [|[|] fs]; simpl; eauto.
  - apply (keeps_get redis_keys key). reflexivity.
  - intros H. split; [apply get_fails_soft; exact H|].
    unfold redis_client.set, redis_client.command_fails.
    destruct H as [H|[fs H]].
    + rewrite H. auto.
    + destruct (redis_is_connected w); [|auto]. rewrite H. auto.
Qed.

(** X23 -- Cache keys.  For a given analysis type, different documents have
    different keys.  Across types the keys are not kept apart: a colon in
    the id can make the key of one type that of another. *)
Theorem analysis_keys_apart :
  (forall id1 id2 ty,
     redis_client.analysis_key id1 ty = redis_client.analysis_key id2 ty ->
     id1 = id2) /\
  redis_client.analysis_key "a:b" "c" = redis_client.analysis_key "a" "b:c".
Proof.
  split; [apply analysis_key_inj | reflexivity].
Qed.

(** X24 -- [update_document] touches one document.  When the call returns,
    the document with the given id (if there is one) has the fields of the
    update set and its other fields, the text included, as before; every
    other document is as before; no document is created.  When the call
    raises, the collection is as before. *)
Theorem update_document_frame (id : string) (u : DocumentUpdate) (w : World) :
  (forall w',
     mongodb.update_document id u w = (Ok tt, w') ->
     redis_client.lookup id (db_documents w') =
       option_map (mongodb.apply_update u)
         (redis_client.lookup id (db_documents w)) /\
     (forall id', id' <> id ->
        redis_client.lookup id' (db_documents w') =
        redis_client.lookup id' (db_documents w)) /\
     map fst (db_documents w') = map fst (db_documents w) /\
     map (fun kd => text_content (snd kd)) (db_documents w') =
     map (fun kd => text_content (snd kd)) (db_documents w)) /\
  (forall e w',
     mongodb.update_document id u w = (Raise e, w') ->
     db_documents w' = db_documents w).
Proof.
  unfold mongodb.update_document, bind, mongodb.operation.
  assert (Hkeys : forall docs,
             map fst (mongodb.update_one id u docs) = map fst docs /\
             map (fun kd => text_content (snd kd)) (mongodb.update_one id u docs) =
             map (fun kd => text_content (snd kd)) docs).
  { induction docs as [|[k d] docs [IH1 IH2]]; simpl; [auto|].
    destruct (String.eqb k id); simpl; [auto|]. rewrite IH1, IH2. auto. }
  split.
  - intros w' H.
    assert (Hdocs : db_documents w' = mongodb.update_one id u (db_documents w)).
    { destruct (db_faults w) as [|[e|] fs]; simpl in H; try discriminate H;
        injection H as <-; reflexivity. }
    rewrite Hdocs. split.
    + rewrite lookup_update_one, String.eqb_refl. reflexivity.
    + split; [|apply Hkeys].
      intros id' Hne. rewrite lookup_update_one.
      destruct (String.eqb_spec id id') as [Heq|_]; [congruence | reflexivity].
  - intros e w' H.
    destruct (db_faults w) as [|[e0|] fs]; simpl in H; try discriminate H;
      injection H as _ <-; reflexivity.
Qed.

End CacheExtras.

Lemma cache_round_trip_witness :
  redis_client.get_cached_analysis samples_engine.doc_id "complete"
    (snd (redis_client.cache_analysis samples_engine.doc_id "complete"
            samples_engine.zero_confidence
            (samples_engine.world_with samples_engine.stored []))) =
  (Ok (Some samples_engine.zero_confidence),
   snd (redis_client.cache_analysis samples_engine.doc_id "complete"
          samples_engine.zero_confidence
          (samples_engine.world_with samples_engine.stored []))).
Proof.
  apply (cache_round_trip samples_engine.doc_id "complete"
           samples_engine.zero_confidence
           (samples_engine.world_with samples_engine.stored [])
           eq_refl eq_refl).
Defined.

Lemma cache_fails_soft_witness :
  fst (redis_client.get "analysis:x:complete" samples_more.offline) = Ok None.
Proof.
  apply (proj2 (proj2 (proj2
           (cache_fails_soft "analysis:x:complete" samples_engine.zero_confidence
              60%N samples_more.offline)))).
  left. reflexivity.
Defined.

Lemma analysis_keys_apart_witness :
  samples_engine.doc_id = samples_engine.doc_id.
Proof.
  apply (proj1 analysis_keys_apart samples_engine.doc_id samples_engine.doc_id
           "complete").
  reflexivity.
Defined.

Lemma update_document_frame_witness :
  redis_client.lookup samples_engine.doc_id
    (db_documents
       (with_db_documents
          (mongodb.update_one samples_engine.doc_id
             (mkDocumentUpdate (Some "failed") (Some "boom") None)
             (db_documents (samples_engine.world_with samples_engine.stored [])))
          (samples_engine.world_with samples_engine.stored []))) =
  option_map
    (mongodb.apply_update (mkDocumentUpdate (Some "failed") (Some "boom") None))
    (redis_client.lookup samples_engine.doc_id
       (db_documents (samples_engine.world_with samples_engine.stored []))).
Proof.
  apply (proj1 (update_document_frame samples_engine.doc_id
                  (mkDocumentUpdate (Some "failed") (Some "boom") None)
                  (samples_engine.world_with samples_engine.stored []))).
  reflexivity.
Defined.

(* ================================================================== *)
(** * Properties of the comparison, the words and the timeline *)
(* ================================================================== *)

Module compare_facts.
Import engine_spec engine_facts extra_spec engine_more query_facts comparison.

Lemma entity_texts_In a x :
  In x (entity_texts a) <-> In x (map e_text (read_routes.entities_data a)).
Proof.
  unfold entity_texts, read_routes.entities_data.
  rewrite add_new_In. simpl. tauto.
Qed.

Lemma entity_texts_NoDup a : NoDup (entity_texts a).
Proof. unfold entity_texts. apply add_new_NoDup. constructor. Qed.

Lemma In_inter a b x : In x (inter a b) <-> In x a /\ In x b.
Proof. unfold inter. rewrite filter_In, mem_In. reflexivity. Qed.

Lemma In_diff a b x : In x (diff a b) <-> In x a /\ ~ In x b.
Proof.
  unfold diff. rewrite filter_In.
  destruct (nx.mem x b) eqn:Hm; simpl.
  - apply mem_In in Hm. split; intros [H1 H2]; [discriminate | contradiction].
  - split; intros [H1 H2]; split; auto.
    intros Hin. apply mem_In in Hin. congruence.
Qed.

End compare_facts.

Section CompareExtras.
Import engine_spec engine_facts extra_spec engine_more query_facts comparison
  compare_facts cache_facts.

(** X25 -- Comparison needs the cache.  [compare_documents] never raises
    and never calls the store.  With both analyses in a connected, healthy
    cache it compares them; when the cache is not connected it answers
    "One or both documents not analyzed", whatever the store holds. *)
Theorem compare_needs_cache (doc_id1 doc_id2 : string) (w : World) :
  (exists r w', compare_documents doc_id1 doc_id2 w = (Ok r, w')) /\
  db_faults (snd (compare_documents doc_id1 doc_id2 w)) = db_faults w /\
  (redis_is_connected w = false ->
   fst (compare_documents doc_id1 doc_id2 w) =
     Ok (Error "One or both documents not analyzed")) /\
  (forall a1 a2 ttl1 ttl2,
     redis_is_connected w = true -> redis_faults w = [] ->
     redis_client.lookup (redis_client.analysis_key doc_id1 "complete")
       (redis_keys w) = Some (a1, ttl1) ->
     redis_client.lookup (redis_client.analysis_key doc_id2 "complete")
       (redis_keys w) = Some (a2, ttl2) ->
     compare_documents doc_id1 doc_id2 w =
       (Ok (Compared (compare_analyses doc_id1 doc_id2 a1 a2)), w)).
Proof.
  split; [|split; [|split]].
  - unfold compare_documents, bind.
    destruct (cache_check_returns doc_id1 false w) as (c1 & w1 & H1).
    unfold cache_check in H1. cbn [negb] in H1. rewrite H1.
    destruct (cache_check_returns doc_id2 false w1) as (c2 & w2 & H2).
    unfold cache_check in H2. cbn [negb] in H2. rewrite H2.
    destruct c1, c2; unfold ret; eauto.
  - assert (K : keeps db_faults (compare_documents doc_id1 doc_id2)).
    { unfold compare_documents.
      apply keeps_bind; [apply keeps_get; reflexivity|]. intros a1.
      apply keeps_bind; [apply keeps_get; reflexivity|]. intros a2.
      destruct a1, a2; apply keeps_ret. }
    apply K.
  - intros Hd. unfold compare_documents, bind,
      redis_client.get_cached_analysis, redis_client.get.
    rewrite Hd. cbn. rewrite Hd. reflexivity.
  - intros a1 a2 ttl1 ttl2 Hconn Hrf H1 H2.
    unfold compare_documents, bind, redis_client.get_cached_analysis.
    rewrite (get_healthy _ w Hconn Hrf), H1. cbn [option_map fst].
    rewrite (get_healthy _ w Hconn Hrf), H2. reflexivity.
Qed.

(** X26 -- What a comparison holds.  The three entity lists are without
    repetition; a text is shared when both analyses mention it, unique to
    one when only that one does, so every text of an analysis is in exactly
    one of its two lists.  The category and the sentiment each give one
    note, a similarity or a difference; an analysis compared with itself
    gives two similarities and no difference and no unique entity. *)
Theorem comparison_partitions
  (doc_id1 doc_id2 : string) (a1 a2 : Analysis) :
  let c := compare_analyses doc_id1 doc_id2 a1 a2 in
  let texts1 := map e_text (read_routes.entities_data a1) in
  let texts2 := map e_text (read_routes.entities_data a2) in
  (forall x, In x (shared_entities c) <-> In x texts1 /\ In x texts2) /\
  (forall x, In x (unique_entities_1 c) <-> In x texts1 /\ ~ In x texts2) /\
  (forall x, In x (unique_entities_2 c) <-> In x texts2 /\ ~ In x texts1) /\
  NoDup (shared_entities c) /\
  NoDup (unique_entities_1 c) /\
  NoDup (unique_entities_2 c) /\
  (length (similarities c) + length (differences c) = 2)%nat /\
  (let self := compare_analyses doc_id1 doc_id1 a1 a1 in
   length (similarities self) = 2%nat /\ differences self = [] /\
   unique_entities_1 self = [] /\ unique_entities_2 self = []).
Proof.
  intros c texts1 texts2. subst c texts1 texts2.
  unfold compare_analyses.
  cbn [shared_entities unique_entities_1 unique_entities_2 similarities differences].
  split; [intros x; rewrite In_inter, !entity_texts_In; reflexivity|].
  split; [intros x; rewrite In_diff, !entity_texts_In; reflexivity|].
  split; [intros x; rewrite In_diff, !entity_texts_In; reflexivity|].
  split; [apply NoDup_filter, entity_texts_NoDup|].
  split; [apply NoDup_filter, entity_texts_NoDup|].
  split; [apply NoDup_filter, entity_texts_NoDup|].
  split.
  - destruct (option_eqb (category_of a1) (category_of a2));
      destruct (option_eqb (sentiment_of a1) (sentiment_of a2)); reflexivity.
  - assert (Hrefl : forall o, option_eqb o o = true).
    { intros [s|]; [apply String.eqb_refl | reflexivity]. }
    rewrite !Hrefl. cbn [app length].
    assert (Hnil : diff (entity_texts a1) (entity_texts a1) = []).
    { destruct (diff (entity_texts a1) (entity_texts a1)) as [|x l] eqn:Hd;
        [reflexivity|].
      assert (Hin : In x (diff (entity_texts a1) (entity_texts a1)))
        by (rewrite Hd; left; reflexivity).
      apply In_diff in Hin. tauto. }
    rewrite Hnil. auto.
Qed.

End CompareExtras.

Lemma compare_needs_cache_witness :
  fst (comparison.compare_documents samples_engine.doc_id "other"
         samples_more.offline) =
  Ok (comparison.Error "One or both documents not analyzed").
Proof.
  apply (proj1 (proj2 (proj2
           (compare_needs_cache samples_engine.doc_id "other"
              samples_more.offline)))).
  reflexivity.
Defined.

Module text_facts.
Import extra_spec.

Lemma concat_flush cur : concat (flush cur) = rev cur.
Proof. destruct cur; simpl; [reflexivity | apply app_nil_r]. Qed.

Lemma concat_split_from cur s :
  concat (split_from cur s) = rev cur ++ filter (fun c => negb (isspace c)) s.
Proof.
  revert cur. induction s as [|c s IH]; intros cur; simpl.
  - rewrite app_nil_r. apply concat_flush.
  - destruct (isspace c) eqn:Hc; simpl.
    + rewrite concat_app, concat_flush, IH. reflexivity.
    + rewrite IH. simpl. rewrite <- app_assoc. reflexivity.
Qed.

Lemma words_split_from cur s :
  forallb (fun c => negb (isspace c)) cur = true ->
  Forall (fun word => word <> [] /\
                      forallb (fun c => negb (isspace c)) word = true)
         (split_from cur s).
Proof.
  assert (Hflush : forall cur,
             forallb (fun c => negb (isspace c)) cur = true ->
             Forall (fun word => word <> [] /\
                                 forallb (fun c => negb (isspace c)) word = true)
                    (flush cur)).
  { intros [|c cur'] H; simpl; constructor; [|constructor].
    split.
    - intros Hnil. apply (f_equal (@length N)) in Hnil.
      rewrite length_app in Hnil. simpl in Hnil. lia.
    - change (rev cur' ++ [c]) with (rev (c :: cur')).
      rewrite forallb_forall in *. intros x Hx. apply H.
      apply in_rev. exact Hx. }
  revert cur. induction s as [|c s IH]; intros cur Hcur; simpl.
  - apply Hflush. exact Hcur.
  - destruct (isspace c) eqn:Hc.
    + apply Forall_app. split; [apply Hflush; exact Hcur | apply IH; reflexivity].
    + apply IH. simpl. rewrite Hc. exact Hcur.
Qed.

Lemma join_split_on sep s : join sep (split_on sep s) = s.
Proof.
  induction s as [|c s IH]; simpl; [reflexivity|].
  destruct (N.eqb_spec c sep) as [->|Hne].
  - destruct (split_on sep s) as [|piece rest] eqn:Hs.
    + pose proof (statistics_facts.length_split_on sep s) as Hl.
      rewrite Hs in Hl. discriminate Hl.
    + simpl in *. f_equal. exact IH.
  - destruct (split_on sep s) as [|piece rest] eqn:Hs.
    + pose proof (statistics_facts.length_split_on sep s) as Hl.
      rewrite Hs in Hl. discriminate Hl.
    + destruct rest as [|piece' rest']; simpl in *; f_equal; exact IH.
Qed.

Lemma pieces_split_on sep s :
  Forall (fun piece => ~ In sep piece) (split_on sep s).
Proof.
  induction s as [|c s IH]; simpl.
  - constructor; [tauto | constructor].
  - destruct (N.eqb_spec c sep) as [->|Hne].
    + constructor; [tauto | exact IH].
    + destruct (split_on sep s) as [|piece rest]; [repeat constructor; simpl; tauto|].
      inversion IH as [|? ? Hp Hr]; subst.
      constructor; [|exact Hr]. simpl. intros [H|H]; [congruence | tauto].
Qed.

Lemma nodup_length_le {A} (dec : forall x y : A, {x = y} + {x <> y}) l :
  (length (nodup dec l) <= length l)%nat.
Proof.
  induction l as [|x l IH]; simpl; [lia|].
  destruct (in_dec dec x l); simpl; lia.
Qed.

End text_facts.

Section TextExtras.
Import extra_spec text_facts timeline_spec timeline_facts.

(** X27 -- Sentences, put back together.  Joining the pieces of
    [text.split('.')] with '.' gives the text back; no piece contains a
    full stop; and the number of sentences reported is one more than the
    number of full stops in the text. *)
Theorem sentences_round_trip (t : text) :
  join full_stop (split_on full_stop t) = t /\
  Forall (fun piece => ~ In full_stop piece) (split_on full_stop t) /\
  length (split_on full_stop t) = S (length (filter (N.eqb full_stop) t)).
Proof.
  split; [apply join_split_on|].
  split; [apply pieces_split_on | apply statistics_facts.length_split_on].
Qed.

(** X28 -- Words.  The words of [text.split()] are non-empty and contain no
    whitespace, and put end to end they are the text with its whitespace
    removed.  In the statistics the number of unique words is at most the
    number of words, so that the vocabulary richness is at most 1. *)
Theorem words_of_text (t : text) :
  Forall (fun word => word <> [] /\
                      forallb (fun c => negb (isspace c)) word = true)
         (split t) /\
  concat (split t) = filter (fun c => negb (isspace c)) t /\
  (count_unique (split t) <= length (split t))%nat /\
  exists st,
    _calculate_text_statistics t = Ok st /\
    (unique_words st <= total_words st)%nat /\
    0 <= vocabulary_richness st /\ vocabulary_richness st <= 1.
Proof.
  split; [apply (words_split_from [] t); reflexivity|].
  split; [apply (concat_split_from [] t)|].
  assert (Hle : (count_unique (split t) <= length (split t))%nat)
    by apply nodup_length_le.
  split; [exact Hle|].
  unfold _calculate_text_statistics.
  pose proof (statistics_facts.length_split_on full_stop t) as Hlen.
  destruct (split_on full_stop t) as [|piece pieces]; [discriminate Hlen|].
  cbn [nonempty].
  rewrite (statistics_facts.truediv_ok (length (split t)) (length (piece :: pieces)))
    by (simpl; lia).
  destruct (split t) as [|word words] eqn:Hw.
  - cbn [nonempty result_bind]. eexists. split; [reflexivity|].
    cbn. split; [lia|]. split; [apply Qle_refl | discriminate].
  - cbn [nonempty]. rewrite !statistics_facts.truediv_ok by (simpl; lia).
    cbn [result_bind]. eexists. split; [reflexivity|].
    cbn [unique_words total_words vocabulary_richness].
    split; [exact Hle|].
    set (u := count_unique (word :: words)) in *.
    set (n := length (word :: words)) in *.
    assert (Hn : (0 < n)%nat) by (unfold n; simpl; lia).
    clearbody u n.
    split.
    + apply Qle_shift_div_l.
      * unfold Qlt. simpl. lia.
      * rewrite Qmult_0_l. unfold Qle. simpl. lia.
    + apply Qle_shift_div_r.
      * unfold Qlt. simpl. lia.
      * rewrite Qmult_1_l. unfold Qle. simpl. lia.
Qed.

(** X29 -- Shape of the timeline.  The timeline has one entry per date
    item, also for a date with no entity nearby; every entry is tagged
    'event' and relates at most 5 texts, each the text of an entity of the
    list. *)
Theorem timeline_shape (dates : list DateItem) (entities : list Entity) :
  length (_build_timeline dates entities) = length dates /\
  Forall (fun entry =>
            context entry = "event" /\
            (length (related_entities entry) <= 5)%nat /\
            incl (related_entities entry) (map e_text entities))
         (_build_timeline dates entities).
Proof.
  unfold _build_timeline.
  pose proof (sort_by_perm position (map (timeline_entry entities) dates)) as Hperm.
  split.
  - rewrite <- (Permutation_length Hperm). apply length_map.
  - apply (Permutation_Forall Hperm). apply Forall_forall.
    intros entry Hin. apply in_map_iff in Hin. destruct Hin as [d [<- _]].
    unfold timeline_entry.
    cbn [context related_entities]. split; [reflexivity|]. split.
    + rewrite length_map. apply firstn_le_length.
    + intros x Hx. apply in_map_iff in Hx. destruct Hx as [e [<- He]].
      apply in_map. apply kg_props.In_slice_to in He.
      apply filter_In in He. tauto.
Qed.

End TextExtras.
